(** * Hyperphonic: the playback and view-mode controller of [src/App.tsx]

    A shallow embedding of the React component [App] (and of the part of
    [Visualizer] that reads the analyser) together with the browser objects
    the handlers talk to: the media element, [document.fullscreenElement],
    the Web Audio graph, timers and pending promises.

    Conventions.
    - A JavaScript [number] that holds a time or a volume is a binary64
      float ([PrimFloat.float]); an index or a length is an integer ([Z],
      with [-1] as the "no track" sentinel the code uses).  The one integer
      cell that can hold JavaScript's [-0], [currentTrackIndex], carries a
      flag for it: arithmetic and comparisons ignore the sign of zero,
      React's [Object.is] on effect dependencies does not.
    - The component state ([useState]) and the refs ([useRef]) are fields of
      one record [App]; a handler is a function [App -> App].  A memoised
      closure ([useCallback]) lists in its dependency array each state
      variable it reads and the other handlers are made anew by every
      render, so a handler always sees the committed state; the setter calls
      of one handler are applied in order.
    - Every call that leaves the component (media element, fullscreen API,
      Web Audio, [URL], [console], the DOM event) is appended to [calls].
    - A promise the code holds on to is an entry of [pending]; the browser
      settles it later with [settle]. *)

From Stdlib Require Import List String Ascii Bool ZArith Lia Floats.
Import ListNotations.

(* 0.05 and 0.7 are not binary64 values; as in JavaScript the nearest one is
   used. *)
#[local] Set Warnings "-inexact-float".

(** ** JavaScript values *)

Module JS.

Definition number := float.

Local Open Scope float_scope.

Definition is_pzero (x : number) : bool :=
  match classify x with PZero => true | _ => false end.

Definition is_nzero (x : number) : bool :=
  match classify x with NZero => true | _ => false end.

(** [Math.max(a, b)] (ECMA-262, 21.3.2.24): NaN if either is NaN,
    [+0] is larger than [-0]. *)
Definition Math_max (a b : number) : number :=
  if is_nan a || is_nan b then nan
  else if is_nzero a && is_pzero b then b
  else if a <? b then b else a.

(** [Math.min(a, b)] (ECMA-262, 21.3.2.25): NaN if either is NaN,
    [-0] is smaller than [+0]. *)
Definition Math_min (a b : number) : number :=
  if is_nan a || is_nan b then nan
  else if is_pzero a && is_nzero b then b
  else if b <? a then b else a.

(** [x || 0] on a number: [0], [-0] and NaN are falsy. *)
Definition or_zero (x : number) : number :=
  if is_nan x || is_zero x then 0 else x.

(** [Object.is] on numbers, which React uses to compare dependencies. *)
Definition Object_is (x y : number) : bool := Leibniz.eqb x y.

(** [s.startsWith(p)] *)
Definition startsWith (p s : string) : bool := String.prefix p s.

(** [arr.includes(k)] on an array of strings *)
Definition includes (k : string) (arr : list string) : bool :=
  existsb (String.eqb k) arr.

(** [a % n] on integers, [n] not zero: the sign follows the dividend, also
    when the result is zero, so a negative dividend that [n] divides gives
    [-0].  The result is the value together with whether it is that [-0]. *)
Definition rem (a n : Z) : Z * bool :=
  (Z.rem a n, (a <? 0)%Z && (Z.rem a n =? 0)%Z).

(** [Object.is] on integer-valued numbers given in that form: the two
    zeros differ. *)
Definition Object_is_integer (x y : Z * bool) : bool :=
  (fst x =? fst y)%Z
  && (if (fst x =? 0)%Z then Bool.eqb (snd x) (snd y) else true).

End JS.

(** The clamp [Math.min(hi, Math.max(0, x))] that [seek] computes. *)
Definition clamp0 (hi x : JS.number) : JS.number :=
  JS.Math_min hi (JS.Math_max 0%float x).

(** ** Data model *)

Local Open Scope string_scope.
Local Open Scope Z_scope.

Inductive MediaKind : Type := audio | video.

(** [interface Track] (App.tsx, lines 22-28).  [duration] is declared
    optional and no code path ever assigns it. *)
Module Track.
Record t : Type := mk {
  id : string;
  name : string;
  url : string;
  type : MediaKind;
  duration : option JS.number
}.
End Track.

(** A DOM [File] as the ingestion handlers read it, together with the two
    values the environment produces while the file is mapped to a track:
    [random_id] is what [Math.random().toString(36).substr(2, 9)] evaluates
    to and [object_url] is what [URL.createObjectURL(file)] returns. *)
Module File.
Record t : Type := mk {
  name : string;
  type : string;
  random_id : string;
  object_url : string
}.
End File.

Record VolumeIndicator : Type := mkVolumeIndicator {
  value : JS.number;
  visible : bool
}.

(** The fields of the media element ([<video ref={mediaRef}>]) that the
    component reads or assigns. *)
Module HTMLMediaElement.
Record t : Type := mk {
  currentTime : JS.number;
  duration : JS.number;
  volume : JS.number
}.
End HTMLMediaElement.

Inductive AudioContextState : Type := suspended | running.

Module AudioContext.
Record t : Type := mk { state : AudioContextState }.
End AudioContext.

(** Web Audio's [AnalyserNode]: [frequencyBinCount] is a read-only
    attribute, half of [fftSize]; a node made by [createAnalyser()] starts
    with [fftSize = 2048]. *)
Module AnalyserNode.
Record t : Type := mk { fftSize : Z }.
Definition frequencyBinCount (n : t) : Z := fftSize n / 2.
Definition default : t := mk 2048.
Definition set_fftSize (v : Z) (n : t) : t := mk v.
End AnalyserNode.

Inductive MediaElementAudioSourceNode : Type := media_element_source.

(** What a [setTimeout] callback of the component does when it fires. *)
Inductive TimerTask : Type :=
| hide_volume_indicator   (* setVolumeIndicator(prev => ({...prev, visible: false})) *)
| hide_controls.          (* setShowControls(false) *)

(** The asynchronous commands the component issues. *)
Inductive Command : Type :=
| cmd_play | cmd_requestFullscreen | cmd_exitFullscreen | cmd_resume.

(** What the code attached to the promise of a command:
    [.catch(console.error)], or the rest of [togglePlay] behind its
    [await], with the values its closure captured. *)
Inductive Reaction : Type :=
| catch_console_error
| await_in_togglePlay (isPlaying0 : bool) (currentTrackIndex0 : Z)
                      (tracks_length0 : Z).

Record Promise : Type := mkPromise {
  command : Command;
  reaction : Reaction
}.

(** Calls that leave the component, in the order they are made. *)
Inductive Call : Type :=
| media_play
| media_pause
| media_set_currentTime (t : JS.number)
| media_set_volume (v : JS.number)
| requestFullscreen
| exitFullscreen
| audioContext_resume
| new_AudioContext
| createAnalyser
| createMediaElementSource
| connect_source_to_analyser
| connect_analyser_to_destination
| createObjectURL (url : string)     (* the URL handed out *)
| revokeObjectURL (url : string)
| preventDefault
| stopPropagation
| setTimeout (id : nat) (ms : Z)
| clearTimeout (id : nat)
| console_error (c : Command)
| unhandled_rejection (c : Command).

(** The component: its [useState] cells, its [useRef] cells and the part of
    the browser it observes. *)
Record App : Type := mkApp {
  (* useState, lines 31-42 *)
  tracks : list Track.t;
  currentTrackIndex : Z;
  currentTrackIndexIsNegativeZero : bool;
     (* the index is JavaScript's [-0], which [%] can leave and which React
        ([Object.is]) tells from [0] *)
  isPlaying : bool;
  volume : JS.number;
  currentTime : JS.number;
  duration : JS.number;
  isMuted : bool;
  showPlaylist : bool;
  volumeIndicator : VolumeIndicator;
  isFullscreen : bool;
  isVideoOnly : bool;
  showControls : bool;
  (* useRef, lines 44-50; [containerRef] is the root element and is always
     attached, so it is left out *)
  mediaRef : option HTMLMediaElement.t;
     (* the markup has two [<video ref={mediaRef}>], one per kind of track
        (lines 367 and 425), of which one is mounted at a time; the model
        keeps one element under the ref, so the element's own fields are
        carried over where a change of kind mounts the other element *)
  volumeTimeoutRef : option nat;
  controlsTimeoutRef : option nat;
  audioContextRef : option AudioContext.t;
  analyserRef : option AnalyserNode.t;
  sourceRef : option MediaElementAudioSourceNode;
  (* browser *)
  fullscreenElement : bool;           (* document.fullscreenElement is not null *)
  timers : list (nat * TimerTask);    (* timeouts not yet fired or cleared *)
  next_timer : nat;                   (* the id the next setTimeout returns *)
  pending : list Promise;             (* promises not yet settled *)
  calls : list Call
}.

(** *** Field updates *)

Definition setTracks (v : list Track.t) (a : App) : App :=
  {| tracks := v; currentTrackIndex := currentTrackIndex a;
     currentTrackIndexIsNegativeZero := currentTrackIndexIsNegativeZero a;
     isPlaying := isPlaying a; volume := volume a; currentTime :=
     currentTime a; duration := duration a; isMuted := isMuted a;
     showPlaylist := showPlaylist a; volumeIndicator := volumeIndicator a;
     isFullscreen := isFullscreen a; isVideoOnly := isVideoOnly a;
     showControls := showControls a; mediaRef := mediaRef a;
     volumeTimeoutRef := volumeTimeoutRef a; controlsTimeoutRef :=
     controlsTimeoutRef a; audioContextRef := audioContextRef a; analyserRef
     := analyserRef a; sourceRef := sourceRef a; fullscreenElement :=
     fullscreenElement a; timers := timers a; next_timer := next_timer a;
     pending := pending a; calls := calls a |}.

(** [setCurrentTrackIndex(v)] for a [v] that is not [-0]: a literal, an
    array index, or [prev - 1]. *)
Definition setCurrentTrackIndex (v : Z) (a : App) : App :=
  {| tracks := tracks a; currentTrackIndex := v;
     currentTrackIndexIsNegativeZero := false; isPlaying := isPlaying a;
     volume := volume a; currentTime := currentTime a; duration := duration
     a; isMuted := isMuted a; showPlaylist := showPlaylist a;
     volumeIndicator := volumeIndicator a; isFullscreen := isFullscreen a;
     isVideoOnly := isVideoOnly a; showControls := showControls a; mediaRef
     := mediaRef a; volumeTimeoutRef := volumeTimeoutRef a;
     controlsTimeoutRef := controlsTimeoutRef a; audioContextRef :=
     audioContextRef a; analyserRef := analyserRef a; sourceRef := sourceRef
     a; fullscreenElement := fullscreenElement a; timers := timers a;
     next_timer := next_timer a; pending := pending a; calls := calls a |}.

(** [setCurrentTrackIndex(v)] for the result of [%]. *)
Definition setCurrentTrackIndex_number (v : Z * bool) (a : App) : App :=
  {| tracks := tracks a; currentTrackIndex := fst v;
     currentTrackIndexIsNegativeZero := snd v; isPlaying := isPlaying a;
     volume := volume a; currentTime := currentTime a; duration := duration
     a; isMuted := isMuted a; showPlaylist := showPlaylist a;
     volumeIndicator := volumeIndicator a; isFullscreen := isFullscreen a;
     isVideoOnly := isVideoOnly a; showControls := showControls a; mediaRef
     := mediaRef a; volumeTimeoutRef := volumeTimeoutRef a;
     controlsTimeoutRef := controlsTimeoutRef a; audioContextRef :=
     audioContextRef a; analyserRef := analyserRef a; sourceRef := sourceRef
     a; fullscreenElement := fullscreenElement a; timers := timers a;
     next_timer := next_timer a; pending := pending a; calls := calls a |}.

Definition setIsPlaying (v : bool) (a : App) : App :=
  {| tracks := tracks a; currentTrackIndex := currentTrackIndex a;
     currentTrackIndexIsNegativeZero := currentTrackIndexIsNegativeZero a;
     isPlaying := v; volume := volume a; currentTime := currentTime a;
     duration := duration a; isMuted := isMuted a; showPlaylist :=
     showPlaylist a; volumeIndicator := volumeIndicator a; isFullscreen :=
     isFullscreen a; isVideoOnly := isVideoOnly a; showControls :=
     showControls a; mediaRef := mediaRef a; volumeTimeoutRef :=
     volumeTimeoutRef a; controlsTimeoutRef := controlsTimeoutRef a;
     audioContextRef := audioContextRef a; analyserRef := analyserRef a;
     sourceRef := sourceRef a; fullscreenElement := fullscreenElement a;
     timers := timers a; next_timer := next_timer a; pending := pending a;
     calls := calls a |}.

Definition setVolume (v : JS.number) (a : App) : App :=
  {| tracks := tracks a; currentTrackIndex := currentTrackIndex a;
     currentTrackIndexIsNegativeZero := currentTrackIndexIsNegativeZero a;
     isPlaying := isPlaying a; volume := v; currentTime := currentTime a;
     duration := duration a; isMuted := isMuted a; showPlaylist :=
     showPlaylist a; volumeIndicator := volumeIndicator a; isFullscreen :=
     isFullscreen a; isVideoOnly := isVideoOnly a; showControls :=
     showControls a; mediaRef := mediaRef a; volumeTimeoutRef :=
     volumeTimeoutRef a; controlsTimeoutRef := controlsTimeoutRef a;
     audioContextRef := audioContextRef a; analyserRef := analyserRef a;
     sourceRef := sourceRef a; fullscreenElement := fullscreenElement a;
     timers := timers a; next_timer := next_timer a; pending := pending a;
     calls := calls a |}.

Definition setCurrentTime (v : JS.number) (a : App) : App :=
  {| tracks := tracks a; currentTrackIndex := currentTrackIndex a;
     currentTrackIndexIsNegativeZero := currentTrackIndexIsNegativeZero a;
     isPlaying := isPlaying a; volume := volume a; currentTime := v;
     duration := duration a; isMuted := isMuted a; showPlaylist :=
     showPlaylist a; volumeIndicator := volumeIndicator a; isFullscreen :=
     isFullscreen a; isVideoOnly := isVideoOnly a; showControls :=
     showControls a; mediaRef := mediaRef a; volumeTimeoutRef :=
     volumeTimeoutRef a; controlsTimeoutRef := controlsTimeoutRef a;
     audioContextRef := audioContextRef a; analyserRef := analyserRef a;
     sourceRef := sourceRef a; fullscreenElement := fullscreenElement a;
     timers := timers a; next_timer := next_timer a; pending := pending a;
     calls := calls a |}.

Definition setDuration (v : JS.number) (a : App) : App :=
  {| tracks := tracks a; currentTrackIndex := currentTrackIndex a;
     currentTrackIndexIsNegativeZero := currentTrackIndexIsNegativeZero a;
     isPlaying := isPlaying a; volume := volume a; currentTime :=
     currentTime a; duration := v; isMuted := isMuted a; showPlaylist :=
     showPlaylist a; volumeIndicator := volumeIndicator a; isFullscreen :=
     isFullscreen a; isVideoOnly := isVideoOnly a; showControls :=
     showControls a; mediaRef := mediaRef a; volumeTimeoutRef :=
     volumeTimeoutRef a; controlsTimeoutRef := controlsTimeoutRef a;
     audioContextRef := audioContextRef a; analyserRef := analyserRef a;
     sourceRef := sourceRef a; fullscreenElement := fullscreenElement a;
     timers := timers a; next_timer := next_timer a; pending := pending a;
     calls := calls a |}.

Definition setIsMuted (v : bool) (a : App) : App :=
  {| tracks := tracks a; currentTrackIndex := currentTrackIndex a;
     currentTrackIndexIsNegativeZero := currentTrackIndexIsNegativeZero a;
     isPlaying := isPlaying a; volume := volume a; currentTime :=
     currentTime a; duration := duration a; isMuted := v; showPlaylist :=
     showPlaylist a; volumeIndicator := volumeIndicator a; isFullscreen :=
     isFullscreen a; isVideoOnly := isVideoOnly a; showControls :=
     showControls a; mediaRef := mediaRef a; volumeTimeoutRef :=
     volumeTimeoutRef a; controlsTimeoutRef := controlsTimeoutRef a;
     audioContextRef := audioContextRef a; analyserRef := analyserRef a;
     sourceRef := sourceRef a; fullscreenElement := fullscreenElement a;
     timers := timers a; next_timer := next_timer a; pending := pending a;
     calls := calls a |}.

Definition setShowPlaylist (v : bool) (a : App) : App :=
  {| tracks := tracks a; currentTrackIndex := currentTrackIndex a;
     currentTrackIndexIsNegativeZero := currentTrackIndexIsNegativeZero a;
     isPlaying := isPlaying a; volume := volume a; currentTime :=
     currentTime a; duration := duration a; isMuted := isMuted a;
     showPlaylist := v; volumeIndicator := volumeIndicator a; isFullscreen
     := isFullscreen a; isVideoOnly := isVideoOnly a; showControls :=
     showControls a; mediaRef := mediaRef a; volumeTimeoutRef :=
     volumeTimeoutRef a; controlsTimeoutRef := controlsTimeoutRef a;
     audioContextRef := audioContextRef a; analyserRef := analyserRef a;
     sourceRef := sourceRef a; fullscreenElement := fullscreenElement a;
     timers := timers a; next_timer := next_timer a; pending := pending a;
     calls := calls a |}.

Definition setVolumeIndicator (v : VolumeIndicator) (a : App) : App :=
  {| tracks := tracks a; currentTrackIndex := currentTrackIndex a;
     currentTrackIndexIsNegativeZero := currentTrackIndexIsNegativeZero a;
     isPlaying := isPlaying a; volume := volume a; currentTime :=
     currentTime a; duration := duration a; isMuted := isMuted a;
     showPlaylist := showPlaylist a; volumeIndicator := v; isFullscreen :=
     isFullscreen a; isVideoOnly := isVideoOnly a; showControls :=
     showControls a; mediaRef := mediaRef a; volumeTimeoutRef :=
     volumeTimeoutRef a; controlsTimeoutRef := controlsTimeoutRef a;
     audioContextRef := audioContextRef a; analyserRef := analyserRef a;
     sourceRef := sourceRef a; fullscreenElement := fullscreenElement a;
     timers := timers a; next_timer := next_timer a; pending := pending a;
     calls := calls a |}.

Definition setIsFullscreen (v : bool) (a : App) : App :=
  {| tracks := tracks a; currentTrackIndex := currentTrackIndex a;
     currentTrackIndexIsNegativeZero := currentTrackIndexIsNegativeZero a;
     isPlaying := isPlaying a; volume := volume a; currentTime :=
     currentTime a; duration := duration a; isMuted := isMuted a;
     showPlaylist := showPlaylist a; volumeIndicator := volumeIndicator a;
     isFullscreen := v; isVideoOnly := isVideoOnly a; showControls :=
     showControls a; mediaRef := mediaRef a; volumeTimeoutRef :=
     volumeTimeoutRef a; controlsTimeoutRef := controlsTimeoutRef a;
     audioContextRef := audioContextRef a; analyserRef := analyserRef a;
     sourceRef := sourceRef a; fullscreenElement := fullscreenElement a;
     timers := timers a; next_timer := next_timer a; pending := pending a;
     calls := calls a |}.

Definition setIsVideoOnly (v : bool) (a : App) : App :=
  {| tracks := tracks a; currentTrackIndex := currentTrackIndex a;
     currentTrackIndexIsNegativeZero := currentTrackIndexIsNegativeZero a;
     isPlaying := isPlaying a; volume := volume a; currentTime :=
     currentTime a; duration := duration a; isMuted := isMuted a;
     showPlaylist := showPlaylist a; volumeIndicator := volumeIndicator a;
     isFullscreen := isFullscreen a; isVideoOnly := v; showControls :=
     showControls a; mediaRef := mediaRef a; volumeTimeoutRef :=
     volumeTimeoutRef a; controlsTimeoutRef := controlsTimeoutRef a;
     audioContextRef := audioContextRef a; analyserRef := analyserRef a;
     sourceRef := sourceRef a; fullscreenElement := fullscreenElement a;
     timers := timers a; next_timer := next_timer a; pending := pending a;
     calls := calls a |}.

Definition setShowControls (v : bool) (a : App) : App :=
  {| tracks := tracks a; currentTrackIndex := currentTrackIndex a;
     currentTrackIndexIsNegativeZero := currentTrackIndexIsNegativeZero a;
     isPlaying := isPlaying a; volume := volume a; currentTime :=
     currentTime a; duration := duration a; isMuted := isMuted a;
     showPlaylist := showPlaylist a; volumeIndicator := volumeIndicator a;
     isFullscreen := isFullscreen a; isVideoOnly := isVideoOnly a;
     showControls := v; mediaRef := mediaRef a; volumeTimeoutRef :=
     volumeTimeoutRef a; controlsTimeoutRef := controlsTimeoutRef a;
     audioContextRef := audioContextRef a; analyserRef := analyserRef a;
     sourceRef := sourceRef a; fullscreenElement := fullscreenElement a;
     timers := timers a; next_timer := next_timer a; pending := pending a;
     calls := calls a |}.

Definition set_mediaRef (v : option HTMLMediaElement.t) (a : App) : App :=
  {| tracks := tracks a; currentTrackIndex := currentTrackIndex a;
     currentTrackIndexIsNegativeZero := currentTrackIndexIsNegativeZero a;
     isPlaying := isPlaying a; volume := volume a; currentTime :=
     currentTime a; duration := duration a; isMuted := isMuted a;
     showPlaylist := showPlaylist a; volumeIndicator := volumeIndicator a;
     isFullscreen := isFullscreen a; isVideoOnly := isVideoOnly a;
     showControls := showControls a; mediaRef := v; volumeTimeoutRef :=
     volumeTimeoutRef a; controlsTimeoutRef := controlsTimeoutRef a;
     audioContextRef := audioContextRef a; analyserRef := analyserRef a;
     sourceRef := sourceRef a; fullscreenElement := fullscreenElement a;
     timers := timers a; next_timer := next_timer a; pending := pending a;
     calls := calls a |}.

Definition set_volumeTimeoutRef (v : option nat) (a : App) : App :=
  {| tracks := tracks a; currentTrackIndex := currentTrackIndex a;
     currentTrackIndexIsNegativeZero := currentTrackIndexIsNegativeZero a;
     isPlaying := isPlaying a; volume := volume a; currentTime :=
     currentTime a; duration := duration a; isMuted := isMuted a;
     showPlaylist := showPlaylist a; volumeIndicator := volumeIndicator a;
     isFullscreen := isFullscreen a; isVideoOnly := isVideoOnly a;
     showControls := showControls a; mediaRef := mediaRef a;
     volumeTimeoutRef := v; controlsTimeoutRef := controlsTimeoutRef a;
     audioContextRef := audioContextRef a; analyserRef := analyserRef a;
     sourceRef := sourceRef a; fullscreenElement := fullscreenElement a;
     timers := timers a; next_timer := next_timer a; pending := pending a;
     calls := calls a |}.

Definition set_controlsTimeoutRef (v : option nat) (a : App) : App :=
  {| tracks := tracks a; currentTrackIndex := currentTrackIndex a;
     currentTrackIndexIsNegativeZero := currentTrackIndexIsNegativeZero a;
     isPlaying := isPlaying a; volume := volume a; currentTime :=
     currentTime a; duration := duration a; isMuted := isMuted a;
     showPlaylist := showPlaylist a; volumeIndicator := volumeIndicator a;
     isFullscreen := isFullscreen a; isVideoOnly := isVideoOnly a;
     showControls := showControls a; mediaRef := mediaRef a;
     volumeTimeoutRef := volumeTimeoutRef a; controlsTimeoutRef := v;
     audioContextRef := audioContextRef a; analyserRef := analyserRef a;
     sourceRef := sourceRef a; fullscreenElement := fullscreenElement a;
     timers := timers a; next_timer := next_timer a; pending := pending a;
     calls := calls a |}.

Definition set_audioContextRef (v : option AudioContext.t) (a : App) : App :=
  {| tracks := tracks a; currentTrackIndex := currentTrackIndex a;
     currentTrackIndexIsNegativeZero := currentTrackIndexIsNegativeZero a;
     isPlaying := isPlaying a; volume := volume a; currentTime :=
     currentTime a; duration := duration a; isMuted := isMuted a;
     showPlaylist := showPlaylist a; volumeIndicator := volumeIndicator a;
     isFullscreen := isFullscreen a; isVideoOnly := isVideoOnly a;
     showControls := showControls a; mediaRef := mediaRef a;
     volumeTimeoutRef := volumeTimeoutRef a; controlsTimeoutRef :=
     controlsTimeoutRef a; audioContextRef := v; analyserRef := analyserRef
     a; sourceRef := sourceRef a; fullscreenElement := fullscreenElement a;
     timers := timers a; next_timer := next_timer a; pending := pending a;
     calls := calls a |}.

Definition set_analyserRef (v : option AnalyserNode.t) (a : App) : App :=
  {| tracks := tracks a; currentTrackIndex := currentTrackIndex a;
     currentTrackIndexIsNegativeZero := currentTrackIndexIsNegativeZero a;
     isPlaying := isPlaying a; volume := volume a; currentTime :=
     currentTime a; duration := duration a; isMuted := isMuted a;
     showPlaylist := showPlaylist a; volumeIndicator := volumeIndicator a;
     isFullscreen := isFullscreen a; isVideoOnly := isVideoOnly a;
     showControls := showControls a; mediaRef := mediaRef a;
     volumeTimeoutRef := volumeTimeoutRef a; controlsTimeoutRef :=
     controlsTimeoutRef a; audioContextRef := audioContextRef a; analyserRef
     := v; sourceRef := sourceRef a; fullscreenElement := fullscreenElement
     a; timers := timers a; next_timer := next_timer a; pending := pending
     a; calls := calls a |}.

Definition set_sourceRef (v : option MediaElementAudioSourceNode) (a : App) : App :=
  {| tracks := tracks a; currentTrackIndex := currentTrackIndex a;
     currentTrackIndexIsNegativeZero := currentTrackIndexIsNegativeZero a;
     isPlaying := isPlaying a; volume := volume a; currentTime :=
     currentTime a; duration := duration a; isMuted := isMuted a;
     showPlaylist := showPlaylist a; volumeIndicator := volumeIndicator a;
     isFullscreen := isFullscreen a; isVideoOnly := isVideoOnly a;
     showControls := showControls a; mediaRef := mediaRef a;
     volumeTimeoutRef := volumeTimeoutRef a; controlsTimeoutRef :=
     controlsTimeoutRef a; audioContextRef := audioContextRef a; analyserRef
     := analyserRef a; sourceRef := v; fullscreenElement :=
     fullscreenElement a; timers := timers a; next_timer := next_timer a;
     pending := pending a; calls := calls a |}.

Definition set_fullscreenElement (v : bool) (a : App) : App :=
  {| tracks := tracks a; currentTrackIndex := currentTrackIndex a;
     currentTrackIndexIsNegativeZero := currentTrackIndexIsNegativeZero a;
     isPlaying := isPlaying a; volume := volume a; currentTime :=
     currentTime a; duration := duration a; isMuted := isMuted a;
     showPlaylist := showPlaylist a; volumeIndicator := volumeIndicator a;
     isFullscreen := isFullscreen a; isVideoOnly := isVideoOnly a;
     showControls := showControls a; mediaRef := mediaRef a;
     volumeTimeoutRef := volumeTimeoutRef a; controlsTimeoutRef :=
     controlsTimeoutRef a; audioContextRef := audioContextRef a; analyserRef
     := analyserRef a; sourceRef := sourceRef a; fullscreenElement := v;
     timers := timers a; next_timer := next_timer a; pending := pending a;
     calls := calls a |}.

Definition set_timers (v : list (nat * TimerTask)) (a : App) : App :=
  {| tracks := tracks a; currentTrackIndex := currentTrackIndex a;
     currentTrackIndexIsNegativeZero := currentTrackIndexIsNegativeZero a;
     isPlaying := isPlaying a; volume := volume a; currentTime :=
     currentTime a; duration := duration a; isMuted := isMuted a;
     showPlaylist := showPlaylist a; volumeIndicator := volumeIndicator a;
     isFullscreen := isFullscreen a; isVideoOnly := isVideoOnly a;
     showControls := showControls a; mediaRef := mediaRef a;
     volumeTimeoutRef := volumeTimeoutRef a; controlsTimeoutRef :=
     controlsTimeoutRef a; audioContextRef := audioContextRef a; analyserRef
     := analyserRef a; sourceRef := sourceRef a; fullscreenElement :=
     fullscreenElement a; timers := v; next_timer := next_timer a; pending
     := pending a; calls := calls a |}.

Definition set_next_timer (v : nat) (a : App) : App :=
  {| tracks := tracks a; currentTrackIndex := currentTrackIndex a;
     currentTrackIndexIsNegativeZero := currentTrackIndexIsNegativeZero a;
     isPlaying := isPlaying a; volume := volume a; currentTime :=
     currentTime a; duration := duration a; isMuted := isMuted a;
     showPlaylist := showPlaylist a; volumeIndicator := volumeIndicator a;
     isFullscreen := isFullscreen a; isVideoOnly := isVideoOnly a;
     showControls := showControls a; mediaRef := mediaRef a;
     volumeTimeoutRef := volumeTimeoutRef a; controlsTimeoutRef :=
     controlsTimeoutRef a; audioContextRef := audioContextRef a; analyserRef
     := analyserRef a; sourceRef := sourceRef a; fullscreenElement :=
     fullscreenElement a; timers := timers a; next_timer := v; pending :=
     pending a; calls := calls a |}.

Definition set_pending (v : list Promise) (a : App) : App :=
  {| tracks := tracks a; currentTrackIndex := currentTrackIndex a;
     currentTrackIndexIsNegativeZero := currentTrackIndexIsNegativeZero a;
     isPlaying := isPlaying a; volume := volume a; currentTime :=
     currentTime a; duration := duration a; isMuted := isMuted a;
     showPlaylist := showPlaylist a; volumeIndicator := volumeIndicator a;
     isFullscreen := isFullscreen a; isVideoOnly := isVideoOnly a;
     showControls := showControls a; mediaRef := mediaRef a;
     volumeTimeoutRef := volumeTimeoutRef a; controlsTimeoutRef :=
     controlsTimeoutRef a; audioContextRef := audioContextRef a; analyserRef
     := analyserRef a; sourceRef := sourceRef a; fullscreenElement :=
     fullscreenElement a; timers := timers a; next_timer := next_timer a;
     pending := v; calls := calls a |}.

Definition set_calls (v : list Call) (a : App) : App :=
  {| tracks := tracks a; currentTrackIndex := currentTrackIndex a;
     currentTrackIndexIsNegativeZero := currentTrackIndexIsNegativeZero a;
     isPlaying := isPlaying a; volume := volume a; currentTime :=
     currentTime a; duration := duration a; isMuted := isMuted a;
     showPlaylist := showPlaylist a; volumeIndicator := volumeIndicator a;
     isFullscreen := isFullscreen a; isVideoOnly := isVideoOnly a;
     showControls := showControls a; mediaRef := mediaRef a;
     volumeTimeoutRef := volumeTimeoutRef a; controlsTimeoutRef :=
     controlsTimeoutRef a; audioContextRef := audioContextRef a; analyserRef
     := analyserRef a; sourceRef := sourceRef a; fullscreenElement :=
     fullscreenElement a; timers := timers a; next_timer := next_timer a;
     pending := pending a; calls := v |}.

(** ** Helpers that stand for JavaScript built-ins *)

Definition call (c : Call) (a : App) : App := set_calls (calls a ++ [c]) a.

Definition hold (cmd : Command) (r : Reaction) (a : App) : App :=
  set_pending (pending a ++ [mkPromise cmd r]) a.

(** [arr.findIndex(p)]: the first index whose element satisfies [p], else
    [-1]. *)
Fixpoint findIndex_from {A : Type} (p : A -> bool) (l : list A) (i : Z) : Z :=
  match l with
  | [] => -1
  | x :: r => if p x then i else findIndex_from p r (i + 1)
  end.

Definition findIndex {A : Type} (p : A -> bool) (l : list A) : Z :=
  findIndex_from p l 0.

(** [arr[i]], [None] standing for [undefined]. *)
Definition at_index {A : Type} (l : list A) (i : Z) : option A :=
  if i <? 0 then None else nth_error l (Z.to_nat i).

Definition len {A : Type} (l : list A) : Z := Z.of_nat (List.length l).

(** [name.replace(/\.[^/.]+$/, "")]: a last dot followed, up to the end of
    the string, by one or more characters that are neither a dot nor a
    slash is removed together with what follows it. *)
Fixpoint split_last_dot (s : string) : option (string * string) :=
  match s with
  | EmptyString => None
  | String c r =>
      match split_last_dot r with
      | Some (p, q) => Some (String c p, q)
      | None => if Ascii.eqb c "."%char then Some (EmptyString, r) else None
      end
  end.

Fixpoint has_slash (s : string) : bool :=
  match s with
  | EmptyString => false
  | String c r => Ascii.eqb c "/"%char || has_slash r
  end.

Definition strip_extension (s : string) : string :=
  match split_last_dot s with
  | Some (p, ext) =>
      if (String.length ext =? 0)%nat || has_slash ext then s else p
  | None => s
  end.

(** [setTimeout(task, ms)] returns [next_timer a]; [clearTimeout(id)]. *)
Definition set_timeout (task : TimerTask) (ms : Z) (a : App) : App :=
  let id := next_timer a in
  let a := call (setTimeout id ms) a in
  let a := set_timers (timers a ++ [(id, task)]) a in
  set_next_timer (S id) a.

Definition clear_timeout (id : nat) (a : App) : App :=
  let a := call (clearTimeout id) a in
  set_timers (filter (fun p => negb (Nat.eqb (fst p) id)) (timers a)) a.

(** [mediaRef.current.play().catch(console.error)] on an attached element *)
Definition play_caught (a : App) : App :=
  hold cmd_play catch_console_error (call media_play a).

(** ** The component *)

(** Line 69. *)
Definition currentTrack (a : App) : option Track.t :=
  if 0 <=? currentTrackIndex a
  then at_index (tracks a) (currentTrackIndex a)
  else None.

(** Lines 52-67: the effect that builds the audio graph.  [st] is the state
    the browser gives the new [AudioContext] (suspended under an autoplay
    policy). *)
Definition audio_graph_effect (st : AudioContextState) (a : App) : App :=
  match mediaRef a, audioContextRef a with
  | Some _, None =>
      let a := call new_AudioContext a in
      let audioContext := AudioContext.mk st in
      let a := call createAnalyser a in
      let analyser := AnalyserNode.default in
      let analyser := AnalyserNode.set_fftSize 256 analyser in
      let a := call createMediaElementSource a in
      let source := media_element_source in
      let a := call connect_source_to_analyser a in
      let a := call connect_analyser_to_destination a in
      let a := set_audioContextRef (Some audioContext) a in
      let a := set_analyserRef (Some analyser) a in
      set_sourceRef (Some source) a
  | _, _ => a
  end.

(** Lines 78-86: [togglePlay] from the test of [isPlaying] on, with the
    values its closure holds. *)
Definition togglePlay_rest (isPlaying0 : bool) (currentTrackIndex0 : Z)
    (tracks_length0 : Z) (a : App) : App :=
  let a :=
    if isPlaying0 then call media_pause a
    else
      let a :=
        if (currentTrackIndex0 =? -1) && (0 <? tracks_length0)
        then setCurrentTrackIndex 0 a else a in
      play_caught a in
  setIsPlaying (negb isPlaying0) a.

(** Lines 71-87.  When the audio context is suspended the function calls
    [resume()] and stops at the [await]; the rest runs when the browser
    settles that promise (see [settle]). *)
Definition togglePlay (a : App) : App :=
  match mediaRef a with
  | None => a
  | Some _ =>
      if len (tracks a) =? 0 then a
      else
        match audioContextRef a with
        | Some (AudioContext.mk suspended) =>
            let a := call audioContext_resume a in
            hold cmd_resume
              (await_in_togglePlay (isPlaying a) (currentTrackIndex a)
                 (len (tracks a))) a
        | _ =>
            togglePlay_rest (isPlaying a) (currentTrackIndex a)
              (len (tracks a)) a
        end
  end.

(** Lines 93-100 and 270-277: the tracks made from the accepted files. *)
Definition accepted (file : File.t) : bool :=
  JS.startsWith "audio/" (File.type file)
  || JS.startsWith "video/" (File.type file).

Definition to_track (file : File.t) : Track.t :=
  {| Track.id := File.random_id file;
     Track.name := strip_extension (File.name file);
     Track.url := File.object_url file;
     Track.type := if JS.startsWith "video/" (File.type file)
                   then video else audio;
     Track.duration := None |}.

Definition newTracks (files : list File.t) : list Track.t :=
  map to_track (filter accepted files).

Definition create_object_urls (files : list File.t) (a : App) : App :=
  fold_left (fun a file => call (createObjectURL (File.object_url file)) a)
    (filter accepted files) a.

(** Lines 89-106.  [files] is [e.target.files], [None] when it is null. *)
Definition handleFileChange (files : option (list File.t)) (a : App) : App :=
  match files with
  | None => a
  | Some files =>
      let a' := create_object_urls files a in
      let a' := setTracks (tracks a' ++ newTracks files) a' in
      if currentTrackIndex a =? -1 then setCurrentTrackIndex 0 a' else a'
  end.

(** Lines 265-285. *)
Definition handleDrop (files : option (list File.t)) (a : App) : App :=
  let a := call preventDefault a in
  match files with
  | None => a
  | Some files =>
      let a' := create_object_urls files a in
      if 0 <? len (newTracks files) then
        let a' := setTracks (tracks a' ++ newTracks files) a' in
        if currentTrackIndex a =? -1 then setCurrentTrackIndex 0 a' else a'
      else a'
  end.

(** Lines 108-116. *)
Definition nextTrack (a : App) : App :=
  if len (tracks a) =? 0 then a
  else setCurrentTrackIndex_number
         (JS.rem (currentTrackIndex a + 1) (len (tracks a))) a.

Definition prevTrack (a : App) : App :=
  if len (tracks a) =? 0 then a
  else setCurrentTrackIndex_number
         (JS.rem (currentTrackIndex a - 1 + len (tracks a)) (len (tracks a))) a.

(** [t => t.id === id] *)
Definition has_id (id : string) (t : Track.t) : bool :=
  String.eqb (Track.id t) id.

(** Lines 118-128. *)
Definition removeTrack (id : string) (a : App) : App :=
  let a := call stopPropagation a in
  let index := findIndex (has_id id) (tracks a) in
  let a' :=
    if index =? currentTrackIndex a then
      let a' := setIsPlaying false a in
      setCurrentTrackIndex (-1) a'
    else if index <? currentTrackIndex a then
      setCurrentTrackIndex (currentTrackIndex a - 1) a
    else a in
  setTracks (filter (fun t => negb (has_id id t)) (tracks a')) a'.

(** Lines 136-142. *)
Definition showVolumeOverlay (val : JS.number) (a : App) : App :=
  let a := setVolumeIndicator (mkVolumeIndicator val true) a in
  let a :=
    match volumeTimeoutRef a with
    | Some id => clear_timeout id a
    | None => a
    end in
  let id := next_timer a in
  let a := set_timeout hide_volume_indicator 1000 a in
  set_volumeTimeoutRef (Some id) a.

(** Lines 144-151. *)
Definition adjustVolume (delta : JS.number) (a : App) : App :=
  let newVal := JS.Math_min 1%float (JS.Math_max 0%float (volume a + delta)%float) in
  let a := showVolumeOverlay newVal a in
  let a := setVolume newVal a in
  setIsMuted false a.

(** Lines 153-157. *)
Definition seek (delta : JS.number) (a : App) : App :=
  match mediaRef a with
  | Some el =>
      let t :=
        JS.Math_min (duration a)
          (JS.Math_max 0%float (HTMLMediaElement.currentTime el + delta)%float) in
      let a := call (media_set_currentTime t) a in
      set_mediaRef
        (Some (HTMLMediaElement.mk t (HTMLMediaElement.duration el)
                 (HTMLMediaElement.volume el))) a
  | None => a
  end.

(** Lines 159-169. *)
Definition toggleFullscreen (a : App) : App :=
  if negb (fullscreenElement a) then
    let a := hold cmd_requestFullscreen catch_console_error
               (call requestFullscreen a) in
    let a := setIsFullscreen true a in
    let a := setIsVideoOnly false a in
    setShowControls false a
  else
    let a := hold cmd_exitFullscreen catch_console_error
               (call exitFullscreen a) in
    setIsFullscreen false a.

(** Lines 171-187. *)
Definition toggleVideoOnly (a : App) : App :=
  if negb (fullscreenElement a) then
    let a := hold cmd_requestFullscreen catch_console_error
               (call requestFullscreen a) in
    let a := setIsVideoOnly true a in
    let a := setIsFullscreen true a in
    setShowControls false a
  else if isVideoOnly a then
    let a := setIsVideoOnly false a in
    let a := setIsFullscreen false a in
    hold cmd_exitFullscreen catch_console_error (call exitFullscreen a)
  else
    let a := setIsVideoOnly true a in
    setShowControls false a.

(** Lines 190-219. *)
Definition handleKeyDown (key : string) (a : App) : App :=
  let a :=
    if JS.includes key [" "; "ArrowUp"; "ArrowDown"; "ArrowLeft"; "ArrowRight"]
    then call preventDefault a else a in
  if String.eqb key " " then togglePlay a
  else if String.eqb key "f" || String.eqb key "F" then toggleVideoOnly a
  else if String.eqb key "ArrowUp" then adjustVolume 0.05%float a
  else if String.eqb key "ArrowDown" then adjustVolume (-0.05)%float a
  else if String.eqb key "ArrowLeft" then seek (-5)%float a
  else if String.eqb key "ArrowRight" then seek 5%float a
  else if String.eqb key "Enter" then toggleFullscreen a
  else a.

(** Lines 225-227. *)
Definition handleWheel (deltaY : JS.number) (a : App) : App :=
  adjustVolume (if (0 <? deltaY)%float then (-0.05)%float else 0.05%float) a.

(** Lines 229-239. *)
Definition handleMouseMove (a : App) : App :=
  if negb (isVideoOnly a) && negb (isFullscreen a) then setShowControls true a
  else
    let a := setShowControls true a in
    let a :=
      match controlsTimeoutRef a with
      | Some id => clear_timeout id a
      | None => a
      end in
    let id := next_timer a in
    let a := set_timeout hide_controls 2000 a in
    set_controlsTimeoutRef (Some id) a.

(** Lines 242-248. *)
Definition handleFullscreenChange (a : App) : App :=
  let isCurrentlyFullscreen := fullscreenElement a in
  let a := setIsFullscreen isCurrentlyFullscreen a in
  if negb isCurrentlyFullscreen then setIsVideoOnly false a else a.

(** Lines 253-257: the effect on [volume, isMuted]. *)
Definition volume_effect (a : App) : App :=
  match mediaRef a with
  | Some el =>
      let v := if isMuted a then 0%float else volume a in
      let a := call (media_set_volume v) a in
      set_mediaRef
        (Some (HTMLMediaElement.mk (HTMLMediaElement.currentTime el)
                 (HTMLMediaElement.duration el) v)) a
  | None => a
  end.

(** Lines 259-263: the effect on [currentTrackIndex]. *)
Definition play_effect (a : App) : App :=
  match currentTrack a with
  | Some _ =>
      if isPlaying a then
        match mediaRef a with
        | Some _ => play_caught a
        | None => a
        end
      else a
  | None => a
  end.

(** ** Events *)

(** Handlers written inline in the markup. *)

(** [onTimeUpdate] (lines 370, 429): the element reports its position. *)
Definition onTimeUpdate (a : App) : App :=
  match mediaRef a with
  | Some el => setCurrentTime (JS.or_zero (HTMLMediaElement.currentTime el)) a
  | None => setCurrentTime 0%float a
  end.

(** [onLoadedMetadata] (lines 371, 430). *)
Definition onLoadedMetadata (a : App) : App :=
  match mediaRef a with
  | Some el => setDuration (JS.or_zero (HTMLMediaElement.duration el)) a
  | None => setDuration 0%float a
  end.


(** [onChange] of the progress slider (lines 453-465); [time] is
    [parseFloat(e.target.value)]. *)
Definition onProgressChange (time : JS.number) (a : App) : App :=
  let a := setCurrentTime time a in
  match mediaRef a with
  | Some el =>
      let a := call (media_set_currentTime time) a in
      set_mediaRef
        (Some (HTMLMediaElement.mk time (HTMLMediaElement.duration el)
                 (HTMLMediaElement.volume el))) a
  | None => a
  end.

(** [onClick] of a playlist row (lines 542-545). *)
Definition onTrackClick (index : Z) (a : App) : App :=
  let a := setCurrentTrackIndex index a in
  setIsPlaying true a.

(** The browser settles the [k]-th promise the component holds: fulfilled
    when [ok], rejected otherwise.  A rejection behind [await] leaves
    [togglePlay], whose own promise no caller handles. *)
Definition settle (k : nat) (ok : bool) (a : App) : App :=
  match nth_error (pending a) k with
  | None => a
  | Some p =>
      let a := set_pending (firstn k (pending a) ++ skipn (S k) (pending a)) a in
      match reaction p, ok with
      | catch_console_error, true => a
      | catch_console_error, false => call (console_error (command p)) a
      | await_in_togglePlay isPlaying0 index0 length0, true =>
          let a :=
            match audioContextRef a with
            | Some _ => set_audioContextRef (Some (AudioContext.mk running)) a
            | None => a
            end in
          togglePlay_rest isPlaying0 index0 length0 a
      | await_in_togglePlay _ _ _, false =>
          call (unhandled_rejection (command p)) a
      end
  end.

(** A timeout fires. *)
Definition fire (id : nat) (a : App) : App :=
  match find (fun p => Nat.eqb (fst p) id) (timers a) with
  | None => a
  | Some (_, task) =>
      let a :=
        set_timers (filter (fun p => negb (Nat.eqb (fst p) id)) (timers a)) a in
      match task with
      | hide_volume_indicator =>
          setVolumeIndicator
            (mkVolumeIndicator (value (volumeIndicator a)) false) a
      | hide_controls => setShowControls false a
      end
  end.

Inductive Event : Type :=
(* input *)
| keydown (key : string)
| wheel (deltaY : JS.number)
| mousemove
| drop (files : option (list File.t))
| file_input_change (files : option (list File.t))
| click_play
| click_next
| click_prev
| click_track (index : Z)
| click_remove (id : string)
| click_mute
| click_cinema
| click_fullscreen
| click_exit_overlay
| click_playlist
| change_progress (time : JS.number)
| change_volume (v : JS.number)
(* media element *)
| timeupdate (t : JS.number)
| loadedmetadata (d : JS.number)
| ended
(* browser *)
| fullscreenchange (active : bool)
| settled (k : nat) (ok : bool)
| timeout (id : nat)
| audio_graph_effect_again (st : AudioContextState).

Definition with_media (f : HTMLMediaElement.t -> HTMLMediaElement.t)
    (a : App) : App :=
  match mediaRef a with
  | Some el => set_mediaRef (Some (f el)) a
  | None => a
  end.

Definition handle (e : Event) (a : App) : App :=
  match e with
  | keydown key => handleKeyDown key a
  | wheel deltaY => handleWheel deltaY a
  | mousemove => handleMouseMove a
  | drop files => handleDrop files a
  | file_input_change files => handleFileChange files a
  | click_play => togglePlay a
  | click_next => nextTrack a
  | click_prev => prevTrack a
  | click_track index => onTrackClick index a
  | click_remove id => removeTrack id a
  | click_mute => setIsMuted (negb (isMuted a)) a
  | click_cinema => toggleVideoOnly a
  | click_fullscreen => toggleFullscreen a
  | click_exit_overlay =>
      if isVideoOnly a then toggleVideoOnly a else toggleFullscreen a
  | click_playlist => setShowPlaylist (negb (showPlaylist a)) a
  | change_progress time => onProgressChange time a
  | change_volume v => setVolume v a
  | timeupdate t =>
      onTimeUpdate
        (with_media (fun el =>
           HTMLMediaElement.mk t (HTMLMediaElement.duration el)
             (HTMLMediaElement.volume el)) a)
  | loadedmetadata d =>
      onLoadedMetadata
        (with_media (fun el =>
           HTMLMediaElement.mk (HTMLMediaElement.currentTime el) d
             (HTMLMediaElement.volume el)) a)
  | ended => nextTrack a
  | fullscreenchange active =>
      handleFullscreenChange (set_fullscreenElement active a)
  | settled k ok => settle k ok a
  | timeout id => fire id a
  | audio_graph_effect_again st => audio_graph_effect st a
  end.

(** After the render that follows a handler, React runs the effects whose
    dependencies changed ([Object.is]), in declaration order. *)
Definition run_effects (before after : App) : App :=
  let a := after in
  let a :=
    if JS.Object_is (volume before) (volume after)
       && Bool.eqb (isMuted before) (isMuted after)
    then a else volume_effect a in
  if JS.Object_is_integer
       (currentTrackIndex before, currentTrackIndexIsNegativeZero before)
       (currentTrackIndex after, currentTrackIndexIsNegativeZero after)
  then a
  else play_effect a.

Definition dispatch (e : Event) (a : App) : App := run_effects a (handle e a).

Definition run (es : list Event) (a : App) : App :=
  fold_left (fun a e => dispatch e a) es a.

(** The first render and its effects.  The element under [mediaRef] is the
    hidden [<video>] of the audio branch, not yet loaded. *)
Definition first_render : App :=
  {| tracks := []; currentTrackIndex := -1;
     currentTrackIndexIsNegativeZero := false; isPlaying := false;
     volume := 0.7%float; currentTime := 0%float; duration := 0%float;
     isMuted := false; showPlaylist := true;
     volumeIndicator := mkVolumeIndicator 0.7%float false;
     isFullscreen := false; isVideoOnly := false; showControls := true;
     mediaRef := Some (HTMLMediaElement.mk 0%float nan 1%float);
     volumeTimeoutRef := None; controlsTimeoutRef := None;
     audioContextRef := None; analyserRef := None; sourceRef := None;
     fullscreenElement := false; timers := []; next_timer := 1%nat;
     pending := []; calls := [] |}.

Definition mount (st : AudioContextState) : App :=
  play_effect (volume_effect (audio_graph_effect st first_render)).

(** [Visualizer], lines 605-606: the length of the frequency snapshot. *)
Definition bufferLength (analyser : AnalyserNode.t) : Z :=
  AnalyserNode.frequencyBinCount analyser.

(** ** Observations used in the statements *)

Definition count (p : Call -> bool) (l : list Call) : nat :=
  List.length (filter p l).

Definition is_preventDefault (c : Call) : bool :=
  match c with preventDefault => true | _ => false end.

Definition is_requestFullscreen (c : Call) : bool :=
  match c with requestFullscreen => true | _ => false end.

Definition is_exitFullscreen (c : Call) : bool :=
  match c with exitFullscreen => true | _ => false end.

Definition is_revoke (url : string) (c : Call) : bool :=
  match c with revokeObjectURL u => String.eqb u url | _ => false end.

Definition is_any_revoke (c : Call) : bool :=
  match c with revokeObjectURL _ => true | _ => false end.

Definition is_play_or_pause (c : Call) : bool :=
  match c with media_play | media_pause => true | _ => false end.

Definition is_new_graph (c : Call) : bool :=
  match c with
  | new_AudioContext | createAnalyser | createMediaElementSource => true
  | _ => false
  end.

Definition is_unhandled (c : Call) : bool :=
  match c with unhandled_rejection _ => true | _ => false end.

(** [-1 <= activeIndex < playlist.length] *)
Definition index_in_range (a : App) : Prop :=
  -1 <= currentTrackIndex a < len (tracks a).

(** What exists of the audio graph: whether a context is held, the
    analyser, the source node, and the constructor calls made so far. *)
Definition graph_view (a : App)
  : bool * option AnalyserNode.t * option MediaElementAudioSourceNode
    * list Call :=
  (match audioContextRef a with Some _ => true | None => false end,
   analyserRef a, sourceRef a, filter is_new_graph (calls a)).

(** [togglePlay] carried to the point where [play()] has been called: when
    the audio context is suspended, the browser fulfils [resume()] and the
    function goes on behind its [await]. *)
Definition togglePlay_through_resume (a : App) : App :=
  match audioContextRef a with
  | Some (AudioContext.mk suspended) =>
      settle (List.length (pending a)) true (togglePlay a)
  | _ => togglePlay a
  end.

(** Playlist mutations that go through the guarded paths: a drop or a
    removal. *)
Definition drop_or_remove (e : Event) : bool :=
  match e with
  | drop _ | click_remove _ => true
  | _ => false
  end.

(** The ids stay pairwise distinct after every event of the run (each
    [Math.random] id is new). *)
Fixpoint distinct_ids_along (es : list Event) (a : App) : Prop :=
  match es with
  | [] => True
  | e :: r =>
      NoDup (map Track.id (tracks (dispatch e a)))
      /\ distinct_ids_along r (dispatch e a)
  end.

(** The view mode the two flags encode. *)
Inductive ViewMode : Type := Normal | Cinema | Fullscreen.

Definition viewMode (a : App) : ViewMode :=
  if isVideoOnly a then Cinema
  else if isFullscreen a then Fullscreen else Normal.

(** ** Further observations *)

Definition is_createObjectURL (c : Call) : bool :=
  match c with createObjectURL _ => true | _ => false end.

Definition is_media_play (c : Call) : bool :=
  match c with media_play => true | _ => false end.

Fixpoint has_dot (s : string) : bool :=
  match s with
  | EmptyString => false
  | String c r => Ascii.eqb c "."%char || has_dot r
  end.

(** The timeouts of one concern that have neither fired nor been
    cleared. *)
Definition same_task (t1 t2 : TimerTask) : bool :=
  match t1, t2 with
  | hide_volume_indicator, hide_volume_indicator => true
  | hide_controls, hide_controls => true
  | _, _ => false
  end.

Definition pending_timers (task : TimerTask) (a : App) : list nat :=
  map fst (filter (fun p => same_task (snd p) task) (timers a)).

(** The ref under which the component keeps the id of a concern's
    timeout. *)
Definition timeout_ref (task : TimerTask) (a : App) : option nat :=
  match task with
  | hide_volume_indicator => volumeTimeoutRef a
  | hide_controls => controlsTimeoutRef a
  end.

(** Pending timeouts are the ones the refs point at: ids are distinct and
    below the next id, and a pending timeout of a concern is the one held
    under that concern's ref. *)
Definition timers_tracked (a : App) : Prop :=
  NoDup (map fst (timers a)) /\
  forall id task,
    In (id, task) (timers a) ->
    (id < next_timer a)%nat /\ timeout_ref task a = Some id.

(** A promise whose rejection the code handles, or the one of [resume()]
    behind the [await] of [togglePlay]. *)
Definition caught (p : Promise) : bool :=
  match reaction p with
  | catch_console_error => true
  | await_in_togglePlay _ _ _ => false
  end.

Definition caught_or_resume (p : Promise) : bool :=
  match reaction p, command p with
  | catch_console_error, _ => true
  | await_in_togglePlay _ _ _, cmd_resume => true
  | await_in_togglePlay _ _ _, _ => false
  end.

Definition not_unhandled_but_resume (c : Call) : bool :=
  match c with
  | unhandled_rejection cmd_resume => true
  | unhandled_rejection _ => false
  | _ => true
  end.

Definition context_running (a : App) : bool :=
  match audioContextRef a with
  | Some (AudioContext.mk running) => true
  | _ => false
  end.

(** What the timer bookkeeping consists of. *)
Definition timer_view (a : App)
  : list (nat * TimerTask) * nat * option nat * option nat :=
  (timers a, next_timer a, volumeTimeoutRef a, controlsTimeoutRef a).

(** Every pending promise is caught or is a [resume()] awaited by
    [togglePlay], and the only rejections logged as unhandled are those of
    [resume()]. *)
Definition rejections_handled (a : App) : Prop :=
  forallb caught_or_resume (pending a) = true /\
  forallb not_unhandled_but_resume (calls a) = true.

(** The same with a running audio context: nothing is awaited. *)
Definition all_caught (a : App) : Prop :=
  context_running a = true /\
  forallb caught (pending a) = true /\
  forallb (fun c => negb (is_unhandled c)) (calls a) = true.

(** An event as the rendered page can send it: a remove button belongs to
    a track that is in the playlist and a row click names a row. *)
Definition from_the_page (a : App) (e : Event) : bool :=
  match e with
  | click_remove id => 0 <=? findIndex (has_id id) (tracks a)
  | click_track index => (0 <=? index) && (index <? len (tracks a))
  | _ => true
  end.

Fixpoint all_from_the_page (es : list Event) (a : App) : bool :=
  match es with
  | [] => true
  | e :: r => from_the_page a e && all_from_the_page r (dispatch e a)
  end.

(** Playing only with a track selected. *)
Definition playing_has_track (a : App) : Prop :=
  -1 <= currentTrackIndex a /\
  (isPlaying a = true -> 0 <= currentTrackIndex a).

(** ** The visualizer (lines 594-655)

    [Visualizer] is a component of its own: two props, a ref to the id of
    the animation frame requested last, and one effect on
    [analyser, isPlaying].  The canvas is the element of the JSX, 600 by
    128, always attached, and its 2d context is taken as available.
    [frames] holds the callbacks the browser has been asked to run and has
    neither run nor cancelled, each with the bin count its closure of [draw]
    holds; [cleanup] tells whether the last run of the effect returned a
    cleanup function (it returns early, without one, when there is no
    analyser). *)

Inductive CanvasOp : Type :=
| clearRect (x y w h : JS.number)
| gradient_fillStyle (x0 y0 x1 y1 : JS.number)
    (* createLinearGradient, the two colour stops, ctx.fillStyle = gradient *)
| fillRect (x y w h : JS.number).

(** An element of the [Uint8Array], and a bin count, as a number. *)
Definition number_of_Z (z : Z) : JS.number := of_uint63 (Uint63.of_Z z).

Definition number_of_byte (b : Byte.byte) : JS.number :=
  number_of_Z (Z.of_N (Byte.to_N b)).

Definition canvas_width : JS.number := 600%float.
Definition canvas_height : JS.number := 128%float.

(** The [for] loop of [draw]: [n] bars left to paint, the next one for bin
    [i] at abscissa [x].  [data] is what [getByteFrequencyData] wrote. *)
Fixpoint bars (n i : nat) (x barWidth height : JS.number)
    (data : nat -> Byte.byte) : list CanvasOp :=
  match n with
  | O => []
  | S n' =>
      let barHeight := (number_of_byte (data i) / 255 * height)%float in
      gradient_fillStyle 0%float height 0%float 0%float
      :: fillRect x (height - barHeight)%float barWidth barHeight
      :: bars n' (S i) (x + (barWidth + 1))%float barWidth height data
  end.

Module Visualizer.

Record t : Type := mk {
  analyser : option AnalyserNode.t;   (* prop *)
  isPlaying : bool;                   (* prop *)
  animationRef : nat;
  cleanup : bool;
  frames : list (nat * Z);
  next_frame : nat;
  canvas : list CanvasOp
}.

Definition paint (ops : list CanvasOp) (v : t) : t :=
  mk (analyser v) (isPlaying v) (animationRef v) (cleanup v) (frames v)
    (next_frame v) (canvas v ++ ops).

Definition cancelAnimationFrame (id : nat) (v : t) : t :=
  mk (analyser v) (isPlaying v) (animationRef v) (cleanup v)
    (filter (fun f => negb (Nat.eqb (fst f) id)) (frames v))
    (next_frame v) (canvas v).

(** [draw], lines 608-633, in a closure whose analyser has [bufferLength]
    bins. *)
Definition draw (bufferLength : Z) (data : nat -> Byte.byte) (v : t) : t :=
  let id := next_frame v in
  let v :=
    mk (analyser v) (isPlaying v) id (cleanup v)
      (frames v ++ [(id, bufferLength)]) (S id) (canvas v) in
  let width := canvas_width in
  let height := canvas_height in
  let v := paint [clearRect 0%float 0%float width height] v in
  let barWidth := (width / number_of_Z bufferLength * 2.5)%float in
  paint (bars (Z.to_nat bufferLength) 0 0%float barWidth height data) v.

(** The body of the effect, lines 599-640. *)
Definition effect (data : nat -> Byte.byte) (v : t) : t :=
  match analyser v with
  | None =>
      mk (analyser v) (isPlaying v) (animationRef v) false (frames v)
        (next_frame v) (canvas v)
  | Some an =>
      let bufferLength := AnalyserNode.frequencyBinCount an in
      let v :=
        if isPlaying v then draw bufferLength data v
        else
          let v :=
            paint [clearRect 0%float 0%float canvas_width canvas_height] v in
          cancelAnimationFrame (animationRef v) v in
      mk (analyser v) (isPlaying v) (animationRef v) true (frames v)
        (next_frame v) (canvas v)
  end.

(** The cleanup the effect returned, lines 642-644. *)
Definition run_cleanup (v : t) : t :=
  if cleanup v then cancelAnimationFrame (animationRef v) v else v.

(** The dependency check on [analyser].  React compares the objects by
    identity; the player only ever creates one analyser, so the prop is
    either null or that node, and comparing the values decides the same. *)
Definition same_analyser (x y : option AnalyserNode.t) : bool :=
  match x, y with
  | None, None => true
  | Some m, Some n => AnalyserNode.fftSize m =? AnalyserNode.fftSize n
  | _, _ => false
  end.

(** A render with new props: when a dependency changed, the cleanup of the
    last run, then the effect. *)
Definition render (an : option AnalyserNode.t) (playing : bool)
    (data : nat -> Byte.byte) (v : t) : t :=
  if same_analyser (analyser v) an && Bool.eqb (isPlaying v) playing then v
  else
    let v := run_cleanup v in
    effect data
      (mk an playing (animationRef v) (cleanup v) (frames v) (next_frame v)
         (canvas v)).

(** The browser runs the animation frame callback [id]. *)
Definition frame (id : nat) (data : nat -> Byte.byte) (v : t) : t :=
  match find (fun f => Nat.eqb (fst f) id) (frames v) with
  | None => v
  | Some (_, bufferLength) =>
      draw bufferLength data
        (mk (analyser v) (isPlaying v) (animationRef v) (cleanup v)
           (filter (fun f => negb (Nat.eqb (fst f) id)) (frames v))
           (next_frame v) (canvas v))
  end.

Definition mount (an : option AnalyserNode.t) (playing : bool)
    (data : nat -> Byte.byte) : t :=
  effect data (mk an playing 0%nat false [] 1%nat []).

Inductive Event : Type :=
| props (an : option AnalyserNode.t) (playing : bool) (data : nat -> Byte.byte)
| animation_frame (id : nat) (data : nat -> Byte.byte).

Definition step (e : Event) (v : t) : t :=
  match e with
  | props an playing data => render an playing data v
  | animation_frame id data => frame id data v
  end.

Definition run (es : list Event) (v : t) : t :=
  fold_left (fun v e => step e v) es v.

(** The callbacks that should be pending: one, of the current analyser,
    exactly while playing with an analyser. *)
Definition expected_frames (v : t) : list (nat * Z) :=
  match analyser v with
  | Some an =>
      if isPlaying v
      then [(animationRef v, AnalyserNode.frequencyBinCount an)]
      else []
  | None => []
  end.

(** What the loop keeps: the pending callbacks are the expected ones, and
    a cleanup is registered exactly when there is an analyser. *)
Definition loop_ok (v : t) : Prop :=
  frames v = expected_frames v /\
  cleanup v = match analyser v with Some _ => true | None => false end.

End Visualizer.

Definition is_fillRect (op : CanvasOp) : bool :=
  match op with fillRect _ _ _ _ => true | _ => false end.

(** The abscissa of the [k]-th bar after one at [x]: [k] times
    [x += barWidth + 1]. *)
Fixpoint bar_x_from (x : JS.number) (k : nat) (barWidth : JS.number)
  : JS.number :=
  match k with
  | O => x
  | S k' => bar_x_from (x + (barWidth + 1))%float k' barWidth
  end.

Definition bar_x (k : nat) (barWidth : JS.number) : JS.number :=
  bar_x_from 0%float k barWidth.

(** [barHeight] for one byte of the snapshot. *)
Definition bar_height (b : Byte.byte) : JS.number :=
  (number_of_byte b / 255 * canvas_height)%float.

(** ** Example data *)

Definition song (id url : string) : File.t :=
  File.mk (id ++ ".mp3") "audio/mpeg" id url.

Definition clip (id url : string) : File.t :=
  File.mk (id ++ ".mp4") "video/mp4" id url.

(** The playlist [A; B], [A] active and playing. *)
Definition two_tracks_playing : App :=
  run [drop (Some [song "a" "blob:a"; clip "b" "blob:b"]); click_play]
    (mount running).

(** The playlist [A; B], [B] active and playing. *)
Definition second_track_active : App :=
  dispatch (click_track 1) two_tracks_playing.

(** The playlist [A], [A] active and playing. *)
Definition one_track_playing : App :=
  run [drop (Some [song "a" "blob:a"]); click_play] (mount running).

(** A file the ingestion filter rejects. *)
Definition notes_txt : File.t := File.mk "notes.txt" "text/plain" "n" "blob:n".

(** The playlist [A], [A] selected and paused; the audio context is still
    suspended. *)
Definition one_track_paused : App :=
  run [drop (Some [song "a" "blob:a"])] (mount suspended).

(** The same with a running audio context. *)
Definition one_track_ready : App :=
  run [drop (Some [song "a" "blob:a"])] (mount running).


(** Two tracks are dropped, the selected one is removed, "previous" is
    pressed and then "play": one track, selected with index [-0], playing. *)
Definition one_track_at_negative_zero : App :=
  run [drop (Some [song "a" "blob:a"; clip "b" "blob:b"]); click_remove "a";
       click_prev; click_play] (mount running).

(** * Proofs *)

Local Open Scope list_scope.

(** *** Order facts on binary64 used by the clamp *)

Section FloatOrder.

Local Open Scope float_scope.

Lemma SFcompare_refl (x : spec_float) :
x <> S754_nan -> SFcompare x x = Some Eq.
Proof.
destruct x as [s | s | | s m e]; intro H; simpl; try congruence.
- destruct s; reflexivity.
- rewrite Z.compare_refl.
  assert (Hm : Pos.compare_cont Eq m m = Eq) by apply Pos.compare_cont_refl.
  rewrite Hm. destruct s; reflexivity.
Qed.

Lemma leb_not_nan_r (x y : float) : (x <=? y) = true -> is_nan y = false.
Proof.
unfold is_nan. rewrite leb_spec, eqb_spec. unfold SFleb, SFeqb.
destruct (Prim2SF y) eqn:Ey.
- reflexivity.
- destruct s; reflexivity.
- destruct (Prim2SF x); simpl; discriminate.
- intros _. rewrite SFcompare_refl by discriminate. reflexivity.
Qed.

Lemma is_nan_Prim2SF (x : float) : is_nan x = false -> Prim2SF x <> S754_nan.
Proof.
unfold is_nan. rewrite eqb_spec. unfold SFeqb.
intros H E. rewrite E in H. simpl in H. discriminate.
Qed.

Lemma leb_refl (x : float) : is_nan x = false -> (x <=? x) = true.
Proof.
intro H. rewrite leb_spec. unfold SFleb.
rewrite SFcompare_refl by (apply is_nan_Prim2SF; exact H). reflexivity.
Qed.

Lemma ltb_leb (x y : float) : (x <? y) = true -> (x <=? y) = true.
Proof.
rewrite ltb_spec, leb_spec. unfold SFltb, SFleb.
destruct (SFcompare (Prim2SF x) (Prim2SF y)) as [[ | | ] | ]; congruence.
Qed.

Lemma nzero_leb_pzero (x y : float) :
JS.is_nzero x = true -> JS.is_pzero y = true -> (x <=? y) = true.
Proof.
unfold JS.is_nzero, JS.is_pzero. rewrite !classify_spec, leb_spec.
unfold SF64classify, SFclassify.
destruct (Prim2SF x) as [[ | ] | [ | ] | | [ | ] mx ex];
  try discriminate;
  try (destruct (Z.eqb _ _); discriminate).
destruct (Prim2SF y) as [[ | ] | [ | ] | | [ | ] my ey];
  try discriminate;
  try (destruct (Z.eqb _ _); discriminate).
reflexivity.
Qed.


End FloatOrder.

Section Clamp.

Local Open Scope float_scope.

Lemma Math_max0_lower (x : float) :
is_nan x = false ->
(0 <=? JS.Math_max 0 x) = true /\ is_nan (JS.Math_max 0 x) = false.
Proof.
intro Hx. unfold JS.Math_max. rewrite Hx.
change (is_nan 0) with false. change (JS.is_nzero 0) with false.
cbn [orb andb].
destruct (0 <? x) eqn:E.
- split; [apply ltb_leb; exact E | exact Hx].
- split; reflexivity.
Qed.

Lemma clamp0_range (hi x : float) :
(0 <=? hi) = true -> is_nan x = false ->
(0 <=? clamp0 hi x) = true /\ (clamp0 hi x <=? hi) = true.
Proof.
intros Hhi Hx.
pose proof (leb_not_nan_r _ _ Hhi) as Hn.
destruct (Math_max0_lower x Hx) as [Hm0 Hmn].
unfold clamp0.
set (m := JS.Math_max 0 x) in *.
unfold JS.Math_min. rewrite Hn, Hmn. cbn [orb].
destruct (JS.is_pzero hi && JS.is_nzero m) eqn:Ez.
- apply andb_true_iff in Ez. destruct Ez as [Ep En].
  split; [exact Hm0 | apply nzero_leb_pzero; assumption].
- destruct (m <? hi) eqn:El.
  + split; [exact Hm0 | apply ltb_leb; exact El].
  + split; [exact Hhi | apply leb_refl; exact Hn].
Qed.

End Clamp.

(** ** Lists: [findIndex], [filter] and indexing *)

Section ListFacts.

Context {A : Type} (p : A -> bool).

Let keep (x : A) : bool := negb (p x).

Lemma len_app (l1 l2 : list A) : len (l1 ++ l2) = len l1 + len l2.
Proof. unfold len. rewrite length_app. lia. Qed.

Lemma len_nonneg (l : list A) : 0 <= len l.
Proof. unfold len. lia. Qed.

Lemma findIndex_from_range (l : list A) (k : Z) :
  findIndex_from p l k = -1 \/ k <= findIndex_from p l k < k + len l.
Proof.
  revert k. induction l as [| x r IH]; intro k; simpl.
  - left. reflexivity.
  - destruct (p x).
    + right. unfold len. simpl List.length. lia.
    + destruct (IH (k + 1)) as [H | H]; [left; exact H | right].
      unfold len in *. simpl List.length. lia.
Qed.

(** A found index splits the list at the first element that satisfies
    [p]. *)
Lemma findIndex_from_split (l : list A) (k : Z) :
  0 <= k -> k <= findIndex_from p l k ->
  exists l1 x l2,
    l = l1 ++ x :: l2 /\ len l1 = findIndex_from p l k - k /\
    p x = true /\ forallb keep l1 = true.
Proof.
  revert k. induction l as [| x r IH]; intros k Hk H; simpl in *.
  - lia.
  - destruct (p x) eqn:E.
    + exists [], x, r. repeat split; auto. unfold len. simpl. lia.
    + destruct (IH (k + 1)) as (l1 & y & l2 & -> & Hl & Hy & Hall);
        [lia | | ].
      * destruct (findIndex_from_range r (k + 1)); lia.
      * exists (x :: l1), y, l2. repeat split; auto.
        -- unfold len in *. simpl List.length. lia.
        -- simpl. unfold keep at 1. rewrite E. exact Hall.
Qed.

Lemma findIndex_from_none (l : list A) (k : Z) :
  0 <= k -> findIndex_from p l k = -1 -> filter keep l = l.
Proof.
  revert k. induction l as [| x r IH]; intros k Hk H; simpl in *.
  - reflexivity.
  - unfold keep at 1. destruct (p x) eqn:E; [lia | ]. simpl.
    f_equal. apply (IH (k + 1)); [lia | exact H].
Qed.

Lemma filter_keep_prefix (l1 : list A) :
  forallb keep l1 = true -> filter keep l1 = l1.
Proof.
  induction l1 as [| x r IH]; simpl; intro H.
  - reflexivity.
  - apply andb_true_iff in H. destruct H as [Hx Hr].
    rewrite Hx. f_equal. apply IH. exact Hr.
Qed.

Lemma filter_keep_split (l1 l2 : list A) (x : A) :
  forallb keep l1 = true -> p x = true ->
  filter keep (l1 ++ x :: l2) = l1 ++ filter keep l2.
Proof.
  intros H1 Hx. rewrite filter_app, filter_keep_prefix by exact H1.
  simpl. unfold keep at 1. rewrite Hx. reflexivity.
Qed.

Lemma len_filter_le (l : list A) : len (filter keep l) <= len l.
Proof.
  unfold len. pose proof (filter_length_le keep l). lia.
Qed.

Lemma at_index_app_l (l1 l2 : list A) (i : Z) :
  i < len l1 -> at_index (l1 ++ l2) i = at_index l1 i.
Proof.
  unfold at_index, len. intro H. destruct (i <? 0) eqn:E; [reflexivity | ].
  apply Z.ltb_ge in E. apply nth_error_app1. lia.
Qed.

Lemma at_index_app_r (l1 l2 : list A) (i : Z) :
  len l1 <= i -> at_index (l1 ++ l2) i = at_index l2 (i - len l1).
Proof.
  unfold at_index, len. intro H.
  destruct (i <? 0) eqn:E.
  - apply Z.ltb_lt in E. lia.
  - destruct (i - Z.of_nat (List.length l1) <? 0) eqn:E'.
    + apply Z.ltb_lt in E'. lia.
    + rewrite nth_error_app2 by lia. f_equal. lia.
Qed.

Lemma at_index_cons_succ (x : A) (l : list A) (i : Z) :
  1 <= i -> at_index (x :: l) i = at_index l (i - 1).
Proof.
  unfold at_index. intro H.
  destruct (i <? 0) eqn:E; [apply Z.ltb_lt in E; lia | ].
  destruct (i - 1 <? 0) eqn:E'; [apply Z.ltb_lt in E'; lia | ].
  replace (Z.to_nat i) with (S (Z.to_nat (i - 1))) by lia. reflexivity.
Qed.

End ListFacts.

(** With distinct ids, the tracks after the first one that carries [id]
    all survive the filter of [removeTrack]. *)
Lemma filter_other_ids (id : string) (x : Track.t) (l1 l2 : list Track.t) :
  NoDup (map Track.id (l1 ++ x :: l2)) ->
  String.eqb (Track.id x) id = true ->
  filter (fun t => negb (String.eqb (Track.id t) id)) l2 = l2.
Proof.
  intros Hnd Hx. apply String.eqb_eq in Hx.
  rewrite map_app in Hnd. apply NoDup_app_remove_l in Hnd.
  simpl in Hnd. inversion Hnd as [| ? ? Hnotin Hnd2]; subst.
  clear Hnd Hnd2. induction l2 as [| y r IH]; simpl in *.
  - reflexivity.
  - destruct (String.eqb (Track.id y) (Track.id x)) eqn:E.
    + apply String.eqb_eq in E. exfalso. apply Hnotin. left. exact E.
    + simpl. f_equal. apply IH. intro H. apply Hnotin. right. exact H.
Qed.

(** ** Calls and their counts *)

Lemma count_app (p : Call -> bool) (l1 l2 : list Call) :
  count p (l1 ++ l2) = (count p l1 + count p l2)%nat.
Proof. unfold count. rewrite filter_app, length_app. reflexivity. Qed.

Lemma count_snoc (p : Call -> bool) (l : list Call) (c : Call) :
  count p (l ++ [c]) = (count p l + (if p c then 1 else 0))%nat.
Proof. rewrite count_app. unfold count. simpl. destruct (p c); reflexivity. Qed.

Lemma set_calls_eta (a : App) : set_calls (calls a) a = a.
Proof. destruct a. reflexivity. Qed.

Lemma create_object_urls_spec (files : list File.t) (a : App) :
  create_object_urls files a =
  set_calls
    (calls a ++
     map (fun f => createObjectURL (File.object_url f)) (filter accepted files))
    a.
Proof.
  unfold create_object_urls. revert a.
  induction (filter accepted files) as [| f r IH]; intro a; simpl.
  - rewrite app_nil_r. symmetry. apply set_calls_eta.
  - rewrite IH. unfold call. simpl. rewrite <- app_assoc. reflexivity.
Qed.

Lemma Object_is_refl (x : JS.number) : JS.Object_is x x = true.
Proof. unfold JS.Object_is. apply Leibniz.eqb_spec. reflexivity. Qed.

Lemma Object_is_integer_refl (x : Z * bool) : JS.Object_is_integer x x = true.
Proof.
  unfold JS.Object_is_integer.
  rewrite Z.eqb_refl, Bool.eqb_reflx. destruct (fst x =? 0); reflexivity.
Qed.

Lemma run_effects_same (a : App) : run_effects a a = a.
Proof.
  unfold run_effects.
  rewrite !Object_is_refl, Bool.eqb_reflx, Object_is_integer_refl.
  reflexivity.
Qed.

(** Effects run only on a change of [volume], [isMuted] or
    [currentTrackIndex]. *)
Lemma run_effects_quiet (a a' : App) :
  volume a' = volume a -> isMuted a' = isMuted a ->
  currentTrackIndex a' = currentTrackIndex a ->
  currentTrackIndexIsNegativeZero a' = currentTrackIndexIsNegativeZero a ->
  run_effects a a' = a'.
Proof.
  intros Hv Hm Hi Hz. unfold run_effects.
  rewrite Hv, Hm, Hi, Hz, Object_is_refl, Bool.eqb_reflx,
    Object_is_integer_refl.
  reflexivity.
Qed.

Arguments count : simpl never.

(** Case analysis on an innermost [match] or [if] of the goal. *)
Ltac break_match :=
  match goal with
  | |- context [match ?x with _ => _ end] =>
      lazymatch x with
      | context [match _ with _ => _ end] => fail
      | _ => destruct x eqn:?
      end
  end.

(** Unfolds the handlers down to field updates and calls. *)
Ltac unfold_handlers :=
  unfold handleKeyDown, handleWheel, handleMouseMove, handleDrop,
    handleFileChange, togglePlay, togglePlay_rest, nextTrack, prevTrack,
    onTrackClick, removeTrack, toggleVideoOnly, toggleFullscreen,
    onProgressChange, onTimeUpdate, onLoadedMetadata, with_media,
    handleFullscreenChange, settle, fire, adjustVolume, showVolumeOverlay,
    seek, set_timeout, clear_timeout, play_caught, play_effect,
    volume_effect, hold, call in *.

(** ** Claims *)

(** *** C9: [togglePlay] on an empty playlist *)

(** C9. Calling [togglePlay] when the playlist is empty is a complete
    no-op: the returned component (state cells, refs, timers, pending
    promises) equals the one it was called on, so no play or pause command
    reaches the media element, neither from the handler nor from the
    effects that follow the click. *)
Theorem togglePlay_empty_playlist_noop (a : App) :
  tracks a = [] ->
  togglePlay a = a /\
  dispatch click_play a = a /\
  count is_play_or_pause (calls (dispatch click_play a))
  = count is_play_or_pause (calls a).
Proof.
  intro H.
  assert (E : togglePlay a = a).
  { unfold togglePlay. rewrite H. simpl. destruct (mediaRef a); reflexivity. }
  assert (D : dispatch click_play a = a).
  { unfold dispatch. simpl. rewrite E. apply run_effects_same. }
  rewrite D. auto.
Qed.

Lemma togglePlay_empty_playlist_noop_witness :
  togglePlay (mount suspended) = mount suspended /\
  dispatch click_play (mount suspended) = mount suspended /\
  count is_play_or_pause (calls (dispatch click_play (mount suspended)))
  = count is_play_or_pause (calls (mount suspended)).
Proof. apply togglePlay_empty_playlist_noop. reflexivity. Defined.

(** *** C10 and C2: [removeTrack] *)

Lemma removeTrack_unfold (id : string) (a : App) :
  removeTrack id a =
  let a0 := call stopPropagation a in
  let index := findIndex (has_id id) (tracks a) in
  let a' :=
    if index =? currentTrackIndex a then
      setCurrentTrackIndex (-1) (setIsPlaying false a0)
    else if index <? currentTrackIndex a then
      setCurrentTrackIndex (currentTrackIndex a - 1) a0
    else a0 in
  setTracks (filter (fun t => negb (has_id id t)) (tracks a)) a'.
Proof.
  unfold removeTrack. simpl.
  destruct (_ =? _); [reflexivity | ]. destruct (_ <? _); reflexivity.
Qed.

(** A track found at [index] splits the playlist; what [removeTrack]
    keeps is the part before it and the filtered part after it. *)
Lemma removeTrack_split (id : string) (l : list Track.t) :
  0 <= findIndex (has_id id) l ->
  exists l1 x l2,
    l = l1 ++ x :: l2 /\ len l1 = findIndex (has_id id) l /\
    has_id id x = true /\
    filter (fun t => negb (has_id id t)) l
    = l1 ++ filter (fun t => negb (has_id id t)) l2.
Proof.
  intro H. unfold findIndex in *.
  destruct (findIndex_from_split (has_id id) l 0) as (l1 & x & l2 & E & Hl & Hx & Hall);
    [lia | exact H | ].
  exists l1, x, l2. repeat split; auto; [lia | ].
  rewrite E. apply (filter_keep_split (has_id id)); assumption.
Qed.

(** C10. Removing a track whose index is strictly greater than the active
    index leaves [currentTrackIndex] and [isPlaying] unchanged, the active
    track is the same track as before, the playlist gets shorter, and
    nothing else of the component changes (the click's [stopPropagation]
    apart). *)
Theorem removeTrack_after_active (id : string) (a : App) :
  0 <= findIndex (has_id id) (tracks a) ->
  currentTrackIndex a < findIndex (has_id id) (tracks a) ->
  currentTrackIndex (removeTrack id a) = currentTrackIndex a /\
  isPlaying (removeTrack id a) = isPlaying a /\
  currentTrack (removeTrack id a) = currentTrack a /\
  len (tracks (removeTrack id a)) < len (tracks a) /\
  removeTrack id a
  = setTracks (tracks (removeTrack id a)) (call stopPropagation a).
Proof.
  intros Hfound Hlt. rewrite removeTrack_unfold. cbv zeta.
  destruct (Z.eqb_spec (findIndex (has_id id) (tracks a)) (currentTrackIndex a))
    as [E | _]; [lia | ].
  destruct (Z.ltb_spec (findIndex (has_id id) (tracks a)) (currentTrackIndex a))
    as [E | _]; [lia | ].
  destruct (removeTrack_split id (tracks a) Hfound)
    as (l1 & x & l2 & Hl & Hlen & Hx & Hf).
  repeat split; try reflexivity.
  - unfold currentTrack. simpl. rewrite Hf, Hl.
    destruct (0 <=? currentTrackIndex a); [ | reflexivity].
    rewrite !at_index_app_l by lia. reflexivity.
  - simpl. rewrite Hf, Hl, !len_app.
    pose proof (len_filter_le (has_id id) l2) as Hle.
    unfold len at 4. simpl List.length. unfold len in *. lia.
Qed.

Lemma removeTrack_after_active_witness :
  currentTrackIndex (removeTrack "b" two_tracks_playing) = 0 /\
  isPlaying (removeTrack "b" two_tracks_playing) = true /\
  currentTrack (removeTrack "b" two_tracks_playing)
  = currentTrack two_tracks_playing /\
  len (tracks (removeTrack "b" two_tracks_playing))
  < len (tracks two_tracks_playing) /\
  removeTrack "b" two_tracks_playing
  = setTracks (tracks (removeTrack "b" two_tracks_playing))
      (call stopPropagation two_tracks_playing).
Proof.
  apply (removeTrack_after_active "b" two_tracks_playing);
    vm_compute; [discriminate | reflexivity].
Defined.

(** C2 (amended). For a track found at [index]: [removeTrack] releases no
    resource handle (it never calls [URL.revokeObjectURL]); when the track
    is the active one it sets [isPlaying] to false and [currentTrackIndex]
    to -1; when [index] is strictly less than [currentTrackIndex] and the
    ids are distinct it decrements [currentTrackIndex] by one, which then
    denotes the same track as before, in a playlist one shorter, and leaves
    [isPlaying] as it was. *)
Theorem removeTrack_active_or_before (id : string) (a : App) :
  0 <= findIndex (has_id id) (tracks a) ->
  count is_any_revoke (calls (removeTrack id a))
  = count is_any_revoke (calls a) /\
  (findIndex (has_id id) (tracks a) = currentTrackIndex a ->
   isPlaying (removeTrack id a) = false /\
   currentTrackIndex (removeTrack id a) = -1) /\
  (findIndex (has_id id) (tracks a) < currentTrackIndex a ->
   NoDup (map Track.id (tracks a)) ->
   currentTrackIndex (removeTrack id a) = currentTrackIndex a - 1 /\
   currentTrack (removeTrack id a) = currentTrack a /\
   len (tracks (removeTrack id a)) = len (tracks a) - 1 /\
   isPlaying (removeTrack id a) = isPlaying a).
Proof.
  intro Hfound. rewrite removeTrack_unfold. cbv zeta.
  split; [ | split].
  - destruct (_ =? _); [ | destruct (_ <? _)]; simpl;
      rewrite count_snoc; simpl; lia.
  - intro E. rewrite E, Z.eqb_refl. simpl. auto.
  - intros Hlt Hnd.
    destruct (Z.eqb_spec (findIndex (has_id id) (tracks a)) (currentTrackIndex a))
      as [E | _]; [lia | ].
    destruct (Z.ltb_spec (findIndex (has_id id) (tracks a)) (currentTrackIndex a))
      as [_ | E]; [ | lia].
    destruct (removeTrack_split id (tracks a) Hfound)
      as (l1 & x & l2 & Hl & Hlen & Hx & Hf).
    assert (Hl2 : filter (fun t => negb (has_id id t)) l2 = l2).
    { rewrite Hl in Hnd. apply (filter_other_ids id x l1 l2 Hnd Hx). }
    rewrite Hl2 in Hf.
    repeat split; try reflexivity.
    + unfold currentTrack. simpl. rewrite Hf, Hl.
      destruct (Z.leb_spec 0 (currentTrackIndex a - 1)) as [_ | H]; [ | lia].
      destruct (Z.leb_spec 0 (currentTrackIndex a)) as [_ | H]; [ | lia].
      rewrite !at_index_app_r by lia.
      rewrite at_index_cons_succ by lia. f_equal. lia.
    + simpl. rewrite Hf, Hl, !len_app. unfold len. simpl List.length. lia.
Qed.

Lemma removeTrack_active_or_before_witness :
  (isPlaying (removeTrack "a" two_tracks_playing) = false /\
   currentTrackIndex (removeTrack "a" two_tracks_playing) = -1) /\
  (currentTrackIndex (removeTrack "a" second_track_active) = 0 /\
   currentTrack (removeTrack "a" second_track_active)
   = currentTrack second_track_active /\
   len (tracks (removeTrack "a" second_track_active)) = 1 /\
   isPlaying (removeTrack "a" second_track_active) = true).
Proof.
  split.
  - destruct (removeTrack_active_or_before "a" two_tracks_playing)
      as (_ & Hactive & _); [vm_compute; discriminate | ].
    apply Hactive. vm_compute. reflexivity.
  - destruct (removeTrack_active_or_before "a" second_track_active)
      as (_ & _ & Hbefore); [vm_compute; discriminate | ].
    apply Hbefore; [vm_compute; reflexivity | ].
    repeat constructor; simpl; intuition discriminate.
Defined.

(** C2, as stated, fails on the resource handle: with the playlist [A],
    [A] active and playing, [removeTrack(A.id)] stops playback and clears
    the selection but [A]'s object URL is revoked zero times, not once. *)
Lemma removeTrack_releases_nothing :
  map Track.url (tracks one_track_playing) = ["blob:a"] /\
  currentTrackIndex one_track_playing = 0 /\
  isPlaying one_track_playing = true /\
  currentTrackIndex (dispatch (click_remove "a") one_track_playing) = -1 /\
  isPlaying (dispatch (click_remove "a") one_track_playing) = false /\
  count (is_revoke "blob:a")
    (calls (dispatch (click_remove "a") one_track_playing)) = 0%nat /\
  count (is_revoke "blob:a")
    (calls (dispatch (click_remove "a") one_track_playing)) <> 1%nat.
Proof. vm_compute. repeat split; discriminate. Qed.

(** The unguarded [-1] of [findIndex]: an id that no track carries compares
    below any selected index, so the selection moves one place down while
    the playlist stays as it is. *)
Lemma removeTrack_unknown_id (id : string) (a : App) :
  findIndex (has_id id) (tracks a) = -1 ->
  0 <= currentTrackIndex a ->
  tracks (removeTrack id a) = tracks a /\
  currentTrackIndex (removeTrack id a) = currentTrackIndex a - 1.
Proof.
  intros Hnone Hsel. rewrite removeTrack_unfold. cbv zeta. rewrite Hnone.
  destruct (Z.eqb_spec (-1) (currentTrackIndex a)) as [E | _]; [lia | ].
  destruct (Z.ltb_spec (-1) (currentTrackIndex a)) as [_ | E]; [ | lia].
  simpl. split; [ | reflexivity].
  apply (findIndex_from_none (has_id id) (tracks a) 0); [lia | exact Hnone].
Qed.

(** *** C1: the range of [currentTrackIndex] *)

Lemma run_effects_registry (before a : App) :
  tracks (run_effects before a) = tracks a /\
  currentTrackIndex (run_effects before a) = currentTrackIndex a /\
  isPlaying (run_effects before a) = isPlaying a.
Proof.
  unfold run_effects, play_effect, volume_effect, play_caught, hold, call.
  destruct (_ && _); destruct (JS.Object_is_integer _ _); simpl;
    repeat match goal with
           | |- context [match ?x with _ => _ end] => destruct x eqn:?; simpl
           end; auto.
Qed.

Lemma index_in_range_run_effects (before a : App) :
  index_in_range a -> index_in_range (run_effects before a).
Proof.
  unfold index_in_range.
  destruct (run_effects_registry before a) as (-> & -> & _). auto.
Qed.

Lemma create_object_urls_registry (files : list File.t) (a : App) :
  tracks (create_object_urls files a) = tracks a /\
  currentTrackIndex (create_object_urls files a) = currentTrackIndex a.
Proof. rewrite create_object_urls_spec. simpl. auto. Qed.

(** The drag-and-drop path keeps the index in range, whatever is dropped. *)
Lemma handleDrop_index_in_range (files : option (list File.t)) (a : App) :
  index_in_range a -> index_in_range (handleDrop files a).
Proof.
  unfold index_in_range, handleDrop. intro H.
  destruct files as [files | ]; [ | exact H].
  cbv zeta.
  destruct (create_object_urls_registry files (call preventDefault a))
    as [Et Ei].
  simpl in Et, Ei.
  destruct (Z.ltb_spec 0 (len (newTracks files))) as [Hn | Hn].
  - change (currentTrackIndex (call preventDefault a))
      with (currentTrackIndex a).
    destruct (Z.eqb_spec (currentTrackIndex a) (-1)) as [E | E]; simpl;
      rewrite Et, len_app; pose proof (len_nonneg (tracks a)); [lia | ].
    rewrite Ei. lia.
  - rewrite Et, Ei. exact H.
Qed.

(** The file-picker path keeps it in range when the playlist is not left
    empty. *)
Lemma handleFileChange_index_in_range (files : list File.t) (a : App) :
  index_in_range a ->
  0 < len (tracks a) + len (newTracks files) ->
  index_in_range (handleFileChange (Some files) a).
Proof.
  unfold index_in_range, handleFileChange. intros H Hpos. cbv zeta.
  destruct (create_object_urls_registry files a) as [Et Ei].
  destruct (Z.eqb_spec (currentTrackIndex a) (-1)) as [E | E]; simpl;
    rewrite Et, len_app; [lia | ].
  rewrite Ei. pose proof (len_nonneg (newTracks files)). lia.
Qed.

(** The playlist and the index after a removal. *)
Lemma removeTrack_registry (id : string) (a : App) :
  tracks (removeTrack id a)
  = filter (fun t => negb (has_id id t)) (tracks a) /\
  currentTrackIndex (removeTrack id a)
  = (if findIndex (has_id id) (tracks a) =? currentTrackIndex a then -1
     else if findIndex (has_id id) (tracks a) <? currentTrackIndex a
          then currentTrackIndex a - 1
          else currentTrackIndex a).
Proof.
  rewrite removeTrack_unfold. cbv zeta.
  destruct (_ =? _); [ | destruct (_ <? _)]; simpl; auto.
Qed.

(** Removal keeps it in range when the ids are distinct. *)
Lemma removeTrack_index_in_range (id : string) (a : App) :
  NoDup (map Track.id (tracks a)) ->
  index_in_range a -> index_in_range (removeTrack id a).
Proof.
  unfold index_in_range. intros Hnd H.
  destruct (removeTrack_registry id a) as [-> ->].
  pose proof (len_nonneg (filter (fun t => negb (has_id id t)) (tracks a)))
    as Hpos.
  destruct (findIndex_from_range (has_id id) (tracks a) 0) as [Hnone | Hfound];
    fold (findIndex (has_id id) (tracks a)) in *.
  - (* no track carries the id *)
    assert (Hf : filter (fun t => negb (has_id id t)) (tracks a) = tracks a)
      by (apply (findIndex_from_none (has_id id) (tracks a) 0);
          [lia | exact Hnone]).
    rewrite Hf in *. rewrite Hnone.
    destruct (Z.eqb_spec (-1) (currentTrackIndex a));
      [ | destruct (Z.ltb_spec (-1) (currentTrackIndex a))]; lia.
  - (* the track is found: exactly one entry goes *)
    assert (H0 : 0 <= findIndex (has_id id) (tracks a)) by lia.
    destruct (removeTrack_split id (tracks a) H0)
      as (l1 & x & l2 & Hl & Hlen & Hx & Hf).
    assert (Hl2 : filter (fun t => negb (has_id id t)) l2 = l2).
    { rewrite Hl in Hnd. apply (filter_other_ids id x l1 l2 Hnd Hx). }
    rewrite Hf, Hl2 in *. rewrite Hl in H. rewrite !len_app in *.
    unfold len in H at 2. simpl List.length in H.
    destruct (Z.eqb_spec (findIndex (has_id id) (tracks a))
                (currentTrackIndex a));
      [ | destruct (Z.ltb_spec (findIndex (has_id id) (tracks a))
                      (currentTrackIndex a))];
      unfold len in *; lia.
Qed.

(** X1. Over drops and removals alone the index stays in range, as long
    as ids do not repeat. *)
Lemma drop_remove_index_in_range (es : list Event) (a : App) :
  forallb drop_or_remove es = true ->
  NoDup (map Track.id (tracks a)) ->
  distinct_ids_along es a ->
  index_in_range a -> index_in_range (run es a).
Proof.
  revert a. induction es as [| e r IH]; intros a Hes Hnd Hids Hin.
  - exact Hin.
  - simpl in Hes. apply andb_true_iff in Hes. destruct Hes as [He Hr].
    destruct Hids as [Hnd' Hids].
    change (run (e :: r) a) with (run r (dispatch e a)).
    apply IH; try assumption.
    unfold dispatch. apply index_in_range_run_effects.
    destruct e; try discriminate; simpl.
    + apply handleDrop_index_in_range. exact Hin.
    + apply removeTrack_index_in_range; assumption.
Qed.

Lemma drop_remove_index_in_range_witness :
  index_in_range
    (run [drop (Some [song "a" "blob:a"; clip "b" "blob:b"]);
          click_remove "a"; drop (Some [notes_txt]); click_remove "zz";
          click_remove "b"]
       (mount running)).
Proof.
  apply drop_remove_index_in_range.
  - reflexivity.
  - constructor.
  - vm_compute.
    repeat split;
      repeat match goal with
             | |- NoDup [] => apply NoDup_nil
             | |- NoDup (_ :: _) =>
                 apply NoDup_cons; [simpl; intuition discriminate | ]
             end.
  - split; vm_compute; congruence.
Defined.

(** C1. From the empty playlist, one file-picker ingestion whose only file
    has a media type that is neither audio/* nor video/* leaves the playlist
    empty and sets [currentTrackIndex] to 0, so [-1 <= currentTrackIndex <
    tracks.length] no longer holds; the same files dropped on the window
    leave the index at -1. *)
Theorem handleFileChange_all_rejected_breaks_range :
  index_in_range (mount running) /\
  tracks (dispatch (file_input_change (Some [notes_txt])) (mount running)) = [] /\
  currentTrackIndex
    (dispatch (file_input_change (Some [notes_txt])) (mount running)) = 0 /\
  ~ index_in_range
      (dispatch (file_input_change (Some [notes_txt])) (mount running)) /\
  index_in_range (dispatch (drop (Some [notes_txt])) (mount running)).
Proof.
  repeat split; try (vm_compute; congruence).
  intros [_ H]. vm_compute in H. discriminate.
Qed.

(** *** C8: which keys have their default action suppressed *)

Lemma count_preventDefault_frame (a : App) :
  count is_preventDefault (calls (togglePlay a))
  = count is_preventDefault (calls a) /\
  count is_preventDefault (calls (toggleVideoOnly a))
  = count is_preventDefault (calls a) /\
  count is_preventDefault (calls (toggleFullscreen a))
  = count is_preventDefault (calls a) /\
  (forall d, count is_preventDefault (calls (adjustVolume d a))
             = count is_preventDefault (calls a)) /\
  (forall d, count is_preventDefault (calls (seek d a))
             = count is_preventDefault (calls a)).
Proof.
  repeat split; intros; unfold_handlers;
    repeat (simpl; try break_match);
    rewrite ?count_snoc; simpl; lia.
Qed.

(** C8 (amended). [handleKeyDown] calls [preventDefault] for Space and the
    four arrow keys and for no other key: for F (either case) and Enter it
    runs the cinema toggle and the fullscreen toggle and leaves the default
    action alone. *)
Theorem handleKeyDown_preventDefault (a : App) :
  (handleKeyDown " " a = togglePlay (call preventDefault a) /\
   handleKeyDown "ArrowUp" a = adjustVolume 0.05%float (call preventDefault a) /\
   handleKeyDown "ArrowDown" a
   = adjustVolume (-0.05)%float (call preventDefault a) /\
   handleKeyDown "ArrowLeft" a = seek (-5)%float (call preventDefault a) /\
   handleKeyDown "ArrowRight" a = seek 5%float (call preventDefault a) /\
   handleKeyDown "f" a = toggleVideoOnly a /\
   handleKeyDown "F" a = toggleVideoOnly a /\
   handleKeyDown "Enter" a = toggleFullscreen a) /\
  (count is_preventDefault (calls (handleKeyDown " " a))
   = S (count is_preventDefault (calls a)) /\
   count is_preventDefault (calls (handleKeyDown "ArrowUp" a))
   = S (count is_preventDefault (calls a)) /\
   count is_preventDefault (calls (handleKeyDown "ArrowDown" a))
   = S (count is_preventDefault (calls a)) /\
   count is_preventDefault (calls (handleKeyDown "ArrowLeft" a))
   = S (count is_preventDefault (calls a)) /\
   count is_preventDefault (calls (handleKeyDown "ArrowRight" a))
   = S (count is_preventDefault (calls a))) /\
  (count is_preventDefault (calls (handleKeyDown "f" a))
   = count is_preventDefault (calls a) /\
   count is_preventDefault (calls (handleKeyDown "F" a))
   = count is_preventDefault (calls a) /\
   count is_preventDefault (calls (handleKeyDown "Enter" a))
   = count is_preventDefault (calls a)).
Proof.
  assert (Hpd : count is_preventDefault (calls (call preventDefault a))
                = S (count is_preventDefault (calls a))).
  { unfold call. simpl. rewrite count_snoc. simpl. lia. }
  assert (Hact :
    handleKeyDown " " a = togglePlay (call preventDefault a) /\
    handleKeyDown "ArrowUp" a = adjustVolume 0.05%float (call preventDefault a) /\
    handleKeyDown "ArrowDown" a
    = adjustVolume (-0.05)%float (call preventDefault a) /\
    handleKeyDown "ArrowLeft" a = seek (-5)%float (call preventDefault a) /\
    handleKeyDown "ArrowRight" a = seek 5%float (call preventDefault a) /\
    handleKeyDown "f" a = toggleVideoOnly a /\
    handleKeyDown "F" a = toggleVideoOnly a /\
    handleKeyDown "Enter" a = toggleFullscreen a)
    by (repeat split; reflexivity).
  split; [exact Hact | ].
  destruct Hact as (-> & -> & -> & -> & -> & -> & -> & ->).
  destruct (count_preventDefault_frame a) as (_ & Hv & Hf & _ & _).
  destruct (count_preventDefault_frame (call preventDefault a))
    as (Hp & _ & _ & Hvol & Hseek).
  rewrite Hp, !Hvol, !Hseek, Hv, Hf, Hpd. repeat split; reflexivity.
Qed.

(** C8, as stated, fails for Enter and for F: pressed on the freshly mounted
    player, each runs its toggle and [preventDefault] is never called. *)
Lemma handleKeyDown_Enter_F_keep_default :
  isFullscreen (dispatch (keydown "Enter") (mount running)) = true /\
  count is_preventDefault (calls (dispatch (keydown "Enter") (mount running)))
  = 0%nat /\
  isVideoOnly (dispatch (keydown "F") (mount running)) = true /\
  count is_preventDefault (calls (dispatch (keydown "F") (mount running)))
  = 0%nat.
Proof. vm_compute. repeat split. Qed.

(** *** C6: the cinema toggle, twice *)

(** The view handlers touch none of the effect dependencies, so the event
    is the handler. *)
Lemma dispatch_view_event (a : App) :
  dispatch click_cinema a = toggleVideoOnly a /\
  dispatch click_fullscreen a = toggleFullscreen a /\
  (forall active,
     dispatch (fullscreenchange active) a
     = handleFullscreenChange (set_fullscreenElement active a)).
Proof.
  repeat split; intros; unfold dispatch; simpl handle;
    apply run_effects_quiet;
    unfold_handlers; repeat (simpl; try break_match); reflexivity.
Qed.

Lemma viewMode_Normal (a : App) :
  viewMode a = Normal <-> isVideoOnly a = false /\ isFullscreen a = false.
Proof.
  unfold viewMode. destruct (isVideoOnly a), (isFullscreen a);
    split; try discriminate; intuition congruence.
Qed.

(** C6 (amended). From Normal mode with OS fullscreen inactive the cinema
    toggle gives Cinema mode.  When the OS has entered fullscreen as
    requested (with its change notification) before the second toggle, the
    two toggles give Normal mode, with exactly one more [requestFullscreen]
    and exactly one more [exitFullscreen] call than before; the notification
    of the OS leaving fullscreen that follows keeps Normal mode and makes no
    further call.  When the OS has not entered fullscreen, the second toggle
    requests it again: the mode stays Cinema, with two more
    [requestFullscreen] calls and no [exitFullscreen] call. *)
Theorem cinema_toggle_twice (a : App) :
  viewMode a = Normal ->
  fullscreenElement a = false ->
  viewMode (run [click_cinema] a) = Cinema /\
  viewMode (run [click_cinema; fullscreenchange true; click_cinema] a)
  = Normal /\
  count is_requestFullscreen
    (calls (run [click_cinema; fullscreenchange true; click_cinema] a))
  = S (count is_requestFullscreen (calls a)) /\
  count is_exitFullscreen
    (calls (run [click_cinema; fullscreenchange true; click_cinema] a))
  = S (count is_exitFullscreen (calls a)) /\
  viewMode
    (run [click_cinema; fullscreenchange true; click_cinema;
          fullscreenchange false] a) = Normal /\
  calls
    (run [click_cinema; fullscreenchange true; click_cinema;
          fullscreenchange false] a)
  = calls (run [click_cinema; fullscreenchange true; click_cinema] a) /\
  viewMode (run [click_cinema; click_cinema] a) = Cinema /\
  count is_requestFullscreen (calls (run [click_cinema; click_cinema] a))
  = S (S (count is_requestFullscreen (calls a))) /\
  count is_exitFullscreen (calls (run [click_cinema; click_cinema] a))
  = count is_exitFullscreen (calls a).
Proof.
  intros Hmode Hos. apply viewMode_Normal in Hmode. destruct Hmode as [Hv Hf].
  unfold run. simpl fold_left.
  repeat match goal with
         | |- context [dispatch click_cinema ?x] =>
             replace (dispatch click_cinema x) with (toggleVideoOnly x)
               by (symmetry; apply dispatch_view_event)
         | |- context [dispatch (fullscreenchange ?b) ?x] =>
             replace (dispatch (fullscreenchange b) x)
               with (handleFullscreenChange (set_fullscreenElement b x))
               by (symmetry; apply dispatch_view_event)
         end.
  assert (E1 : toggleVideoOnly a
               = setShowControls false
                   (setIsFullscreen true
                      (setIsVideoOnly true
                         (hold cmd_requestFullscreen catch_console_error
                            (call requestFullscreen a)))))
    by (unfold toggleVideoOnly; rewrite Hos; reflexivity).
  rewrite E1.
  unfold viewMode, handleFullscreenChange, toggleVideoOnly, hold, call.
  simpl. rewrite Hos. simpl. rewrite !count_snoc. simpl. repeat split; lia.
Qed.

Lemma cinema_toggle_twice_witness :
  viewMode (run [click_cinema] one_track_ready) = Cinema /\
  viewMode
    (run [click_cinema; fullscreenchange true; click_cinema] one_track_ready)
  = Normal /\
  count is_requestFullscreen
    (calls
       (run [click_cinema; fullscreenchange true; click_cinema]
          one_track_ready))
  = S (count is_requestFullscreen (calls one_track_ready)) /\
  count is_exitFullscreen
    (calls
       (run [click_cinema; fullscreenchange true; click_cinema]
          one_track_ready))
  = S (count is_exitFullscreen (calls one_track_ready)) /\
  viewMode
    (run [click_cinema; fullscreenchange true; click_cinema;
          fullscreenchange false] one_track_ready) = Normal /\
  calls
    (run [click_cinema; fullscreenchange true; click_cinema;
          fullscreenchange false] one_track_ready)
  = calls
      (run [click_cinema; fullscreenchange true; click_cinema]
         one_track_ready) /\
  viewMode (run [click_cinema; click_cinema] one_track_ready) = Cinema /\
  count is_requestFullscreen
    (calls (run [click_cinema; click_cinema] one_track_ready))
  = S (S (count is_requestFullscreen (calls one_track_ready))) /\
  count is_exitFullscreen
    (calls (run [click_cinema; click_cinema] one_track_ready))
  = count is_exitFullscreen (calls one_track_ready).
Proof. apply (cinema_toggle_twice one_track_ready); reflexivity. Defined.

(** C6, as stated, fails: on the freshly mounted player (Normal mode, OS
    fullscreen inactive) the cinema toggle invoked twice leaves Cinema
    mode, with two [requestFullscreen] calls and no [exitFullscreen]
    call. *)
Lemma cinema_toggle_twice_not_granted :
  viewMode (mount running) = Normal /\
  fullscreenElement (mount running) = false /\
  viewMode (run [click_cinema; click_cinema] (mount running)) = Cinema /\
  viewMode (run [click_cinema; click_cinema] (mount running)) <> Normal /\
  count is_requestFullscreen
    (calls (run [click_cinema; click_cinema] (mount running))) = 2%nat /\
  count is_exitFullscreen
    (calls (run [click_cinema; click_cinema] (mount running))) = 0%nat.
Proof. vm_compute. repeat split. discriminate. Qed.

(** *** C7: the audio graph is built once *)

Lemma filter_created (fs : list File.t) :
  filter is_new_graph
    (map (fun f => createObjectURL (File.object_url f)) fs) = [].
Proof. induction fs as [| f r IH]; simpl; auto. Qed.

Ltac graph_frame :=
  unfold graph_view; unfold_handlers;
  repeat (simpl; rewrite ?create_object_urls_spec; try break_match);
  simpl in *;
  rewrite ?filter_app, ?filter_created; simpl; rewrite ?app_nil_r;
  try reflexivity; try congruence.

Lemma audio_graph_effect_idempotent (st st' : AudioContextState) (a : App) :
  audio_graph_effect st' (audio_graph_effect st a) = audio_graph_effect st a.
Proof.
  unfold audio_graph_effect at 2.
  destruct (mediaRef a) eqn:Em; destruct (audioContextRef a) eqn:Ea;
    unfold audio_graph_effect; simpl; rewrite ?Em, ?Ea; reflexivity.
Qed.

Lemma audio_graph_effect_held (st : AudioContextState) (a : App) :
  audioContextRef a <> None -> audio_graph_effect st a = a.
Proof.
  intro H. unfold audio_graph_effect.
  destruct (mediaRef a); destruct (audioContextRef a); congruence.
Qed.

Lemma run_effects_graph_view (before a : App) :
  graph_view (run_effects before a) = graph_view a.
Proof. unfold run_effects. graph_frame. Qed.

Lemma handle_graph_view (e : Event) (a : App) :
  audioContextRef a <> None -> graph_view (handle e a) = graph_view a.
Proof.
  intro H.
  destruct e; simpl handle;
    try (rewrite audio_graph_effect_held by exact H; reflexivity);
    graph_frame.
Qed.

Lemma graph_view_held (a : App) :
  fst (fst (fst (graph_view a))) = true -> audioContextRef a <> None.
Proof. unfold graph_view. simpl. destruct (audioContextRef a); congruence. Qed.

Lemma run_graph_view (es : list Event) (a : App) :
  audioContextRef a <> None -> graph_view (run es a) = graph_view a.
Proof.
  revert a. induction es as [| e r IH]; intros a H.
  - reflexivity.
  - change (run (e :: r) a) with (run r (dispatch e a)).
    assert (E : graph_view (dispatch e a) = graph_view a).
    { unfold dispatch. rewrite run_effects_graph_view.
      apply handle_graph_view. exact H. }
    rewrite IH; [exact E | ].
    apply graph_view_held. rewrite E.
    unfold graph_view. simpl. destruct (audioContextRef a); congruence.
Qed.

(** C7. The effect that builds the audio graph is idempotent; and after
    the mount, whatever events follow (the effect running again among
    them), the component holds the analyser it created then, with
    [fftSize = 256] and so 128 frequency bins, and the calls that made an
    audio context, an analyser and a media-element source are the three of
    the mount: no second graph or analysis node is ever created. *)
Theorem audio_graph_built_once (st : AudioContextState) (es : list Event) :
  (forall st' a,
     audio_graph_effect st' (audio_graph_effect st a)
     = audio_graph_effect st a) /\
  analyserRef (run es (mount st)) = Some (AnalyserNode.mk 256) /\
  option_map bufferLength (analyserRef (run es (mount st))) = Some 128 /\
  sourceRef (run es (mount st)) = Some media_element_source /\
  audioContextRef (run es (mount st)) <> None /\
  filter is_new_graph (calls (run es (mount st)))
  = [new_AudioContext; createAnalyser; createMediaElementSource].
Proof.
  split; [intros; apply audio_graph_effect_idempotent | ].
  assert (Hm : audioContextRef (mount st) <> None) by (simpl; discriminate).
  pose proof (run_graph_view es (mount st) Hm) as E.
  assert (Hv : graph_view (mount st)
               = (true, Some (AnalyserNode.mk 256), Some media_element_source,
                  [new_AudioContext; createAnalyser; createMediaElementSource]))
    by reflexivity.
  rewrite Hv in E. unfold graph_view in E.
  injection E as Ectx Ean Esrc Ecalls.
  rewrite Ean, Esrc, Ecalls. repeat split.
  destruct (audioContextRef (run es (mount st))); congruence.
Qed.

(** *** C3 and C5: a rejected command *)

Lemma nth_error_last {A : Type} (l : list A) (x : A) :
  nth_error (l ++ [x]) (List.length l) = Some x.
Proof. rewrite nth_error_app2, Nat.sub_diag by lia. reflexivity. Qed.

Lemma remove_last {A : Type} (l : list A) (x : A) :
  firstn (List.length l) (l ++ [x]) ++ skipn (S (List.length l)) (l ++ [x]) = l.
Proof.
  rewrite skipn_all2 by (rewrite length_app; simpl; lia).
  rewrite firstn_app, Nat.sub_diag, firstn_all, firstn_O, !app_nil_r.
  reflexivity.
Qed.

(** Settling the promise issued last. *)
Lemma settle_last (l : list Promise) (p : Promise) (ok : bool) (a : App) :
  pending a = l ++ [p] ->
  settle (List.length l) ok a =
  match reaction p, ok with
  | catch_console_error, true => set_pending l a
  | catch_console_error, false => call (console_error (command p)) (set_pending l a)
  | await_in_togglePlay isPlaying0 index0 length0, true =>
      togglePlay_rest isPlaying0 index0 length0
        match audioContextRef a with
        | Some _ =>
            set_audioContextRef (Some (AudioContext.mk running)) (set_pending l a)
        | None => set_pending l a
        end
  | await_in_togglePlay _ _ _, false =>
      call (unhandled_rejection (command p)) (set_pending l a)
  end.
Proof.
  intro H. unfold settle. rewrite H, nth_error_last, remove_last.
  destruct (reaction p), ok; reflexivity.
Qed.

(** What [togglePlay] does on a paused player with tracks, once [play()]
    has been called. *)
Lemma togglePlay_through_resume_paused (a : App) :
  mediaRef a <> None -> tracks a <> [] -> isPlaying a = false ->
  pending (togglePlay_through_resume a)
  = pending a ++ [mkPromise cmd_play catch_console_error] /\
  isPlaying (togglePlay_through_resume a) = true /\
  count is_unhandled (calls (togglePlay_through_resume a))
  = count is_unhandled (calls a).
Proof.
  intros Hm Ht Hp.
  assert (Hlen : (len (tracks a) =? 0) = false).
  { apply Z.eqb_neq. unfold len. destruct (tracks a); [congruence | ].
    simpl List.length. lia. }
  unfold togglePlay_through_resume.
  destruct (audioContextRef a) as [[[ | ]] | ] eqn:Ectx.
  - (* suspended: resume() is awaited, then fulfilled *)
    assert (Et : togglePlay a
                 = hold cmd_resume
                     (await_in_togglePlay false (currentTrackIndex a)
                        (len (tracks a)))
                     (call audioContext_resume a)).
    { unfold togglePlay. rewrite Hlen, Ectx.
      destruct (mediaRef a); [ | congruence].
      simpl. rewrite Hp. reflexivity. }
    rewrite Et.
    rewrite (settle_last (pending a)
               (mkPromise cmd_resume
                  (await_in_togglePlay false (currentTrackIndex a)
                     (len (tracks a)))) true)
      by reflexivity.
    simpl. rewrite Ectx. unfold togglePlay_rest, play_caught, hold, call.
    destruct (_ && _); simpl; rewrite !count_snoc; simpl;
      repeat split; lia.
  - unfold togglePlay. rewrite Hlen, Ectx, Hp.
    destruct (mediaRef a); [ | congruence].
    unfold togglePlay_rest, play_caught, hold, call.
    destruct (_ && _); simpl; rewrite !count_snoc; simpl;
      repeat split; lia.
  - unfold togglePlay. rewrite Hlen, Ectx, Hp.
    destruct (mediaRef a); [ | congruence].
    unfold togglePlay_rest, play_caught, hold, call.
    destruct (_ && _); simpl; rewrite !count_snoc; simpl;
      repeat split; lia.
Qed.

(** C3 (amended). When [togglePlay] starts playback on a paused player and
    the play command is later rejected, the rejection is caught and logged
    with [console.error] and nothing else happens: [isPlaying] stays true
    (the state does not go back to Paused), no other cell changes, and no
    rejection is left unhandled. *)
Theorem togglePlay_play_rejected (a : App) :
  mediaRef a <> None -> tracks a <> [] -> isPlaying a = false ->
  nth_error (pending (togglePlay_through_resume a)) (List.length (pending a))
  = Some (mkPromise cmd_play catch_console_error) /\
  isPlaying (togglePlay_through_resume a) = true /\
  settle (List.length (pending a)) false (togglePlay_through_resume a)
  = call (console_error cmd_play)
      (set_pending (pending a) (togglePlay_through_resume a)) /\
  isPlaying
    (settle (List.length (pending a)) false (togglePlay_through_resume a))
  = true /\
  count is_unhandled
    (calls
       (settle (List.length (pending a)) false (togglePlay_through_resume a)))
  = count is_unhandled (calls a).
Proof.
  intros Hm Ht Hp.
  destruct (togglePlay_through_resume_paused a Hm Ht Hp) as (Hpend & Hplay & Hun).
  rewrite (settle_last (pending a) (mkPromise cmd_play catch_console_error)
             false _ Hpend).
  rewrite Hpend, nth_error_last. simpl.
  rewrite count_snoc, Hun, Hplay. simpl. repeat split; lia.
Qed.

Lemma togglePlay_play_rejected_witness :
  nth_error (pending (togglePlay_through_resume one_track_paused))
    (List.length (pending one_track_paused))
  = Some (mkPromise cmd_play catch_console_error) /\
  isPlaying (togglePlay_through_resume one_track_paused) = true /\
  settle (List.length (pending one_track_paused)) false
    (togglePlay_through_resume one_track_paused)
  = call (console_error cmd_play)
      (set_pending (pending one_track_paused)
         (togglePlay_through_resume one_track_paused)) /\
  isPlaying
    (settle (List.length (pending one_track_paused)) false
       (togglePlay_through_resume one_track_paused))
  = true /\
  count is_unhandled
    (calls
       (settle (List.length (pending one_track_paused)) false
          (togglePlay_through_resume one_track_paused)))
  = count is_unhandled (calls one_track_paused).
Proof.
  apply (togglePlay_play_rejected one_track_paused);
    vm_compute; [discriminate | discriminate | reflexivity].
Defined.

(** C3, as stated, fails on the revert: a track is dropped, play is
    clicked, the play promise (the only one pending) is rejected; the
    failure is logged and [isPlaying] is still true. *)
Lemma togglePlay_failure_stays_playing :
  isPlaying one_track_ready = false /\
  pending (run [click_play] one_track_ready)
  = [mkPromise cmd_play catch_console_error] /\
  calls (run [click_play; settled 0 false] one_track_ready)
  = calls (run [click_play] one_track_ready) ++ [console_error cmd_play] /\
  isPlaying (run [click_play; settled 0 false] one_track_ready) = true /\
  isPlaying (run [click_play; settled 0 false] one_track_ready) <> false.
Proof. vm_compute. repeat split. discriminate. Qed.

(** C5 (amended). With OS fullscreen inactive, either toggle sets its flags
    before the request settles: the fullscreen toggle gives Fullscreen mode,
    the cinema toggle gives Cinema mode, controls hidden in both.  When the
    request is then rejected the rejection is logged with [console.error]
    and nothing else changes, so the flags stay as set while OS fullscreen
    is still inactive.  After any OS fullscreen-change notification the
    fullscreen flag equals the OS state, and a mode other than Normal is
    observed only with OS fullscreen active. *)
Theorem fullscreen_request_rejected (a : App) :
  fullscreenElement a = false ->
  (pending (toggleFullscreen a)
   = pending a ++ [mkPromise cmd_requestFullscreen catch_console_error] /\
   settle (List.length (pending a)) false (toggleFullscreen a)
   = call (console_error cmd_requestFullscreen)
       (set_pending (pending a) (toggleFullscreen a)) /\
   viewMode (settle (List.length (pending a)) false (toggleFullscreen a))
   = Fullscreen /\
   showControls (settle (List.length (pending a)) false (toggleFullscreen a))
   = false /\
   fullscreenElement
     (settle (List.length (pending a)) false (toggleFullscreen a)) = false) /\
  (pending (toggleVideoOnly a)
   = pending a ++ [mkPromise cmd_requestFullscreen catch_console_error] /\
   settle (List.length (pending a)) false (toggleVideoOnly a)
   = call (console_error cmd_requestFullscreen)
       (set_pending (pending a) (toggleVideoOnly a)) /\
   viewMode (settle (List.length (pending a)) false (toggleVideoOnly a))
   = Cinema /\
   showControls (settle (List.length (pending a)) false (toggleVideoOnly a))
   = false /\
   fullscreenElement
     (settle (List.length (pending a)) false (toggleVideoOnly a)) = false) /\
  (forall active,
     isFullscreen (dispatch (fullscreenchange active) a) = active /\
     fullscreenElement (dispatch (fullscreenchange active) a) = active /\
     (viewMode (dispatch (fullscreenchange active) a) <> Normal ->
      active = true)).
Proof.
  intro Hos. split; [ | split].
  - assert (Hp : pending (toggleFullscreen a)
                 = pending a ++ [mkPromise cmd_requestFullscreen catch_console_error])
      by (unfold toggleFullscreen; rewrite Hos; reflexivity).
    rewrite (settle_last (pending a) _ false _ Hp).
    split; [exact Hp | ]. split; [reflexivity | ].
    unfold toggleFullscreen. rewrite Hos. repeat split; auto.
  - assert (Hp : pending (toggleVideoOnly a)
                 = pending a ++ [mkPromise cmd_requestFullscreen catch_console_error])
      by (unfold toggleVideoOnly; rewrite Hos; reflexivity).
    rewrite (settle_last (pending a) _ false _ Hp).
    split; [exact Hp | ]. split; [reflexivity | ].
    unfold toggleVideoOnly. rewrite Hos. repeat split; auto.
  - intro active.
    destruct (dispatch_view_event a) as (_ & _ & ->).
    unfold handleFullscreenChange, viewMode. simpl.
    destruct active; simpl; repeat split; auto; congruence.
Qed.

Lemma fullscreen_request_rejected_witness :
  (pending (toggleFullscreen one_track_ready)
   = pending one_track_ready
     ++ [mkPromise cmd_requestFullscreen catch_console_error] /\
   settle (List.length (pending one_track_ready)) false
     (toggleFullscreen one_track_ready)
   = call (console_error cmd_requestFullscreen)
       (set_pending (pending one_track_ready)
          (toggleFullscreen one_track_ready)) /\
   viewMode
     (settle (List.length (pending one_track_ready)) false
        (toggleFullscreen one_track_ready)) = Fullscreen /\
   showControls
     (settle (List.length (pending one_track_ready)) false
        (toggleFullscreen one_track_ready)) = false /\
   fullscreenElement
     (settle (List.length (pending one_track_ready)) false
        (toggleFullscreen one_track_ready)) = false) /\
  (pending (toggleVideoOnly one_track_ready)
   = pending one_track_ready
     ++ [mkPromise cmd_requestFullscreen catch_console_error] /\
   settle (List.length (pending one_track_ready)) false
     (toggleVideoOnly one_track_ready)
   = call (console_error cmd_requestFullscreen)
       (set_pending (pending one_track_ready)
          (toggleVideoOnly one_track_ready)) /\
   viewMode
     (settle (List.length (pending one_track_ready)) false
        (toggleVideoOnly one_track_ready)) = Cinema /\
   showControls
     (settle (List.length (pending one_track_ready)) false
        (toggleVideoOnly one_track_ready)) = false /\
   fullscreenElement
     (settle (List.length (pending one_track_ready)) false
        (toggleVideoOnly one_track_ready)) = false) /\
  (forall active,
     isFullscreen (dispatch (fullscreenchange active) one_track_ready)
     = active /\
     fullscreenElement (dispatch (fullscreenchange active) one_track_ready)
     = active /\
     (viewMode (dispatch (fullscreenchange active) one_track_ready) <> Normal ->
      active = true)).
Proof. apply (fullscreen_request_rejected one_track_ready). reflexivity. Defined.

(** C5, as stated, fails: on the freshly mounted player (Normal mode,
    controls shown) the fullscreen button is clicked and the request, the
    only pending promise, is rejected; the mode is then Fullscreen and the
    controls are hidden although OS fullscreen never became active.  The
    same with the cinema button gives Cinema. *)
Lemma rejected_request_changes_view_mode :
  viewMode (mount running) = Normal /\
  showControls (mount running) = true /\
  viewMode (run [click_fullscreen; settled 0 false] (mount running))
  = Fullscreen /\
  showControls (run [click_fullscreen; settled 0 false] (mount running))
  = false /\
  fullscreenElement (run [click_fullscreen; settled 0 false] (mount running))
  = false /\
  viewMode (run [click_cinema; settled 0 false] (mount running)) = Cinema /\
  fullscreenElement (run [click_cinema; settled 0 false] (mount running))
  = false.
Proof. vm_compute. repeat split. Qed.

(** *** C4: seeking *)



(** The other promise of [togglePlay]: when [resume()] is rejected the
    function stops at its [await]; no state cell changes, no play command is
    issued, and the rejection of [togglePlay]'s own promise has no
    handler. *)
Lemma togglePlay_resume_rejected (a : App) :
  mediaRef a <> None -> tracks a <> [] ->
  audioContextRef a = Some (AudioContext.mk suspended) ->
  settle (List.length (pending a)) false (togglePlay a)
  = call (unhandled_rejection cmd_resume) (call audioContext_resume a).
Proof.
  intros Hm Ht Hctx.
  assert (Hlen : (len (tracks a) =? 0) = false).
  { apply Z.eqb_neq. unfold len. destruct (tracks a); [congruence | ].
    simpl List.length. lia. }
  assert (Et : togglePlay a
               = hold cmd_resume
                   (await_in_togglePlay (isPlaying a) (currentTrackIndex a)
                      (len (tracks a)))
                   (call audioContext_resume a)).
  { unfold togglePlay. rewrite Hlen, Hctx.
    destruct (mediaRef a); [reflexivity | congruence]. }
  rewrite Et.
  rewrite (settle_last (pending a)
             (mkPromise cmd_resume
                (await_in_togglePlay (isPlaying a) (currentTrackIndex a)
                   (len (tracks a)))) false)
    by reflexivity.
  reflexivity.
Qed.

(** * Further properties of the component *)

(** ** Volume *)

(** X2. [adjustVolume] leaves a volume within [0, 1] whatever the step is
    (when the sum is a number), clears the mute flag and shows the overlay
    with the new value. *)
Theorem adjustVolume_clamped (delta : JS.number) (a : App) :
  is_nan (volume a + delta)%float = false ->
  (0 <=? volume (adjustVolume delta a))%float = true /\
  (volume (adjustVolume delta a) <=? 1)%float = true /\
  isMuted (adjustVolume delta a) = false /\
  volumeIndicator (adjustVolume delta a)
  = mkVolumeIndicator (volume (adjustVolume delta a)) true.
Proof.
  intro Hn.
  destruct (clamp0_range 1%float (volume a + delta)%float eq_refl Hn)
    as [Hlo Hhi].
  unfold adjustVolume, showVolumeOverlay, set_timeout, clear_timeout, call.
  destruct (volumeTimeoutRef _); simpl; repeat split; assumption.
Qed.

Lemma adjustVolume_clamped_witness :
  (0 <=? volume (adjustVolume 0.05%float one_track_ready))%float = true /\
  (volume (adjustVolume 0.05%float one_track_ready) <=? 1)%float = true /\
  isMuted (adjustVolume 0.05%float one_track_ready) = false /\
  volumeIndicator (adjustVolume 0.05%float one_track_ready)
  = mkVolumeIndicator (volume (adjustVolume 0.05%float one_track_ready)) true.
Proof.
  apply (adjustVolume_clamped 0.05%float one_track_ready). reflexivity.
Defined.

(** X3. The mute button flips [isMuted] and leaves [volume] alone; the
    effect that follows gives the attached media element the volume 0 when
    now muted and the stored volume when now unmuted. *)
Theorem mute_keeps_volume (a : App) (el : HTMLMediaElement.t) :
  mediaRef a = Some el ->
  isMuted (dispatch click_mute a) = negb (isMuted a) /\
  volume (dispatch click_mute a) = volume a /\
  option_map HTMLMediaElement.volume (mediaRef (dispatch click_mute a))
  = Some (if isMuted a then volume a else 0%float) /\
  calls (dispatch click_mute a)
  = calls a ++ [media_set_volume (if isMuted a then volume a else 0%float)].
Proof.
  intro Hm. unfold dispatch, run_effects. simpl.
  rewrite Object_is_refl, Object_is_integer_refl.
  unfold volume_effect, call. simpl. rewrite Hm.
  destruct (isMuted a); simpl; repeat split; reflexivity.
Qed.

Lemma mute_keeps_volume_witness :
  isMuted (dispatch click_mute one_track_ready) = true /\
  volume (dispatch click_mute one_track_ready) = volume one_track_ready /\
  option_map HTMLMediaElement.volume
    (mediaRef (dispatch click_mute one_track_ready))
  = Some 0%float /\
  calls (dispatch click_mute one_track_ready)
  = calls one_track_ready ++ [media_set_volume 0%float].
Proof.
  apply (mute_keeps_volume one_track_ready
           (HTMLMediaElement.mk 0%float nan 0.7%float)).
  reflexivity.
Defined.

(** ** Timers: one pending timeout per concern *)

Lemma timers_tracked_view (a a' : App) :
  timer_view a' = timer_view a -> timers_tracked a -> timers_tracked a'.
Proof.
  unfold timer_view, timers_tracked. intros E [Hnd H].
  injection E as Et En Ev Ec.
  rewrite Et, En. split; [exact Hnd | ].
  intros id task Hin. destruct (H id task Hin) as [Hlt Href].
  split; [exact Hlt | ].
  destruct task; simpl in *; congruence.
Qed.

Lemma NoDup_map_filter {A B : Type} (f : A -> B) (g : A -> bool) (l : list A) :
  NoDup (map f l) -> NoDup (map f (filter g l)).
Proof.
  induction l as [| x r IH]; simpl; intro H.
  - constructor.
  - inversion H as [| ? ? Hnotin Hr]; subst.
    destruct (g x); simpl; [ | apply IH; exact Hr].
    constructor; [ | apply IH; exact Hr].
    intro Hin. apply Hnotin.
    apply in_map_iff in Hin. destruct Hin as (y & Ey & Hy).
    apply filter_In in Hy. apply in_map_iff. exists y. tauto.
Qed.

(** Clearing what the ref of [task] holds and setting a new timeout for
    [task] keeps the bookkeeping. *)
Lemma timers_tracked_rearm (a a' : App) (task : TimerTask) :
  timers_tracked a ->
  timers a'
  = match timeout_ref task a with
    | Some old => filter (fun p => negb (Nat.eqb (fst p) old)) (timers a)
    | None => timers a
    end ++ [(next_timer a, task)] ->
  next_timer a' = S (next_timer a) ->
  timeout_ref task a' = Some (next_timer a) ->
  (forall t, same_task t task = false -> timeout_ref t a' = timeout_ref t a) ->
  timers_tracked a'.
Proof.
  intros [Hnd H] Et En Eref Hother.
  set (kept := match timeout_ref task a with
               | Some old => filter (fun p => negb (Nat.eqb (fst p) old)) (timers a)
               | None => timers a
               end) in *.
  assert (Hsub : forall p, In p kept -> In p (timers a)).
  { intros p Hp. unfold kept in Hp. destruct (timeout_ref task a); [ | exact Hp].
    apply filter_In in Hp. tauto. }
  assert (Hnone : forall id, ~ In (id, task) kept).
  { intros id Hin. pose proof (Hsub _ Hin) as Hin'.
    destruct (H id task Hin') as [_ Href].
    unfold kept in Hin. rewrite Href in Hin.
    apply filter_In in Hin. destruct Hin as [_ Hne]. simpl in Hne.
    rewrite Nat.eqb_refl in Hne. discriminate. }
  assert (Hkept_nd : NoDup (map fst kept)).
  { unfold kept. destruct (timeout_ref task a); [ | exact Hnd].
    apply NoDup_map_filter. exact Hnd. }
  split.
  - rewrite Et, map_app. simpl.
    apply NoDup_app; [exact Hkept_nd | repeat constructor; intros [] | ].
    intros id Hin [Hid | []]. subst id.
    apply in_map_iff in Hin. destruct Hin as ([id t] & Eid & Hp).
    simpl in Eid. subst id.
    destruct (H _ _ (Hsub _ Hp)) as [Hlt _]. lia.
  - intros id t Hin. rewrite Et in Hin. rewrite En.
    apply in_app_or in Hin. destruct Hin as [Hin | [Hin | []]].
    + destruct (H _ _ (Hsub _ Hin)) as [Hlt Href].
      split; [lia | ].
      destruct (same_task t task) eqn:Est.
      * exfalso. apply (Hnone id).
        destruct t, task; try discriminate; exact Hin.
      * rewrite Hother by exact Est. exact Href.
    + injection Hin as <- <-. split; [lia | exact Eref].
Qed.

Lemma adjustVolume_view (delta : JS.number) (a : App) :
  timers (adjustVolume delta a)
  = match volumeTimeoutRef a with
    | Some old => filter (fun p => negb (Nat.eqb (fst p) old)) (timers a)
    | None => timers a
    end ++ [(next_timer a, hide_volume_indicator)] /\
  next_timer (adjustVolume delta a) = S (next_timer a) /\
  volumeTimeoutRef (adjustVolume delta a) = Some (next_timer a) /\
  controlsTimeoutRef (adjustVolume delta a) = controlsTimeoutRef a.
Proof.
  unfold adjustVolume, showVolumeOverlay, set_timeout, clear_timeout, call.
  simpl. destruct (volumeTimeoutRef a); simpl; auto.
Qed.

Lemma adjustVolume_tracked (delta : JS.number) (a : App) :
  timers_tracked a -> timers_tracked (adjustVolume delta a).
Proof.
  intro H. destruct (adjustVolume_view delta a) as (Et & En & Ev & Ec).
  apply (timers_tracked_rearm a _ hide_volume_indicator H); auto.
  intros [ | ] Ht; simpl in *; [discriminate | exact Ec].
Qed.

Lemma handleMouseMove_tracked (a : App) :
  timers_tracked a -> timers_tracked (handleMouseMove a).
Proof.
  intro H. unfold handleMouseMove.
  destruct (negb (isVideoOnly a) && negb (isFullscreen a)).
  - apply (timers_tracked_view a); [reflexivity | exact H].
  - apply (timers_tracked_rearm a _ hide_controls H);
      unfold set_timeout, clear_timeout, call; simpl;
      try (destruct (controlsTimeoutRef a); reflexivity).
    intros [ | ] Ht; simpl in *; [ | discriminate].
    destruct (controlsTimeoutRef a); reflexivity.
Qed.

Lemma fire_tracked (id : nat) (a : App) :
  timers_tracked a -> timers_tracked (fire id a).
Proof.
  intros [Hnd H]. unfold fire.
  destruct (find _ (timers a)) as [[k task] | ]; [ | split; assumption].
  assert (Hf : timers_tracked
                 (set_timers
                    (filter (fun p => negb (Nat.eqb (fst p) id)) (timers a)) a)).
  { split; simpl.
    - apply NoDup_map_filter. exact Hnd.
    - intros i t Hin. apply filter_In in Hin. destruct Hin as [Hin _].
      destruct (H i t Hin) as [Hlt Href]. split; [exact Hlt | ].
      destruct t; exact Href. }
  destruct task; (eapply timers_tracked_view; [ | exact Hf]); reflexivity.
Qed.

Ltac view_frame :=
  unfold timer_view; unfold_handlers;
  repeat (simpl; rewrite ?create_object_urls_spec; try break_match);
  simpl in *; try reflexivity; try congruence.

Lemma run_effects_timer_view (before a : App) :
  timer_view (run_effects before a) = timer_view a.
Proof. unfold run_effects. view_frame. Qed.

Lemma toggles_timer_view (a : App) :
  timer_view (togglePlay a) = timer_view a /\
  timer_view (toggleVideoOnly a) = timer_view a /\
  timer_view (toggleFullscreen a) = timer_view a /\
  (forall d, timer_view (seek d a) = timer_view a) /\
  timer_view (call preventDefault a) = timer_view a.
Proof. repeat split; intros; view_frame. Qed.

Lemma handleKeyDown_tracked (key : string) (a : App) :
  timers_tracked a -> timers_tracked (handleKeyDown key a).
Proof.
  intro H. unfold handleKeyDown.
  assert (Hp : timers_tracked
                 (if JS.includes key
                       [" "; "ArrowUp"; "ArrowDown"; "ArrowLeft"; "ArrowRight"]
                  then call preventDefault a else a)).
  { destruct (JS.includes _ _); [ | exact H].
    apply (timers_tracked_view a); [reflexivity | exact H]. }
  set (b := if JS.includes key _ then call preventDefault a else a) in *.
  clearbody b.
  destruct (toggles_timer_view b) as (Hplay & Hvid & Hfs & Hseek & _).
  repeat match goal with
         | |- context [if ?c then _ else _] => destruct c
         end;
    try exact Hp;
    try (apply adjustVolume_tracked; exact Hp);
    try (eapply timers_tracked_view; [ | exact Hp]; auto).
Qed.

Lemma handle_tracked (e : Event) (a : App) :
  timers_tracked a -> timers_tracked (handle e a).
Proof.
  intro H.
  destruct e; simpl handle;
    try (apply handleKeyDown_tracked; exact H);
    try (apply adjustVolume_tracked; exact H);
    try (apply handleMouseMove_tracked; exact H);
    try (apply fire_tracked; exact H);
    try (apply (timers_tracked_view a); [ | exact H];
         try (unfold audio_graph_effect); view_frame).
Qed.

Lemma run_tracked (es : list Event) (a : App) :
  timers_tracked a -> timers_tracked (run es a).
Proof.
  revert a. induction es as [| e r IH]; intros a H; [exact H | ].
  change (run (e :: r) a) with (run r (dispatch e a)).
  apply IH. unfold dispatch.
  apply (timers_tracked_view (handle e a));
    [apply run_effects_timer_view | apply handle_tracked; exact H].
Qed.

Lemma mount_tracked (st : AudioContextState) : timers_tracked (mount st).
Proof. split; simpl; [constructor | intros id task []]. Qed.

Lemma tracked_at_most_one (task : TimerTask) (a : App) :
  timers_tracked a -> (List.length (pending_timers task a) <= 1)%nat.
Proof.
  intros [Hnd H]. unfold pending_timers.
  assert (Hnd' : NoDup (map fst (filter (fun p => same_task (snd p) task) (timers a))))
    by (apply NoDup_map_filter; exact Hnd).
  assert (Hall : forall id,
             In id (map fst (filter (fun p => same_task (snd p) task) (timers a))) ->
             timeout_ref task a = Some id).
  { intros id Hin. apply in_map_iff in Hin. destruct Hin as ([i t] & Ei & Hp).
    simpl in Ei. subst i. apply filter_In in Hp. destruct Hp as [Hp Hs].
    simpl in Hs. destruct (H _ _ Hp) as [_ Href].
    destruct t, task; try discriminate; exact Href. }
  destruct (map fst (filter _ (timers a))) as [| x [| y r]]; simpl; try lia.
  exfalso.
  assert (Ex : timeout_ref task a = Some x) by (apply Hall; simpl; auto).
  assert (Ey : timeout_ref task a = Some y) by (apply Hall; simpl; auto).
  inversion Hnd' as [| ? ? Hnotin _]; subst.
  apply Hnotin. left. congruence.
Qed.

(** X4. Whatever events follow the mount, at most one timeout that hides
    the volume overlay and at most one timeout that hides the controls are
    pending: each new one replaces the one before it. *)
Theorem one_pending_timeout_per_concern (st : AudioContextState)
    (es : list Event) (task : TimerTask) :
  (List.length (pending_timers task (run es (mount st))) <= 1)%nat.
Proof.
  apply tracked_at_most_one. apply run_tracked. apply mount_tracked.
Qed.

Lemma find_app {A : Type} (f : A -> bool) (l1 l2 : list A) :
  find f (l1 ++ l2)
  = match find f l1 with Some x => Some x | None => find f l2 end.
Proof.
  induction l1 as [| x r IH]; simpl; [reflexivity | ].
  destruct (f x); [reflexivity | exact IH].
Qed.

Lemma find_filter_negb {A : Type} (f : A -> bool) (l : list A) :
  find f (filter (fun p => negb (f p)) l) = None.
Proof.
  induction l as [| x r IH]; simpl; [reflexivity | ].
  destruct (f x) eqn:E; simpl; [exact IH | rewrite E; exact IH].
Qed.

Lemma find_none {A : Type} (f : A -> bool) (l : list A) :
  (forall x, In x l -> f x = false) -> find f l = None.
Proof.
  induction l as [| x r IH]; simpl; intro H; [reflexivity | ].
  rewrite (H x) by auto. apply IH. intros y Hy. apply H. auto.
Qed.

Lemma run_effects_overlay (before a : App) :
  volumeIndicator (run_effects before a) = volumeIndicator a /\
  volume (run_effects before a) = volume a /\
  showControls (run_effects before a) = showControls a.
Proof.
  unfold run_effects. unfold_handlers.
  repeat (simpl; try break_match); auto.
Qed.

Lemma run_effects_timer_fields (before a : App) :
  timers (run_effects before a) = timers a /\
  next_timer (run_effects before a) = next_timer a /\
  volumeTimeoutRef (run_effects before a) = volumeTimeoutRef a /\
  controlsTimeoutRef (run_effects before a) = controlsTimeoutRef a.
Proof.
  pose proof (run_effects_timer_view before a) as H.
  unfold timer_view in H. injection H as H1 H2 H3 H4. auto.
Qed.

Lemma adjustVolume_overlay (delta : JS.number) (a : App) :
  volumeIndicator (adjustVolume delta a)
  = mkVolumeIndicator (volume (adjustVolume delta a)) true.
Proof.
  unfold adjustVolume, showVolumeOverlay, set_timeout, clear_timeout, call.
  simpl. destruct (volumeTimeoutRef a); reflexivity.
Qed.

Lemma run_two_more (es : list Event) (e1 e2 : Event) (a : App) :
  run (es ++ [e1; e2]) a = dispatch e2 (dispatch e1 (run es a)).
Proof. unfold run. rewrite fold_left_app. reflexivity. Qed.

Lemma volume_overlay_debounced_from (a : App) (d1 d2 : JS.number) :
  timers_tracked a ->
  let a1 := dispatch (wheel d1) a in
  let a2 := dispatch (wheel d2) a1 in
  volumeTimeoutRef a1 = Some (next_timer a) /\
  volumeTimeoutRef a2 = Some (S (next_timer a)) /\
  volumeIndicator a2 = mkVolumeIndicator (volume a2) true /\
  dispatch (timeout (next_timer a)) a2 = a2 /\
  volumeIndicator (dispatch (timeout (S (next_timer a))) a2)
  = mkVolumeIndicator (volume a2) false.
Proof.
  intros Htr a1 a2.
  set (s1 := if (0 <? d1)%float then (-0.05)%float else 0.05%float).
  set (s2 := if (0 <? d2)%float then (-0.05)%float else 0.05%float).
  assert (E1 : a1 = run_effects a (adjustVolume s1 a)) by reflexivity.
  assert (E2 : a2 = run_effects a1 (adjustVolume s2 a1)) by reflexivity.
  clearbody a1 a2.
  destruct (run_effects_timer_fields a (adjustVolume s1 a))
    as (T1 & N1 & R1 & C1).
  rewrite <- E1 in T1, N1, R1, C1.
  destruct (adjustVolume_view s1 a) as (Et1 & En1 & Ev1 & Ec1).
  destruct (run_effects_timer_fields a1 (adjustVolume s2 a1))
    as (T2 & N2 & R2 & C2).
  rewrite <- E2 in T2, N2, R2, C2.
  destruct (adjustVolume_view s2 a1) as (Et2 & En2 & Ev2 & Ec2).
  destruct (run_effects_overlay a1 (adjustVolume s2 a1)) as (I2 & Vol2 & _).
  rewrite <- E2 in I2, Vol2.
  assert (Eind : volumeIndicator a2 = mkVolumeIndicator (volume a2) true).
  { rewrite I2, Vol2. apply adjustVolume_overlay. }
  assert (Hold : find (fun p => Nat.eqb (fst p) (next_timer a)) (timers a2) = None).
  { rewrite T2, Et2, R1, Ev1, find_app, find_filter_negb, N1, En1.
    cbn [find fst]. rewrite (proj2 (Nat.eqb_neq _ _)) by lia. reflexivity. }
  assert (Hnew : find (fun p => Nat.eqb (fst p) (S (next_timer a))) (timers a2)
                 = Some (S (next_timer a), hide_volume_indicator)).
  { rewrite T2, Et2, R1, Ev1, N1, En1, find_app.
    rewrite find_none; [cbn [find fst]; rewrite Nat.eqb_refl; reflexivity | ].
    intros [i t] Hin. apply filter_In in Hin. destruct Hin as [Hin _].
    rewrite T1, Et1 in Hin. cbn [fst].
    apply in_app_or in Hin. destruct Hin as [Hin | [Hin | []]].
    - assert (Hin' : In (i, t) (timers a)).
      { destruct (volumeTimeoutRef a); [ | exact Hin].
        apply filter_In in Hin. tauto. }
      destruct Htr as [_ H]. destruct (H _ _ Hin') as [Hlt _].
      apply Nat.eqb_neq. lia.
    - injection Hin as <- <-. apply Nat.eqb_neq. lia. }
  repeat split.
  - rewrite R1. exact Ev1.
  - rewrite R2, Ev2, N1, En1. reflexivity.
  - exact Eind.
  - unfold dispatch. simpl handle. unfold fire. rewrite Hold.
    apply run_effects_same.
  - unfold dispatch. simpl handle.
    destruct (run_effects_overlay a2 (fire (S (next_timer a)) a2)) as (-> & _ & _).
    unfold fire. rewrite Hnew. simpl. rewrite Eind. reflexivity.
Qed.

(** X5. The volume overlay is debounced.  After two volume changes in a
    row (here by the wheel), in any state the player can reach, the overlay
    shows the latest volume; the timeout of the first change is gone, so
    its firing changes nothing; the timeout of the second change, when it
    fires, hides the overlay and keeps the value it shows. *)
Theorem volume_overlay_debounced (st : AudioContextState) (es : list Event)
    (d1 d2 : JS.number) :
  volumeTimeoutRef (dispatch (wheel d1) (run es (mount st)))
  = Some (next_timer (run es (mount st))) /\
  volumeTimeoutRef (run (es ++ [wheel d1; wheel d2]) (mount st))
  = Some (S (next_timer (run es (mount st)))) /\
  volumeIndicator (run (es ++ [wheel d1; wheel d2]) (mount st))
  = mkVolumeIndicator (volume (run (es ++ [wheel d1; wheel d2]) (mount st)))
      true /\
  dispatch (timeout (next_timer (run es (mount st))))
    (run (es ++ [wheel d1; wheel d2]) (mount st))
  = run (es ++ [wheel d1; wheel d2]) (mount st) /\
  volumeIndicator
    (dispatch (timeout (S (next_timer (run es (mount st)))))
       (run (es ++ [wheel d1; wheel d2]) (mount st)))
  = mkVolumeIndicator (volume (run (es ++ [wheel d1; wheel d2]) (mount st)))
      false.
Proof.
  rewrite !run_two_more.
  apply (volume_overlay_debounced_from (run es (mount st)) d1 d2).
  apply run_tracked. apply mount_tracked.
Qed.

(** ** Moving through the playlist *)

Lemma at_index_some {A : Type} (l : list A) (i : Z) :
  0 <= i < len l -> exists x, at_index l i = Some x.
Proof.
  unfold at_index, len. intro H.
  destruct (Z.ltb_spec i 0) as [Hneg | _]; [lia | ].
  destruct (nth_error l (Z.to_nat i)) as [x | ] eqn:E; [exists x; reflexivity | ].
  apply nth_error_None in E. lia.
Qed.

Lemma len_pos {A : Type} (l : list A) : l <> [] -> 0 < len l.
Proof. destruct l; [congruence | ]. unfold len. simpl List.length. lia. Qed.

Lemma setCurrentTrackIndex_number_same (a : App) :
  setCurrentTrackIndex_number
    (currentTrackIndex a, currentTrackIndexIsNegativeZero a) a = a.
Proof. destruct a. reflexivity. Qed.

(** [%] with a dividend that is not negative never gives [-0]. *)
Lemma rem_of_nonneg (x n : Z) :
  0 <= x -> 0 < n -> JS.rem x n = (x mod n, false).
Proof.
  intros Hx Hn. unfold JS.rem. rewrite Z.rem_mod_nonneg by lia.
  destruct (Z.ltb_spec x 0); [lia | reflexivity].
Qed.

Lemma nextTrack_from (a : App) :
  tracks a <> [] -> -1 <= currentTrackIndex a ->
  nextTrack a
  = setCurrentTrackIndex ((currentTrackIndex a + 1) mod len (tracks a)) a.
Proof.
  intros Hne Hlo. pose proof (len_pos (tracks a) Hne) as Hpos.
  unfold nextTrack.
  destruct (Z.eqb_spec (len (tracks a)) 0) as [E | _]; [lia | ].
  rewrite rem_of_nonneg by lia. reflexivity.
Qed.

(** [prevTrack] from a selected track, or from no selection in a playlist
    of two tracks or more. *)
Lemma prevTrack_from (a : App) :
  tracks a <> [] -> 0 <= currentTrackIndex a - 1 + len (tracks a) ->
  prevTrack a
  = setCurrentTrackIndex
      ((currentTrackIndex a - 1 + len (tracks a)) mod len (tracks a)) a.
Proof.
  intros Hne Hlo. pose proof (len_pos (tracks a) Hne) as Hpos.
  unfold prevTrack.
  destruct (Z.eqb_spec (len (tracks a)) 0) as [E | _]; [lia | ].
  rewrite rem_of_nonneg by lia. reflexivity.
Qed.

(** [prevTrack] from no selection in a playlist of one track: [(-1) % 1]
    is [-0]. *)
Lemma prevTrack_negative_zero (a : App) :
  len (tracks a) = 1 -> currentTrackIndex a = -1 ->
  prevTrack a = setCurrentTrackIndex_number (0, true) a.
Proof.
  intros Hlen Hsel. unfold prevTrack, JS.rem. rewrite Hlen, Hsel. reflexivity.
Qed.

(** X6. On a playlist that is not empty and with the index in range (-1
    for no selection included), [nextTrack] and [prevTrack] leave an index
    between 0 and the last position and touch nothing else.  [nextTrack]
    never leaves [-0]; [prevTrack] leaves [-0] exactly from no selection in
    a playlist of one track.  From a selected track each undoes the other
    on the value of the index, and on the whole state when the index is not
    [-0] to begin with. *)
Theorem nextTrack_prevTrack_circular (a : App) :
  tracks a <> [] ->
  index_in_range a ->
  (0 <= currentTrackIndex (nextTrack a) < len (tracks a) /\
   0 <= currentTrackIndex (prevTrack a) < len (tracks a)) /\
  (nextTrack a = setCurrentTrackIndex (currentTrackIndex (nextTrack a)) a /\
   prevTrack a
   = setCurrentTrackIndex_number
       (currentTrackIndex (prevTrack a),
        currentTrackIndexIsNegativeZero (prevTrack a)) a) /\
  (currentTrackIndexIsNegativeZero (prevTrack a) = true <->
   currentTrackIndex a = -1 /\ len (tracks a) = 1) /\
  (0 <= currentTrackIndex a ->
   currentTrackIndex (prevTrack (nextTrack a)) = currentTrackIndex a /\
   currentTrackIndex (nextTrack (prevTrack a)) = currentTrackIndex a) /\
  (0 <= currentTrackIndex a ->
   currentTrackIndexIsNegativeZero a = false ->
   prevTrack (nextTrack a) = a /\ nextTrack (prevTrack a) = a).
Proof.
  intros Hne [Hlo Hhi]. pose proof (len_pos (tracks a) Hne) as Hpos.
  set (n := len (tracks a)) in *. set (i := currentTrackIndex a) in *.
  pose proof (nextTrack_from a Hne Hlo) as En. fold n i in En.
  assert (Rn : 0 <= (i + 1) mod n < n) by (apply Z.mod_pos_bound; lia).
  assert (Ep : prevTrack a
               = setCurrentTrackIndex_number
                   (if i - 1 + n =? -1 then (0, true)
                    else ((i - 1 + n) mod n, false)) a).
  { destruct (Z.eqb_spec (i - 1 + n) (-1)) as [E | E].
    - apply prevTrack_negative_zero; unfold n, i in *; lia.
    - rewrite (prevTrack_from a Hne) by (unfold n, i in *; lia). reflexivity. }
  assert (Rp : 0 <= currentTrackIndex (prevTrack a) < n).
  { rewrite Ep. destruct (i - 1 + n =? -1); simpl; [lia | ].
    apply Z.mod_pos_bound. lia. }
  assert (Sel : 0 <= i ->
                (((i + 1) mod n - 1 + n) mod n = i
                 /\ 0 <= (i + 1) mod n - 1 + n)
                /\ (((i - 1 + n) mod n + 1) mod n = i
                    /\ 0 <= i - 1 + n)).
  { intro Hsel. repeat split; try lia.
    - destruct (Z.eq_dec (i + 1) n) as [E | E].
      + rewrite E, Z.mod_same by lia. rewrite Z.mod_small by lia. lia.
      + rewrite (Z.mod_small (i + 1)) by lia.
        replace (i + 1 - 1 + n) with (i + 1 * n) by lia.
        rewrite Z.mod_add, Z.mod_small by lia. reflexivity.
    - destruct (Z.eq_dec i 0) as [E | E].
      + rewrite E. replace (0 - 1 + n) with (n - 1) by lia.
        rewrite (Z.mod_small (n - 1)) by lia.
        replace (n - 1 + 1) with n by lia. apply Z.mod_same. lia.
      + replace (i - 1 + n) with (i - 1 + 1 * n) by lia.
        rewrite Z.mod_add, (Z.mod_small (i - 1)) by lia.
        replace (i - 1 + 1) with i by lia. apply Z.mod_small. lia. }
  assert (Round : 0 <= i ->
                  prevTrack (nextTrack a) = setCurrentTrackIndex i a
                  /\ nextTrack (prevTrack a) = setCurrentTrackIndex i a).
  { intro Hsel. destruct (Sel Hsel) as [[E1 P1] [E2 P2]]. split.
    - rewrite En.
      rewrite (prevTrack_from (setCurrentTrackIndex ((i + 1) mod n) a))
        by (simpl; fold n; first [exact Hne | lia]).
      simpl. fold n. rewrite E1. reflexivity.
    - rewrite (prevTrack_from a Hne) by (fold i n; lia). fold i n.
      pose proof (Z.mod_pos_bound (i - 1 + n) n) as Hb.
      rewrite (nextTrack_from (setCurrentTrackIndex ((i - 1 + n) mod n) a))
        by (simpl; fold n; first [exact Hne | lia]).
      simpl. fold n. rewrite E2. reflexivity. }
  split; [ | split; [ | split; [ | split]]].
  - split; [rewrite En; simpl; exact Rn | exact Rp].
  - split; [rewrite En; reflexivity | ].
    rewrite Ep. destruct (i - 1 + n =? -1); reflexivity.
  - rewrite Ep. destruct (Z.eqb_spec (i - 1 + n) (-1)) as [E | E]; simpl;
      split; intro H; try discriminate; try lia; auto.
  - intro Hsel. destruct (Round Hsel) as [-> ->]. simpl. auto.
  - intros Hsel Hz. destruct (Round Hsel) as [-> ->].
    pose proof (setCurrentTrackIndex_number_same a) as Hsame.
    fold i in Hsame. rewrite Hz in Hsame. auto.
Qed.

Lemma nextTrack_prevTrack_circular_witness :
  (0 <= currentTrackIndex (nextTrack second_track_active)
   < len (tracks second_track_active) /\
   0 <= currentTrackIndex (prevTrack second_track_active)
   < len (tracks second_track_active)) /\
  (nextTrack second_track_active
   = setCurrentTrackIndex (currentTrackIndex (nextTrack second_track_active))
       second_track_active /\
   prevTrack second_track_active
   = setCurrentTrackIndex_number
       (currentTrackIndex (prevTrack second_track_active),
        currentTrackIndexIsNegativeZero (prevTrack second_track_active))
       second_track_active) /\
  (currentTrackIndexIsNegativeZero (prevTrack second_track_active) = true <->
   currentTrackIndex second_track_active = -1
   /\ len (tracks second_track_active) = 1) /\
  (0 <= currentTrackIndex second_track_active ->
   currentTrackIndex (prevTrack (nextTrack second_track_active))
   = currentTrackIndex second_track_active /\
   currentTrackIndex (nextTrack (prevTrack second_track_active))
   = currentTrackIndex second_track_active) /\
  (0 <= currentTrackIndex second_track_active ->
   currentTrackIndexIsNegativeZero second_track_active = false ->
   prevTrack (nextTrack second_track_active) = second_track_active /\
   nextTrack (prevTrack second_track_active) = second_track_active).
Proof.
  apply (nextTrack_prevTrack_circular second_track_active).
  - vm_compute. discriminate.
  - split; vm_compute; congruence.
Defined.

(** X7. When the only track of the playlist ends and the index is [0],
    nothing changes: the index stays [0], so the effect that starts playback
    on a new index does not run and no play command is issued, while
    [isPlaying] keeps its value.  When the index is [-0] (left by
    [prevTrack] from no selection), [nextTrack] stores [0]: React takes it
    for a change and the effect issues one play command if the player is
    playing. *)
Theorem ended_single_track (a : App) (el : HTMLMediaElement.t) :
  mediaRef a = Some el ->
  len (tracks a) = 1 ->
  currentTrackIndex a = 0 ->
  if currentTrackIndexIsNegativeZero a
  then
    currentTrackIndex (dispatch ended a) = 0 /\
    currentTrackIndexIsNegativeZero (dispatch ended a) = false /\
    isPlaying (dispatch ended a) = isPlaying a /\
    calls (dispatch ended a)
    = calls a ++ (if isPlaying a then [media_play] else [])
  else dispatch ended a = a.
Proof.
  intros Hm Hlen Hsel.
  assert (Hne : tracks a <> []).
  { intro E. rewrite E in Hlen. discriminate. }
  assert (En : nextTrack a = setCurrentTrackIndex 0 a).
  { rewrite (nextTrack_from a Hne) by lia. rewrite Hlen, Hsel. reflexivity. }
  unfold dispatch. simpl handle. rewrite En.
  destruct (currentTrackIndexIsNegativeZero a) eqn:Hz.
  - destruct (at_index_some (tracks a) 0) as [t Ht]; [lia | ].
    unfold run_effects. simpl.
    rewrite Object_is_refl, Bool.eqb_reflx.
    unfold JS.Object_is_integer. simpl. rewrite Hsel, Hz. simpl.
    unfold play_effect, currentTrack. simpl. rewrite Ht, Hm.
    destruct (isPlaying a) eqn:Ep; simpl; rewrite ?app_nil_r; auto.
  - pose proof (setCurrentTrackIndex_number_same a) as Hsame.
    rewrite Hsel, Hz in Hsame.
    change (setCurrentTrackIndex 0 a)
      with (setCurrentTrackIndex_number (0, false) a).
    rewrite Hsame. apply run_effects_same.
Qed.

Lemma ended_single_track_witness :
  dispatch ended one_track_playing = one_track_playing /\
  (currentTrackIndex (dispatch ended one_track_at_negative_zero) = 0 /\
   currentTrackIndexIsNegativeZero (dispatch ended one_track_at_negative_zero)
   = false /\
   isPlaying (dispatch ended one_track_at_negative_zero) = true /\
   calls (dispatch ended one_track_at_negative_zero)
   = calls one_track_at_negative_zero ++ [media_play]).
Proof.
  split.
  - apply (ended_single_track one_track_playing
             (HTMLMediaElement.mk 0%float nan 0.7%float));
      reflexivity.
  - apply (ended_single_track one_track_at_negative_zero
             (HTMLMediaElement.mk 0%float nan 0.7%float));
      reflexivity.
Defined.

(** X8. When a track of a longer playlist ends, the index moves to the
    next position, wrapping at the end, and [isPlaying] keeps its value;
    exactly one play command, with its rejection handled, is issued if the
    player was playing, none if it was paused. *)
Theorem ended_advances (a : App) (el : HTMLMediaElement.t) :
  mediaRef a = Some el ->
  2 <= len (tracks a) ->
  0 <= currentTrackIndex a < len (tracks a) ->
  currentTrackIndex (dispatch ended a)
  = (currentTrackIndex a + 1) mod len (tracks a) /\
  isPlaying (dispatch ended a) = isPlaying a /\
  calls (dispatch ended a)
  = calls a ++ (if isPlaying a then [media_play] else []) /\
  pending (dispatch ended a)
  = pending a
    ++ (if isPlaying a then [mkPromise cmd_play catch_console_error] else []).
Proof.
  intros Hm Hlen Hsel.
  assert (Hz : (len (tracks a) =? 0) = false) by (apply Z.eqb_neq; lia).
  set (j := (currentTrackIndex a + 1) mod len (tracks a)).
  assert (Hj : 0 <= j < len (tracks a)) by (apply Z.mod_pos_bound; lia).
  assert (Hne : j <> currentTrackIndex a).
  { unfold j.
    destruct (Z.eq_dec (currentTrackIndex a + 1) (len (tracks a))) as [E | E].
    - rewrite E, Z.mod_same by lia. lia.
    - rewrite Z.mod_small by lia. lia. }
  assert (En : nextTrack a = setCurrentTrackIndex j a).
  { apply nextTrack_from; [ | lia]. intro E. rewrite E in Hlen.
    unfold len in Hlen. simpl in Hlen. lia. }
  destruct (at_index_some (tracks a) j Hj) as [t Ht].
  unfold dispatch, run_effects. simpl handle. rewrite En. simpl.
  rewrite Object_is_refl, Bool.eqb_reflx. unfold JS.Object_is_integer. simpl.
  destruct (Z.eqb_spec (currentTrackIndex a) j) as [E | _]; [congruence | ].
  simpl.
  unfold play_effect, currentTrack. simpl.
  destruct (Z.leb_spec 0 j) as [_ | H]; [ | lia].
  rewrite Ht, Hm.
  destruct (isPlaying a) eqn:Ep; simpl; rewrite ?app_nil_r; auto.
Qed.

Lemma ended_advances_witness :
  currentTrackIndex (dispatch ended second_track_active)
  = (currentTrackIndex second_track_active + 1)
    mod len (tracks second_track_active) /\
  isPlaying (dispatch ended second_track_active)
  = isPlaying second_track_active /\
  calls (dispatch ended second_track_active)
  = calls second_track_active
    ++ (if isPlaying second_track_active then [media_play] else []) /\
  pending (dispatch ended second_track_active)
  = pending second_track_active
    ++ (if isPlaying second_track_active
        then [mkPromise cmd_play catch_console_error] else []).
Proof.
  apply (ended_advances second_track_active
           (HTMLMediaElement.mk 0%float nan 0.7%float));
    vm_compute; try reflexivity; try discriminate.
  split; congruence.
Defined.

(** X9. [togglePlay] with tracks in the playlist but none selected (as
    after the removal of the active track) selects the first track and sets
    [isPlaying]; the play command is issued twice, once by the handler and
    once by the effect on the new index, each with its rejection handled. *)
Theorem togglePlay_from_stopped (a : App) (el : HTMLMediaElement.t) :
  mediaRef a = Some el ->
  tracks a <> [] ->
  currentTrackIndex a = -1 ->
  isPlaying a = false ->
  audioContextRef a <> Some (AudioContext.mk suspended) ->
  currentTrackIndex (dispatch click_play a) = 0 /\
  isPlaying (dispatch click_play a) = true /\
  calls (dispatch click_play a) = calls a ++ [media_play; media_play] /\
  pending (dispatch click_play a)
  = pending a
    ++ [mkPromise cmd_play catch_console_error;
        mkPromise cmd_play catch_console_error].
Proof.
  intros Hm Hne Hsel Hp Hctx.
  pose proof (len_pos (tracks a) Hne) as Hpos.
  assert (Hz : (len (tracks a) =? 0) = false) by (apply Z.eqb_neq; lia).
  assert (Hlt : (0 <? len (tracks a)) = true) by (apply Z.ltb_lt; lia).
  destruct (at_index_some (tracks a) 0) as [t Ht]; [lia | ].
  assert (Et : togglePlay a
               = setIsPlaying true (play_caught (setCurrentTrackIndex 0 a))).
  { unfold togglePlay, togglePlay_rest.
    rewrite Hm, Hz, Hp, Hsel, Hlt.
    destruct (audioContextRef a) as [[[ | ]] | ]; [congruence | | ]; reflexivity. }
  unfold dispatch, run_effects. simpl handle. rewrite Et. simpl.
  rewrite Object_is_refl, Bool.eqb_reflx, Hsel. simpl.
  unfold play_effect, currentTrack. simpl. rewrite Ht, Hm. simpl.
  rewrite <- !app_assoc. auto.
Qed.

(** Two tracks are dropped, the first is selected, then removed. *)
Lemma togglePlay_from_stopped_witness :
  currentTrackIndex
    (dispatch click_play
       (run [drop (Some [song "a" "blob:a"; clip "b" "blob:b"]);
             click_remove "a"] (mount running))) = 0 /\
  isPlaying
    (dispatch click_play
       (run [drop (Some [song "a" "blob:a"; clip "b" "blob:b"]);
             click_remove "a"] (mount running))) = true /\
  calls
    (dispatch click_play
       (run [drop (Some [song "a" "blob:a"; clip "b" "blob:b"]);
             click_remove "a"] (mount running)))
  = calls
      (run [drop (Some [song "a" "blob:a"; clip "b" "blob:b"]);
            click_remove "a"] (mount running))
    ++ [media_play; media_play] /\
  pending
    (dispatch click_play
       (run [drop (Some [song "a" "blob:a"; clip "b" "blob:b"]);
             click_remove "a"] (mount running)))
  = pending
      (run [drop (Some [song "a" "blob:a"; clip "b" "blob:b"]);
            click_remove "a"] (mount running))
    ++ [mkPromise cmd_play catch_console_error;
        mkPromise cmd_play catch_console_error].
Proof.
  apply (togglePlay_from_stopped _ (HTMLMediaElement.mk 0%float nan 0.7%float));
    vm_compute; try reflexivity; discriminate.
Defined.

(** X10. A click on a playlist row selects that row and sets [isPlaying];
    a play command is issued only when React sees the index change: when
    the row was not the selected one, or when it was selected with the index
    [-0] left by [prevTrack] (the row's own index is [0]).  So a click on
    the selected row of a paused player starts nothing, unless that index
    is [-0]. *)
Theorem track_click_plays_on_change (a : App) (el : HTMLMediaElement.t)
    (index : Z) (t : Track.t) :
  mediaRef a = Some el ->
  0 <= index ->
  at_index (tracks a) index = Some t ->
  currentTrackIndex (dispatch (click_track index) a) = index /\
  currentTrackIndexIsNegativeZero (dispatch (click_track index) a) = false /\
  isPlaying (dispatch (click_track index) a) = true /\
  calls (dispatch (click_track index) a)
  = calls a
    ++ (if (index =? currentTrackIndex a)
           && negb (currentTrackIndexIsNegativeZero a && (index =? 0))
        then [] else [media_play]) /\
  pending (dispatch (click_track index) a)
  = pending a
    ++ (if (index =? currentTrackIndex a)
           && negb (currentTrackIndexIsNegativeZero a && (index =? 0))
        then [] else [mkPromise cmd_play catch_console_error]).
Proof.
  intros Hm Hidx Ht.
  unfold dispatch, run_effects. simpl.
  rewrite Object_is_refl, Bool.eqb_reflx. unfold JS.Object_is_integer. simpl.
  assert (E : (currentTrackIndex a =? index)
              && (if currentTrackIndex a =? 0
                  then Bool.eqb (currentTrackIndexIsNegativeZero a) false
                  else true)
              = (index =? currentTrackIndex a)
                && negb (currentTrackIndexIsNegativeZero a && (index =? 0))).
  { destruct (Z.eqb_spec (currentTrackIndex a) index) as [E1 | E1];
      destruct (Z.eqb_spec index (currentTrackIndex a)) as [E2 | E2];
      try congruence; try reflexivity.
    rewrite E2.
    destruct (currentTrackIndex a =? 0), (currentTrackIndexIsNegativeZero a);
      reflexivity. }
  rewrite E.
  destruct ((index =? currentTrackIndex a)
            && negb (currentTrackIndexIsNegativeZero a && (index =? 0)));
    simpl; rewrite ?app_nil_r; auto.
  unfold play_effect, currentTrack. simpl.
  destruct (Z.leb_spec 0 index) as [_ | H]; [ | lia].
  rewrite Ht, Hm. simpl. auto.
Qed.

(** The selected row of a paused player: no play command; the same row
    when it is selected with index [-0]: one play command. *)
Lemma track_click_plays_on_change_witness :
  (currentTrackIndex (dispatch (click_track 0) one_track_ready) = 0 /\
   currentTrackIndexIsNegativeZero (dispatch (click_track 0) one_track_ready)
   = false /\
   isPlaying (dispatch (click_track 0) one_track_ready) = true /\
   calls (dispatch (click_track 0) one_track_ready)
   = calls one_track_ready ++ [] /\
   pending (dispatch (click_track 0) one_track_ready)
   = pending one_track_ready ++ []) /\
  (currentTrackIndex (dispatch (click_track 0) one_track_at_negative_zero) = 0 /\
   currentTrackIndexIsNegativeZero
     (dispatch (click_track 0) one_track_at_negative_zero) = false /\
   isPlaying (dispatch (click_track 0) one_track_at_negative_zero) = true /\
   calls (dispatch (click_track 0) one_track_at_negative_zero)
   = calls one_track_at_negative_zero ++ [media_play] /\
   pending (dispatch (click_track 0) one_track_at_negative_zero)
   = pending one_track_at_negative_zero
     ++ [mkPromise cmd_play catch_console_error]).
Proof.
  split.
  - apply (track_click_plays_on_change one_track_ready
             (HTMLMediaElement.mk 0%float nan 0.7%float) 0
             (Track.mk "a" "a" "blob:a" audio None));
      vm_compute; try reflexivity; discriminate.
  - apply (track_click_plays_on_change one_track_at_negative_zero
             (HTMLMediaElement.mk 0%float nan 0.7%float) 0
             (Track.mk "b" "b" "blob:b" video None));
      vm_compute; try reflexivity; discriminate.
Defined.

(** ** Keys *)

(** X11. A key other than Space, F, f, Enter and the four arrows does
    nothing at all: no state change, no call, [preventDefault] included. *)
Theorem keydown_other_key (key : string) (a : App) :
  ~ In key [" "; "f"; "F"; "ArrowUp"; "ArrowDown"; "ArrowLeft"; "ArrowRight";
            "Enter"] ->
  dispatch (keydown key) a = a.
Proof.
  intro H. unfold dispatch. simpl handle.
  assert (E : handleKeyDown key a = a).
  { unfold handleKeyDown, JS.includes. simpl existsb.
    repeat match goal with
           | |- context [String.eqb key ?k] =>
               let Hk := fresh in
               destruct (String.eqb_spec key k) as [Hk | Hk];
               [exfalso; apply H; rewrite Hk; simpl; tauto | ]
           end.
    reflexivity. }
  rewrite E. apply run_effects_same.
Qed.

Lemma keydown_other_key_witness :
  dispatch (keydown "enter") one_track_ready = one_track_ready.
Proof.
  apply keydown_other_key. simpl. intuition discriminate.
Defined.

(** ** Ingestion *)

Lemma filter_createObjectURL_created (fs : list File.t) :
  filter is_createObjectURL
    (map (fun f => createObjectURL (File.object_url f)) fs)
  = map createObjectURL (map File.object_url fs).
Proof. induction fs as [| f r IH]; simpl; [ | rewrite IH]; reflexivity. Qed.

Lemma newTracks_urls (files : list File.t) :
  map Track.url (newTracks files)
  = map File.object_url (filter accepted files).
Proof.
  unfold newTracks. induction (filter accepted files) as [| f r IH]; simpl;
    [ | rewrite IH]; reflexivity.
Qed.

(** X12. Both ingestion paths append the tracks made from the accepted
    files, in the order of the files, after the tracks already there, and
    do not touch [isPlaying].  An object URL is created for each accepted
    file and for no other, and each one is the [url] of the appended track
    made from that file. *)
Theorem ingestion_appends (files : list File.t) (a : App) :
  (tracks (handleDrop (Some files) a) = tracks a ++ newTracks files /\
   tracks (handleFileChange (Some files) a) = tracks a ++ newTracks files) /\
  (isPlaying (handleDrop (Some files) a) = isPlaying a /\
   isPlaying (handleFileChange (Some files) a) = isPlaying a) /\
  (filter is_createObjectURL (calls (handleDrop (Some files) a))
   = filter is_createObjectURL (calls a)
     ++ map createObjectURL (map Track.url (newTracks files)) /\
   filter is_createObjectURL (calls (handleFileChange (Some files) a))
   = filter is_createObjectURL (calls a)
     ++ map createObjectURL (map Track.url (newTracks files))) /\
  map Track.id (newTracks files)
  = map File.random_id (filter accepted files).
Proof.
  rewrite newTracks_urls.
  unfold handleDrop, handleFileChange. cbv zeta.
  rewrite !create_object_urls_spec.
  repeat split.
  - destruct (0 <? len (newTracks files)) eqn:E.
    + destruct (_ =? _); reflexivity.
    + simpl. apply Z.ltb_ge in E.
      destruct (newTracks files); [symmetry; apply app_nil_r | ].
      unfold len in E. simpl List.length in E. lia.
  - destruct (_ =? _); reflexivity.
  - destruct (0 <? _); [destruct (_ =? _) | ]; reflexivity.
  - destruct (_ =? _); reflexivity.
  - assert (E : forall b,
               calls b = (calls a ++ [preventDefault])
                         ++ map (fun f => createObjectURL (File.object_url f))
                              (filter accepted files) ->
               filter is_createObjectURL (calls b)
               = filter is_createObjectURL (calls a)
                 ++ map createObjectURL
                      (map File.object_url (filter accepted files))).
    { intros b ->. rewrite !filter_app, filter_createObjectURL_created.
      simpl. rewrite app_nil_r. reflexivity. }
    apply E. destruct (0 <? _); [destruct (_ =? _) | ]; reflexivity.
  - assert (E : forall b,
               calls b = calls a
                         ++ map (fun f => createObjectURL (File.object_url f))
                              (filter accepted files) ->
               filter is_createObjectURL (calls b)
               = filter is_createObjectURL (calls a)
                 ++ map createObjectURL
                      (map File.object_url (filter accepted files))).
    { intros b ->. rewrite !filter_app, filter_createObjectURL_created.
      reflexivity. }
    apply E. destruct (_ =? _); reflexivity.
  - unfold newTracks. rewrite map_map. reflexivity.
Qed.

Lemma split_last_dot_no_dot (s : string) :
  has_dot s = false -> split_last_dot s = None.
Proof.
  induction s as [| c r IH]; simpl; intro H; [reflexivity | ].
  apply orb_false_iff in H. destruct H as [Hc Hr].
  rewrite (IH Hr), Hc. reflexivity.
Qed.

Lemma split_last_dot_append (base ext : string) :
  has_dot ext = false ->
  split_last_dot (base ++ String "."%char ext)%string = Some (base, ext).
Proof.
  intro H. induction base as [| c r IH]; simpl.
  - rewrite (split_last_dot_no_dot ext H). reflexivity.
  - rewrite IH. reflexivity.
Qed.

(** X13. The track name is the file name without its extension: a name
    [base.ext], where [ext] is not empty and holds neither a dot nor a
    slash, gives [base], whatever [base] holds; a name without any dot is
    kept as it is. *)
Theorem strip_extension_base (base ext : string) :
  ext <> EmptyString ->
  has_dot ext = false ->
  has_slash ext = false ->
  strip_extension (base ++ String "."%char ext)%string = base /\
  strip_extension ext = ext /\
  (forall ty id url,
     Track.name (to_track (File.mk (base ++ String "."%char ext)%string ty id url))
     = base).
Proof.
  intros Hne Hdot Hslash.
  assert (E : strip_extension (base ++ String "."%char ext)%string = base).
  { unfold strip_extension. rewrite (split_last_dot_append base ext Hdot).
    rewrite Hslash. destruct ext; [congruence | reflexivity]. }
  repeat split.
  - exact E.
  - unfold strip_extension. rewrite (split_last_dot_no_dot ext Hdot).
    reflexivity.
  - intros. simpl. exact E.
Qed.

Lemma strip_extension_base_witness :
  strip_extension ("live/set.one.final" ++ String "."%char "mp3")%string
  = "live/set.one.final" /\
  strip_extension "mp3" = "mp3" /\
  (forall ty id url,
     Track.name
       (to_track
          (File.mk ("live/set.one.final" ++ String "."%char "mp3")%string
             ty id url))
     = "live/set.one.final").
Proof.
  apply (strip_extension_base "live/set.one.final" "mp3");
    [discriminate | reflexivity | reflexivity].
Defined.

(** ** Rejections *)

Lemma forallb_created (p : Call -> bool) (fs : list File.t) :
  (forall u, p (createObjectURL u) = true) ->
  forallb p (map (fun f => createObjectURL (File.object_url f)) fs) = true.
Proof.
  intro H. induction fs as [| f r IH]; simpl; [reflexivity | ].
  rewrite H. exact IH.
Qed.

Lemma forallb_remove_nth {A : Type} (p : A -> bool) (l : list A) (k : nat) :
  forallb p l = true ->
  forallb p (firstn k l ++ skipn (S k) l) = true.
Proof.
  revert k. induction l as [| x r IH]; intros k H.
  - rewrite firstn_nil, skipn_nil. reflexivity.
  - simpl in H. apply andb_true_iff in H. destruct H as [Hx Hr].
    destruct k as [| k]; simpl; [exact Hr | ].
    rewrite Hx. apply IH. exact Hr.
Qed.

Lemma forallb_nth_error {A : Type} (p : A -> bool) (l : list A) (k : nat) (x : A) :
  forallb p l = true -> nth_error l k = Some x -> p x = true.
Proof.
  intros H E. rewrite forallb_forall in H. apply H.
  apply (nth_error_In _ _ E).
Qed.

Ltac promises_frame :=
  unfold_handlers;
  repeat (simpl; rewrite ?create_object_urls_spec; try break_match);
  simpl in *;
  rewrite ?forallb_app, ?forallb_created by reflexivity; simpl;
  repeat match goal with
         | H : _ = true |- _ => rewrite H
         end;
  try reflexivity; try congruence; auto;
  try solve [repeat match goal with
                    | H : Some _ = Some _ |- _ => inversion H; clear H; subst
                    end;
             simpl in *; congruence].

Lemma run_effects_rejections_handled (before a : App) :
  rejections_handled a -> rejections_handled (run_effects before a).
Proof.
  unfold rejections_handled, run_effects. intros [Hp Hc].
  split; promises_frame.
Qed.

Lemma run_effects_all_caught (before a : App) :
  all_caught a -> all_caught (run_effects before a).
Proof.
  unfold all_caught, context_running, run_effects. intros (Hr & Hp & Hc).
  repeat split; promises_frame.
Qed.

Lemma settle_rejections_handled (k : nat) (ok : bool) (a : App) :
  rejections_handled a -> rejections_handled (settle k ok a).
Proof.
  unfold rejections_handled. intros [Hp Hc]. unfold settle.
  destruct (nth_error (pending a) k) as [p | ] eqn:E; [ | split; assumption].
  pose proof (forallb_nth_error _ _ _ _ Hp E) as Hk.
  pose proof (forallb_remove_nth _ _ k Hp) as Hrest.
  set (rest := firstn k (pending a) ++ skipn (S k) (pending a)) in *.
  clearbody rest. clear Hp E.
  unfold caught_or_resume in Hk.
  destruct (reaction p), ok, (command p); try discriminate;
    split; promises_frame.
Qed.

Lemma settle_all_caught (k : nat) (ok : bool) (a : App) :
  all_caught a -> all_caught (settle k ok a).
Proof.
  unfold all_caught, context_running. intros (Hr & Hp & Hc). unfold settle.
  destruct (nth_error (pending a) k) as [p | ] eqn:E; [ | repeat split; assumption].
  pose proof (forallb_nth_error _ _ _ _ Hp E) as Hk.
  pose proof (forallb_remove_nth _ _ k Hp) as Hrest.
  set (rest := firstn k (pending a) ++ skipn (S k) (pending a)) in *.
  clearbody rest. clear Hp E.
  unfold caught in Hk.
  destruct (reaction p), ok; try discriminate;
    repeat split; promises_frame.
Qed.

Lemma handle_rejections_handled (e : Event) (a : App) :
  rejections_handled a -> rejections_handled (handle e a).
Proof.
  intro H. destruct e; simpl handle;
    try (apply settle_rejections_handled; exact H);
    unfold rejections_handled in *; destruct H as [Hp Hc];
    try unfold audio_graph_effect;
    split; promises_frame.
Qed.

Lemma handle_all_caught (e : Event) (a : App) :
  all_caught a -> all_caught (handle e a).
Proof.
  intro H. destruct e; simpl handle;
    try (apply settle_all_caught; exact H);
    unfold all_caught, context_running in *; destruct H as (Hr & Hp & Hc);
    try unfold audio_graph_effect;
    repeat split; promises_frame.
Qed.

Lemma run_rejections_handled (es : list Event) (a : App) :
  rejections_handled a -> rejections_handled (run es a).
Proof.
  revert a. induction es as [| e r IH]; intros a H; [exact H | ].
  change (run (e :: r) a) with (run r (dispatch e a)).
  apply IH. unfold dispatch.
  apply run_effects_rejections_handled, handle_rejections_handled. exact H.
Qed.

Lemma run_all_caught (es : list Event) (a : App) :
  all_caught a -> all_caught (run es a).
Proof.
  revert a. induction es as [| e r IH]; intros a H; [exact H | ].
  change (run (e :: r) a) with (run r (dispatch e a)).
  apply IH. unfold dispatch.
  apply run_effects_all_caught, handle_all_caught. exact H.
Qed.

Lemma count_zero_forallb (p : Call -> bool) (l : list Call) :
  forallb (fun c => negb (p c)) l = true -> count p l = 0%nat.
Proof.
  unfold count. induction l as [| c r IH]; simpl; [reflexivity | ].
  intro H. apply andb_true_iff in H. destruct H as [Hc Hr].
  destruct (p c); [discriminate | apply IH; exact Hr].
Qed.

(** X14. Whatever events follow the mount, rejections included, the only
    rejection that can go unhandled is that of [AudioContext.resume()]
    behind the [await] of [togglePlay]: a rejected play, fullscreen request
    or fullscreen exit is always caught.  When the audio context starts
    out running, [resume()] is never called and no rejection is ever
    unhandled. *)
Theorem only_resume_rejection_unhandled (st : AudioContextState)
    (es : list Event) :
  forallb not_unhandled_but_resume (calls (run es (mount st))) = true /\
  count is_unhandled (calls (run es (mount running))) = 0%nat.
Proof.
  split.
  - apply (run_rejections_handled es (mount st)).
    split; destruct st; reflexivity.
  - apply count_zero_forallb.
    apply (run_all_caught es (mount running)).
    repeat split.
Qed.

(** ** View modes *)

(** X15. From Normal mode with OS fullscreen inactive: the fullscreen
    toggle, the OS entering fullscreen as requested (with its change
    notification), and the fullscreen toggle again give Normal mode, with
    exactly one more [requestFullscreen] and one more [exitFullscreen]
    call than before. *)
Theorem fullscreen_toggle_twice (a : App) :
  viewMode a = Normal ->
  fullscreenElement a = false ->
  viewMode (run [click_fullscreen] a) = Fullscreen /\
  viewMode (run [click_fullscreen; fullscreenchange true; click_fullscreen] a)
  = Normal /\
  count is_requestFullscreen
    (calls (run [click_fullscreen; fullscreenchange true; click_fullscreen] a))
  = S (count is_requestFullscreen (calls a)) /\
  count is_exitFullscreen
    (calls (run [click_fullscreen; fullscreenchange true; click_fullscreen] a))
  = S (count is_exitFullscreen (calls a)).
Proof.
  intros Hmode Hos. apply viewMode_Normal in Hmode. destruct Hmode as [Hv Hf].
  unfold run. simpl fold_left.
  repeat match goal with
         | |- context [dispatch click_fullscreen ?x] =>
             replace (dispatch click_fullscreen x) with (toggleFullscreen x)
               by (symmetry; apply dispatch_view_event)
         | |- context [dispatch (fullscreenchange ?b) ?x] =>
             replace (dispatch (fullscreenchange b) x)
               with (handleFullscreenChange (set_fullscreenElement b x))
               by (symmetry; apply dispatch_view_event)
         end.
  assert (E1 : toggleFullscreen a
               = setShowControls false
                   (setIsVideoOnly false
                      (setIsFullscreen true
                         (hold cmd_requestFullscreen catch_console_error
                            (call requestFullscreen a)))))
    by (unfold toggleFullscreen; rewrite Hos; reflexivity).
  rewrite E1.
  unfold viewMode, handleFullscreenChange, toggleFullscreen, hold, call.
  simpl. rewrite !count_snoc. simpl. repeat split; lia.
Qed.

Lemma fullscreen_toggle_twice_witness :
  viewMode (run [click_fullscreen] one_track_ready) = Fullscreen /\
  viewMode
    (run [click_fullscreen; fullscreenchange true; click_fullscreen]
       one_track_ready) = Normal /\
  count is_requestFullscreen
    (calls
       (run [click_fullscreen; fullscreenchange true; click_fullscreen]
          one_track_ready))
  = S (count is_requestFullscreen (calls one_track_ready)) /\
  count is_exitFullscreen
    (calls
       (run [click_fullscreen; fullscreenchange true; click_fullscreen]
          one_track_ready))
  = S (count is_exitFullscreen (calls one_track_ready)).
Proof. apply (fullscreen_toggle_twice one_track_ready); reflexivity. Defined.

(** X16. In Fullscreen mode with OS fullscreen active, the cinema toggle
    switches to Cinema mode and hides the controls without any call to the
    fullscreen API; a second cinema toggle then exits OS fullscreen once and
    gives Normal mode.  The fullscreen toggle pressed in Cinema mode also
    exits OS fullscreen once, but leaves the cinema flag set: the mode is
    Normal only after the OS notifies that fullscreen has ended. *)
Theorem switching_between_immersive_modes (a : App) :
  fullscreenElement a = true ->
  viewMode a = Fullscreen ->
  (viewMode (run [click_cinema] a) = Cinema /\
   showControls (run [click_cinema] a) = false /\
   calls (run [click_cinema] a) = calls a /\
   pending (run [click_cinema] a) = pending a) /\
  (viewMode (run [click_cinema; click_cinema] a) = Normal /\
   calls (run [click_cinema; click_cinema] a) = calls a ++ [exitFullscreen]) /\
  (viewMode (run [click_cinema; click_fullscreen] a) = Cinema /\
   calls (run [click_cinema; click_fullscreen] a) = calls a ++ [exitFullscreen] /\
   viewMode (run [click_cinema; click_fullscreen; fullscreenchange false] a)
   = Normal).
Proof.
  intros Hos Hmode.
  assert (Hflags : isVideoOnly a = false /\ isFullscreen a = true).
  { unfold viewMode in Hmode.
    destruct (isVideoOnly a), (isFullscreen a); try discriminate; auto. }
  destruct Hflags as [Hv Hf].
  unfold run. simpl fold_left.
  repeat match goal with
         | |- context [dispatch click_cinema ?x] =>
             replace (dispatch click_cinema x) with (toggleVideoOnly x)
               by (symmetry; apply dispatch_view_event)
         | |- context [dispatch click_fullscreen ?x] =>
             replace (dispatch click_fullscreen x) with (toggleFullscreen x)
               by (symmetry; apply dispatch_view_event)
         | |- context [dispatch (fullscreenchange ?b) ?x] =>
             replace (dispatch (fullscreenchange b) x)
               with (handleFullscreenChange (set_fullscreenElement b x))
               by (symmetry; apply dispatch_view_event)
         end.
  assert (E1 : toggleVideoOnly a = setShowControls false (setIsVideoOnly true a))
    by (unfold toggleVideoOnly; rewrite Hos, Hv; reflexivity).
  rewrite E1.
  unfold viewMode, handleFullscreenChange, toggleVideoOnly, toggleFullscreen,
    hold, call.
  simpl. rewrite ?Hos, ?Hf, ?Hv. simpl. rewrite ?Hos, ?Hf, ?Hv.
  repeat split; reflexivity.
Qed.

Lemma switching_between_immersive_modes_witness :
  (viewMode
     (run [click_cinema]
        (run [click_fullscreen; fullscreenchange true] one_track_ready))
   = Cinema /\
   showControls
     (run [click_cinema]
        (run [click_fullscreen; fullscreenchange true] one_track_ready))
   = false /\
   calls
     (run [click_cinema]
        (run [click_fullscreen; fullscreenchange true] one_track_ready))
   = calls (run [click_fullscreen; fullscreenchange true] one_track_ready) /\
   pending
     (run [click_cinema]
        (run [click_fullscreen; fullscreenchange true] one_track_ready))
   = pending (run [click_fullscreen; fullscreenchange true] one_track_ready)) /\
  (viewMode
     (run [click_cinema; click_cinema]
        (run [click_fullscreen; fullscreenchange true] one_track_ready))
   = Normal /\
   calls
     (run [click_cinema; click_cinema]
        (run [click_fullscreen; fullscreenchange true] one_track_ready))
   = calls (run [click_fullscreen; fullscreenchange true] one_track_ready)
     ++ [exitFullscreen]) /\
  (viewMode
     (run [click_cinema; click_fullscreen]
        (run [click_fullscreen; fullscreenchange true] one_track_ready))
   = Cinema /\
   calls
     (run [click_cinema; click_fullscreen]
        (run [click_fullscreen; fullscreenchange true] one_track_ready))
   = calls (run [click_fullscreen; fullscreenchange true] one_track_ready)
     ++ [exitFullscreen] /\
   viewMode
     (run [click_cinema; click_fullscreen; fullscreenchange false]
        (run [click_fullscreen; fullscreenchange true] one_track_ready))
   = Normal).
Proof.
  apply (switching_between_immersive_modes
           (run [click_fullscreen; fullscreenchange true] one_track_ready));
    reflexivity.
Defined.

(** Re-arming the timeout of a concern leaves that timeout as the only one
    pending for the concern. *)
Lemma rearm_pending (a a' : App) (task : TimerTask) :
  timers_tracked a ->
  timers a'
  = match timeout_ref task a with
    | Some old => filter (fun p => negb (Nat.eqb (fst p) old)) (timers a)
    | None => timers a
    end ++ [(next_timer a, task)] ->
  pending_timers task a' = [next_timer a].
Proof.
  intros [_ H] Et. unfold pending_timers. rewrite Et, filter_app, map_app.
  assert (E : filter (fun p => same_task (snd p) task)
                match timeout_ref task a with
                | Some old => filter (fun p => negb (Nat.eqb (fst p) old)) (timers a)
                | None => timers a
                end = []).
  { destruct (filter _ _) as [| [i t] r] eqn:Ef; [reflexivity | exfalso].
    assert (Hin : In (i, t) ((i, t) :: r)) by (left; reflexivity).
    rewrite <- Ef in Hin. apply filter_In in Hin. destruct Hin as [Hin Hs].
    simpl in Hs.
    assert (Et' : t = task) by (destruct t, task; try discriminate; reflexivity).
    subst t.
    assert (Hin' : In (i, task) (timers a)).
    { destruct (timeout_ref task a); [ | exact Hin].
      apply filter_In in Hin. tauto. }
    destruct (H _ _ Hin') as [_ Href]. rewrite Href in Hin.
    apply filter_In in Hin. destruct Hin as [_ Hne]. simpl in Hne.
    rewrite Nat.eqb_refl in Hne. discriminate. }
  rewrite E. simpl. destruct task; reflexivity.
Qed.

(** X17. Pointer moves, in any state the player can reach.  In Normal mode
    a move shows the controls and does nothing else: no timeout is set.  In
    Cinema or Fullscreen mode it shows the controls and leaves exactly one
    controls timeout pending, the new one of 2000 ms, whose firing hides
    the controls again. *)
Theorem pointer_move_controls (st : AudioContextState) (es : list Event) :
  match viewMode (run es (mount st)) with
  | Normal =>
      dispatch mousemove (run es (mount st))
      = setShowControls true (run es (mount st))
  | _ =>
      showControls (dispatch mousemove (run es (mount st))) = true /\
      pending_timers hide_controls (dispatch mousemove (run es (mount st)))
      = [next_timer (run es (mount st))] /\
      In (setTimeout (next_timer (run es (mount st))) 2000)
        (calls (dispatch mousemove (run es (mount st)))) /\
      showControls
        (dispatch (timeout (next_timer (run es (mount st))))
           (dispatch mousemove (run es (mount st)))) = false
  end.
Proof.
  pose proof (run_tracked es (mount st) (mount_tracked st)) as Htr.
  set (a := run es (mount st)) in *. clearbody a.
  assert (Ed : dispatch mousemove a = handleMouseMove a).
  { unfold dispatch. simpl handle. apply run_effects_quiet;
      unfold_handlers; repeat (simpl; try break_match); reflexivity. }
  assert (Himm :
    (negb (isVideoOnly a) && negb (isFullscreen a)) = false ->
    showControls (dispatch mousemove a) = true /\
    pending_timers hide_controls (dispatch mousemove a) = [next_timer a] /\
    In (setTimeout (next_timer a) 2000) (calls (dispatch mousemove a)) /\
    showControls (dispatch (timeout (next_timer a)) (dispatch mousemove a))
    = false).
  { intro Hn. rewrite Ed.
    assert (Et : timers (handleMouseMove a)
                 = match controlsTimeoutRef a with
                   | Some old =>
                       filter (fun p => negb (Nat.eqb (fst p) old)) (timers a)
                   | None => timers a
                   end ++ [(next_timer a, hide_controls)]).
    { unfold handleMouseMove. rewrite Hn.
      unfold set_timeout, clear_timeout, call. simpl.
      destruct (controlsTimeoutRef a); reflexivity. }
    assert (Hfind : find (fun p => Nat.eqb (fst p) (next_timer a))
                      (timers (handleMouseMove a))
                    = Some (next_timer a, hide_controls)).
    { rewrite Et, find_app.
      rewrite find_none; [cbn [find fst]; rewrite Nat.eqb_refl; reflexivity | ].
      intros [i t] Hin. cbn [fst].
      assert (Hin' : In (i, t) (timers a)).
      { destruct (controlsTimeoutRef a); [ | exact Hin].
        apply filter_In in Hin. tauto. }
      destruct Htr as [_ H]. destruct (H _ _ Hin') as [Hlt _].
      apply Nat.eqb_neq. lia. }
    split; [ | split; [ | split]].
    - unfold handleMouseMove. rewrite Hn.
      unfold set_timeout, clear_timeout, call. simpl.
      destruct (controlsTimeoutRef a); reflexivity.
    - apply (rearm_pending a _ hide_controls Htr). exact Et.
    - unfold handleMouseMove. rewrite Hn.
      unfold set_timeout, clear_timeout, call. simpl.
      destruct (controlsTimeoutRef a); simpl; apply in_or_app; right;
        left; reflexivity.
    - unfold dispatch at 1. simpl handle.
      destruct (run_effects_overlay (handleMouseMove a)
                  (fire (next_timer a) (handleMouseMove a))) as (_ & _ & ->).
      unfold fire. rewrite Hfind. reflexivity. }
  unfold viewMode.
  destruct (isVideoOnly a) eqn:Hv; [apply Himm; reflexivity | ].
  destruct (isFullscreen a) eqn:Hf; [apply Himm; reflexivity | ].
  rewrite Ed. unfold handleMouseMove. rewrite Hv, Hf. reflexivity.
Qed.

(** ** Duration *)

Lemma or_zero_not_nan (x : JS.number) : is_nan (JS.or_zero x) = false.
Proof.
  unfold JS.or_zero. destruct (is_nan x) eqn:E; simpl; [reflexivity | ].
  destruct (is_zero x); [reflexivity | exact E].
Qed.

Lemma handle_duration (e : Event) (a : App) :
  is_nan (duration a) = false -> is_nan (duration (handle e a)) = false.
Proof.
  intro H. destruct e; simpl handle; try unfold audio_graph_effect;
    unfold_handlers;
    repeat (simpl; rewrite ?create_object_urls_spec; try break_match);
    simpl; rewrite ?or_zero_not_nan; auto.
Qed.

Lemma run_effects_duration (before a : App) :
  duration (run_effects before a) = duration a.
Proof.
  unfold run_effects. unfold_handlers.
  repeat (simpl; try break_match); reflexivity.
Qed.

(** X18. [duration] is never NaN, whatever the media element reports and
    whatever else happens: a NaN duration (metadata not loaded) is stored
    as 0. *)
Theorem duration_never_nan (st : AudioContextState) (es : list Event) :
  is_nan (duration (run es (mount st))) = false.
Proof.
  assert (H : forall a, is_nan (duration a) = false ->
                        is_nan (duration (run es a)) = false).
  { induction es as [| e r IH]; intros a Ha; [exact Ha | ].
    change (run (e :: r) a) with (run r (dispatch e a)).
    apply IH. unfold dispatch. rewrite run_effects_duration.
    apply handle_duration. exact Ha. }
  apply H. destruct st; reflexivity.
Qed.

(** ** Playing implies a selected track *)

Ltac registry_finish :=
  simpl in *;
  repeat match goal with
         | H : (_ =? _) = true |- _ => apply Z.eqb_eq in H
         | H : (_ =? _) = false |- _ => apply Z.eqb_neq in H
         | H : (_ <? _) = true |- _ => apply Z.ltb_lt in H
         | H : (_ <? _) = false |- _ => apply Z.ltb_ge in H
         | H : (_ <=? _) = true |- _ => apply Z.leb_le in H
         | H : _ && _ = true |- _ => apply andb_true_iff in H; destruct H
         | H : _ && _ = false |- _ => apply andb_false_iff in H; destruct H
         end;
  try solve [intuition (try lia; try congruence)].

Lemma playing_has_track_frame (a a' : App) :
  currentTrackIndex a' = currentTrackIndex a ->
  isPlaying a' = isPlaying a ->
  playing_has_track a -> playing_has_track a'.
Proof. unfold playing_has_track. intros -> ->. auto. Qed.

Lemma togglePlay_rest_has_track (p : bool) (i n : Z) (a : App) :
  i = currentTrackIndex a -> p = isPlaying a -> 0 < n ->
  playing_has_track a -> playing_has_track (togglePlay_rest p i n a).
Proof.
  unfold playing_has_track. intros -> -> Hn [Hlo Hp].
  unfold togglePlay_rest, play_caught, hold, call.
  repeat (simpl; try break_match); registry_finish.
Qed.

Lemma togglePlay_has_track (a : App) :
  context_running a = true ->
  playing_has_track a -> playing_has_track (togglePlay a).
Proof.
  intros Hr H. unfold togglePlay, context_running in *.
  destruct (mediaRef a); [ | exact H].
  pose proof (len_nonneg (tracks a)) as Hn.
  destruct (Z.eqb_spec (len (tracks a)) 0); [exact H | ].
  destruct (audioContextRef a) as [[[ | ]] | ]; try discriminate.
  apply togglePlay_rest_has_track; auto. lia.
Qed.

Lemma next_prev_has_track (a : App) :
  playing_has_track a ->
  playing_has_track (nextTrack a) /\ playing_has_track (prevTrack a).
Proof.
  unfold playing_has_track. intros [Hlo Hp].
  unfold nextTrack, prevTrack, JS.rem.
  pose proof (len_nonneg (tracks a)) as Hn.
  destruct (Z.eqb_spec (len (tracks a)) 0) as [E | E]; [tauto | ].
  simpl.
  assert (R1 : 0 <= Z.rem (currentTrackIndex a + 1) (len (tracks a)))
    by (apply Z.rem_nonneg; lia).
  assert (R2 : 0 <= Z.rem (currentTrackIndex a - 1 + len (tracks a))
                      (len (tracks a))).
  { destruct (Z.eq_dec (currentTrackIndex a - 1 + len (tracks a)) (-1)) as [E1 | E1].
    - assert (L : len (tracks a) = 1) by lia.
      rewrite E1, L. change (Z.rem (-1) 1) with 0. lia.
    - apply Z.rem_nonneg; lia. }
  repeat split; intros; lia.
Qed.

Lemma removeTrack_has_track (id : string) (a : App) :
  0 <= findIndex (has_id id) (tracks a) ->
  playing_has_track a -> playing_has_track (removeTrack id a).
Proof.
  unfold playing_has_track. intros Hfound [Hlo Hp].
  rewrite removeTrack_unfold. cbv zeta.
  destruct (Z.eqb_spec (findIndex (has_id id) (tracks a)) (currentTrackIndex a));
    [ | destruct (Z.ltb_spec (findIndex (has_id id) (tracks a))
                    (currentTrackIndex a))];
    simpl; split; intros; try discriminate; try lia; auto.
Qed.

Lemma settle_caught_registry (k : nat) (ok : bool) (a : App) :
  forallb caught (pending a) = true ->
  currentTrackIndex (settle k ok a) = currentTrackIndex a /\
  isPlaying (settle k ok a) = isPlaying a.
Proof.
  intro Hp. unfold settle.
  destruct (nth_error (pending a) k) as [p | ] eqn:E; [ | auto].
  pose proof (forallb_nth_error _ _ _ _ Hp E) as Hk. unfold caught in Hk.
  destruct (reaction p); [ | discriminate].
  destruct ok; simpl; auto.
Qed.

Lemma handleKeyDown_has_track (key : string) (a : App) :
  context_running a = true ->
  playing_has_track a -> playing_has_track (handleKeyDown key a).
Proof.
  intros Hr H. unfold handleKeyDown.
  set (b := if JS.includes key _ then call preventDefault a else a).
  assert (Hb : playing_has_track b /\ context_running b = true)
    by (unfold b; destruct (JS.includes _ _); split; assumption).
  clearbody b. destruct Hb as [Hb Hrb].
  repeat match goal with
         | |- context [if ?c then _ else _] => destruct c
         end;
    try exact Hb;
    try (apply togglePlay_has_track; assumption);
    (eapply playing_has_track_frame; [ | | exact Hb]);
    unfold_handlers; repeat (simpl; try break_match); reflexivity.
Qed.

Lemma handle_has_track (e : Event) (a : App) :
  from_the_page a e = true ->
  all_caught a ->
  playing_has_track a -> playing_has_track (handle e a).
Proof.
  intros He (Hr & Hp & _) H.
  destruct e; simpl handle; simpl in He;
    try (apply handleKeyDown_has_track; assumption);
    try (apply togglePlay_has_track; assumption);
    try (apply next_prev_has_track; assumption);
    try (apply removeTrack_has_track; [apply Z.leb_le; exact He | exact H]);
    try (destruct (settle_caught_registry k ok a Hp) as [Ei Epl];
         apply (playing_has_track_frame a); assumption);
    try (unfold playing_has_track in *; destruct H as [Hlo Hpl];
         try unfold audio_graph_effect; unfold_handlers;
         repeat (simpl; rewrite ?create_object_urls_spec; try break_match);
         registry_finish).
Qed.

Lemma run_has_track (es : list Event) (a : App) :
  all_from_the_page es a = true ->
  all_caught a ->
  playing_has_track a -> playing_has_track (run es a).
Proof.
  revert a. induction es as [| e r IH]; intros a Hes Hc H; [exact H | ].
  simpl in Hes. apply andb_true_iff in Hes. destruct Hes as [He Hr].
  change (run (e :: r) a) with (run r (dispatch e a)).
  apply IH; [exact Hr | | ].
  - unfold dispatch. apply run_effects_all_caught, handle_all_caught. exact Hc.
  - unfold dispatch.
    destruct (run_effects_registry a (handle e a)) as (_ & Ei & Epl).
    apply (playing_has_track_frame (handle e a)); [exact Ei | exact Epl | ].
    apply handle_has_track; assumption.
Qed.

(** X22. With the audio context running from the start, and events as the
    page can send them (a remove button of a listed track, a click on a
    listed row; everything else unrestricted, rejections and the file
    picker included), [isPlaying] holds only while a track is selected:
    the index is never below -1 and is at least 0 whenever the player is
    playing. *)
Theorem playing_implies_selected (es : list Event) :
  all_from_the_page es (mount running) = true ->
  -1 <= currentTrackIndex (run es (mount running)) /\
  (isPlaying (run es (mount running)) = true ->
   0 <= currentTrackIndex (run es (mount running))).
Proof.
  intro H. apply (run_has_track es (mount running) H).
  - repeat split.
  - split; simpl; [lia | discriminate].
Qed.

Lemma playing_implies_selected_witness :
  -1 <= currentTrackIndex
          (run [drop (Some [song "a" "blob:a"; clip "b" "blob:b"]);
                keydown " "; click_remove "a"; click_track 0; ended;
                file_input_change (Some [notes_txt]); settled 0 false]
             (mount running)) /\
  (isPlaying
     (run [drop (Some [song "a" "blob:a"; clip "b" "blob:b"]);
           keydown " "; click_remove "a"; click_track 0; ended;
           file_input_change (Some [notes_txt]); settled 0 false]
        (mount running)) = true ->
   0 <= currentTrackIndex
          (run [drop (Some [song "a" "blob:a"; clip "b" "blob:b"]);
                keydown " "; click_remove "a"; click_track 0; ended;
                file_input_change (Some [notes_txt]); settled 0 false]
             (mount running))).
Proof.
  apply (playing_implies_selected
           [drop (Some [song "a" "blob:a"; clip "b" "blob:b"]);
            keydown " "; click_remove "a"; click_track 0; ended;
            file_input_change (Some [notes_txt]); settled 0 false]).
  vm_compute. reflexivity.
Defined.

(** A stale closure.  With the audio context suspended, [togglePlay] waits
    for [resume()] holding the index and the length it saw; when the
    playlist is emptied before the browser fulfils the promise, the rest of
    the function still selects index 0 and sets [isPlaying]. *)
Lemma togglePlay_stale_closure :
  tracks
    (run [drop (Some [song "a" "blob:a"; clip "b" "blob:b"]);
          click_remove "a"; click_play; click_remove "b"; settled 0 true]
       (mount suspended)) = [] /\
  currentTrackIndex
    (run [drop (Some [song "a" "blob:a"; clip "b" "blob:b"]);
          click_remove "a"; click_play; click_remove "b"; settled 0 true]
       (mount suspended)) = 0 /\
  isPlaying
    (run [drop (Some [song "a" "blob:a"; clip "b" "blob:b"]);
          click_remove "a"; click_play; click_remove "b"; settled 0 true]
       (mount suspended)) = true.
Proof. vm_compute. repeat split. Qed.

(** ** The visualizer *)

Module VisualizerFacts.

Import Visualizer.

Lemma cancel_expected (v : t) :
  frames v = expected_frames v ->
  filter (fun f => negb (Nat.eqb (fst f) (animationRef v))) (frames v) = [].
Proof.
  intro H. rewrite H. unfold expected_frames.
  destruct (analyser v); [ | reflexivity].
  destruct (isPlaying v); [ | reflexivity].
  simpl. rewrite Nat.eqb_refl. reflexivity.
Qed.

Lemma effect_loop_ok (data : nat -> Byte.byte) (v : t) :
  frames v = [] -> loop_ok (effect data v).
Proof.
  intro H. unfold loop_ok, effect, expected_frames, draw, paint,
    cancelAnimationFrame.
  destruct (analyser v) as [an | ] eqn:Ea; simpl; rewrite ?Ea; [ | auto].
  destruct (isPlaying v) eqn:Ep; simpl; rewrite ?Ea, ?Ep, H; auto.
Qed.

Lemma render_loop_ok (an : option AnalyserNode.t) (playing : bool)
    (data : nat -> Byte.byte) (v : t) :
  loop_ok v -> loop_ok (render an playing data v).
Proof.
  intros [Hf Hc]. unfold render.
  destruct (_ && _); [split; assumption | ].
  apply effect_loop_ok. simpl.
  unfold run_cleanup. rewrite Hc.
  destruct (analyser v) eqn:Ea.
  - simpl. apply cancel_expected. exact Hf.
  - rewrite Hf. unfold expected_frames. rewrite Ea. reflexivity.
Qed.

Lemma frame_loop_ok (id : nat) (data : nat -> Byte.byte) (v : t) :
  loop_ok v -> loop_ok (frame id data v).
Proof.
  intros [Hf Hc]. unfold frame.
  destruct (find _ (frames v)) as [[i n] | ] eqn:E; [ | split; assumption].
  rewrite Hf in E. unfold expected_frames in E.
  destruct (analyser v) as [an | ] eqn:Ea; [ | discriminate].
  destruct (isPlaying v) eqn:Ep; [ | discriminate].
  simpl in E. destruct (Nat.eqb_spec (animationRef v) id) as [Eid | ];
    [ | discriminate].
  injection E as <- <-. subst id.
  unfold loop_ok, draw, paint, expected_frames. simpl.
  rewrite ?Ea, ?Ep, (cancel_expected v Hf). auto.
Qed.

Lemma run_loop_ok (es : list Event) (v : t) : loop_ok v -> loop_ok (run es v).
Proof.
  revert v. induction es as [| e r IH]; intros v H; [exact H | ].
  change (run (e :: r) v) with (run r (step e v)).
  apply IH. destruct e; simpl;
    [apply render_loop_ok | apply frame_loop_ok]; exact H.
Qed.

Lemma mount_loop_ok (an : option AnalyserNode.t) (playing : bool)
    (data : nat -> Byte.byte) :
  loop_ok (mount an playing data).
Proof. apply effect_loop_ok. reflexivity. Qed.

(** X19. The animation loop never doubles and never outlives its cause:
    after the mount and any sequence of prop changes and animation frames,
    one callback is pending, the one requested last and of the current
    analyser, exactly while [isPlaying] holds and there is an analyser;
    otherwise none is. *)
Theorem animation_loop_single (an : option AnalyserNode.t) (playing : bool)
    (data : nat -> Byte.byte) (es : list Event) :
  frames (run es (mount an playing data))
  = expected_frames (run es (mount an playing data)).
Proof. apply run_loop_ok. apply mount_loop_ok. Qed.

(** X20. When [isPlaying] turns false the canvas is cleared exactly once
    and no callback is left, so that no animation frame the browser might
    still deliver paints anything afterwards. *)
Theorem stop_clears_once (an0 : option AnalyserNode.t) (playing0 : bool)
    (data0 : nat -> Byte.byte) (es : list Event) (an : AnalyserNode.t)
    (data : nat -> Byte.byte) :
  analyser (run es (mount an0 playing0 data0)) = Some an ->
  isPlaying (run es (mount an0 playing0 data0)) = true ->
  canvas (render (Some an) false data (run es (mount an0 playing0 data0)))
  = canvas (run es (mount an0 playing0 data0))
    ++ [clearRect 0%float 0%float canvas_width canvas_height] /\
  frames (render (Some an) false data (run es (mount an0 playing0 data0)))
  = [] /\
  (forall id d,
     frame id d
       (render (Some an) false data (run es (mount an0 playing0 data0)))
     = render (Some an) false data (run es (mount an0 playing0 data0))).
Proof.
  intros Ha Hp.
  destruct (run_loop_ok es _ (mount_loop_ok an0 playing0 data0)) as [Hf Hc].
  set (v := run es (mount an0 playing0 data0)) in *. clearbody v.
  assert (E : render (Some an) false data v
              = mk (Some an) false (animationRef v) true [] (next_frame v)
                  (canvas v
                   ++ [clearRect 0%float 0%float canvas_width canvas_height])).
  { unfold render. rewrite Ha, Hp. simpl. rewrite Z.eqb_refl. simpl.
    unfold run_cleanup. rewrite Hc, Ha.
    unfold effect, paint, cancelAnimationFrame. simpl.
    rewrite (cancel_expected v Hf). reflexivity. }
  rewrite E. simpl. repeat split. 
Qed.

Lemma stop_clears_once_witness :
  canvas
    (render (Some (AnalyserNode.mk 256)) false (fun _ => Byte.x00)
       (run [animation_frame 1 (fun _ => Byte.x80)]
          (mount (Some (AnalyserNode.mk 256)) true (fun _ => Byte.xff))))
  = canvas
      (run [animation_frame 1 (fun _ => Byte.x80)]
         (mount (Some (AnalyserNode.mk 256)) true (fun _ => Byte.xff)))
    ++ [clearRect 0%float 0%float canvas_width canvas_height] /\
  frames
    (render (Some (AnalyserNode.mk 256)) false (fun _ => Byte.x00)
       (run [animation_frame 1 (fun _ => Byte.x80)]
          (mount (Some (AnalyserNode.mk 256)) true (fun _ => Byte.xff))))
  = [] /\
  (forall id d,
     frame id d
       (render (Some (AnalyserNode.mk 256)) false (fun _ => Byte.x00)
          (run [animation_frame 1 (fun _ => Byte.x80)]
             (mount (Some (AnalyserNode.mk 256)) true (fun _ => Byte.xff))))
     = render (Some (AnalyserNode.mk 256)) false (fun _ => Byte.x00)
         (run [animation_frame 1 (fun _ => Byte.x80)]
            (mount (Some (AnalyserNode.mk 256)) true (fun _ => Byte.xff)))).
Proof.
  apply (stop_clears_once (Some (AnalyserNode.mk 256)) true
           (fun _ => Byte.xff) [animation_frame 1 (fun _ => Byte.x80)]
           (AnalyserNode.mk 256) (fun _ => Byte.x00));
    reflexivity.
Defined.

End VisualizerFacts.

Lemma bar_height_fits (b : Byte.byte) :
  (0 <=? bar_height b)%float = true /\
  (bar_height b <=? canvas_height)%float = true /\
  (0 <=? canvas_height - bar_height b)%float = true /\
  (canvas_height - bar_height b <=? canvas_height)%float = true.
Proof. destruct b; vm_compute; repeat split. Qed.

Lemma bars_fillRects (n i : nat) (x w : JS.number) (data : nat -> Byte.byte) :
  filter is_fillRect (bars n i x w canvas_height data)
  = map (fun k =>
           fillRect (bar_x_from x k w)
             (canvas_height - bar_height (data (i + k)%nat))%float w
             (bar_height (data (i + k)%nat)))
      (seq 0 n).
Proof.
  revert i x. induction n as [| n IH]; intros i x; [reflexivity | ].
  cbn [bars filter is_fillRect]. rewrite IH.
  cbn [seq map]. rewrite Nat.add_0_r. f_equal.
  rewrite <- seq_shift, map_map.
  apply map_ext. intro k. rewrite Nat.add_succ_comm. reflexivity.
Qed.

(** X21. What one frame paints with the analyser of the player (256-sample
    window, 128 bins): the canvas is cleared, then exactly 128 bars follow,
    bar [k] for bin [k], each 11.71875 wide and 12.71875 after the one
    before.  Whatever the spectrum, a bar's height, and its top, lie within
    the 128 pixels of the canvas; but only the first 48 bars start within
    its 600 pixels of width: the bars of bins 48 to 127 fall outside. *)
Theorem frame_geometry (data : nat -> Byte.byte) (v : Visualizer.t) :
  Visualizer.canvas
    (Visualizer.draw (bufferLength (AnalyserNode.mk 256)) data v)
  = Visualizer.canvas v
    ++ clearRect 0%float 0%float 600%float 128%float
       :: bars 128 0 0%float 11.71875%float 128%float data /\
  filter is_fillRect (bars 128 0 0%float 11.71875%float 128%float data)
  = map (fun k =>
           fillRect (bar_x k 11.71875%float)
             (128 - bar_height (data k))%float 11.71875%float
             (bar_height (data k)))
      (seq 0 128) /\
  (forall b,
     (0 <=? bar_height b)%float = true /\
     (bar_height b <=? 128)%float = true /\
     (0 <=? 128 - bar_height b)%float = true /\
     (128 - bar_height b <=? 128)%float = true) /\
  forallb
    (fun k => Bool.eqb (bar_x k 11.71875%float <? 600)%float (k <? 48)%nat)
    (seq 0 128) = true.
Proof.
  split; [ | split; [ | split]].
  - unfold Visualizer.draw, Visualizer.paint. cbn [Visualizer.canvas].
    rewrite <- app_assoc. reflexivity.
  - apply (bars_fillRects 128 0 0%float 11.71875%float data).
  - exact bar_height_fits.
  - vm_compute. reflexivity.
Qed.
